(** * buver: the versions ledger, the lock and the backup workflow

    A shallow embedding of [buver/cversions.py], [buver/csemaphore.py] and
    the backup path of [buver/cbuver.py], followed by the properties of the
    design document that concern them.

    Conventions of the embedding:
    - a Python [str] is a [string] whose characters are ASCII code points;
    - a Python [list] of strings is a [list string]; [x in l] is [x ∈ l];
    - a Python [int] is a [Z] (unbounded);
    - a method is a computation in the monad [M Self]: it threads the object
      it is called on and the world (disk and process state), appends the
      system calls and messages it performs to a trace, and either returns a
      value or raises an exception. *)

From Stdlib Require Import ZArith Lia Ascii String DecimalString DecimalZ DecimalPos.
From stdpp Require Import base strings list gmap.

Open Scope Z_scope.

(** ** Python builtins *)

(** The double quote character, as it appears in the command templates. *)
Definition dquote : string := String (Ascii.ascii_of_nat 34) EmptyString.

(** Whitespace for [str.strip()] within ASCII: TAB, LF, VT, FF, CR, FS, GS,
    RS, US and SPACE. *)
Definition is_space (c : ascii) : bool :=
  let n := Ascii.N_of_ascii c in
  ((9 <=? n) && (n <=? 13) || (28 <=? n) && (n <=? 32))%N.

(** Whitespace for [int()] on ASCII text: TAB, LF, VT, FF, CR and SPACE
    only. [int()] does not skip FS, GS, RS and US, which [str.strip()]
    removes. *)
Definition is_int_space (c : ascii) : bool :=
  let n := Ascii.N_of_ascii c in
  ((9 <=? n) && (n <=? 13) || (n =? 32))%N.

Fixpoint lstrip (s : string) : string :=
  match s with
  | String c r => if is_space c then lstrip r else s
  | EmptyString => EmptyString
  end.

Fixpoint rstrip (s : string) : string :=
  match s with
  | String c r =>
      match rstrip r with
      | EmptyString => if is_space c then EmptyString else String c EmptyString
      | r' => String c r'
      end
  | EmptyString => EmptyString
  end.

(** [s.strip()] *)
Definition strip (s : string) : string := rstrip (lstrip s).

(** One decimal digit in front of a decimal number. *)
Definition digit_cons (c : ascii) : option (Decimal.uint → Decimal.uint) :=
  match c with
  | "0"%char => Some Decimal.D0 | "1"%char => Some Decimal.D1
  | "2"%char => Some Decimal.D2 | "3"%char => Some Decimal.D3
  | "4"%char => Some Decimal.D4 | "5"%char => Some Decimal.D5
  | "6"%char => Some Decimal.D6 | "7"%char => Some Decimal.D7
  | "8"%char => Some Decimal.D8 | "9"%char => Some Decimal.D9
  | _ => None
  end.

(** The digit part of an integer literal: decimal digits, where single
    underscores may separate two digits. [after_digit] tells whether the
    previous character was a digit. *)
Fixpoint parse_digits (after_digit : bool) (s : string) : option Decimal.uint :=
  match s with
  | EmptyString => if after_digit then Some Decimal.Nil else None
  | String c r =>
      match digit_cons c with
      | Some d => d <$> parse_digits true r
      | None =>
          if Ascii.eqb c "_"%char && after_digit then parse_digits false r
          else None
      end
  end.

(** The whitespace that [int()] skips before and after the literal. *)
Fixpoint int_lstrip (s : string) : string :=
  match s with
  | String c r => if is_int_space c then int_lstrip r else s
  | EmptyString => EmptyString
  end.

Fixpoint int_rstrip (s : string) : string :=
  match s with
  | String c r =>
      match int_rstrip r with
      | EmptyString => if is_int_space c then EmptyString else String c EmptyString
      | r' => String c r'
      end
  | EmptyString => EmptyString
  end.

(** [int(s)] for a string [s]: [None] stands for [ValueError]. *)
Definition py_int (s : string) : option Z :=
  match int_rstrip (int_lstrip s) with
  | String "-"%char r => (λ u, Z.of_int (Decimal.Neg u)) <$> parse_digits false r
  | String "+"%char r => (λ u, Z.of_int (Decimal.Pos u)) <$> parse_digits false r
  | t => (λ u, Z.of_int (Decimal.Pos u)) <$> parse_digits false t
  end.

(** [str(n)] for an integer [n]. *)
Definition py_str (n : Z) : string := NilZero.string_of_int (Z.to_int n).

(** [l[i:]]: a negative [i] counts from the end, and the start is clipped
    to the list. *)
Definition py_slice_from {A} (i : Z) (l : list A) : list A :=
  let len := Z.of_nat (length l) in
  let start := if i <? 0 then Z.max (len + i) 0 else Z.min i len in
  drop (Z.to_nat start) l.

(** [l[-1]] on a list: [None] stands for [IndexError]. *)
Definition py_last {A} (l : list A) : option A := last l.

(** [s.replace(old, new)] for a non-empty [old]: the occurrences are
    replaced from left to right, without overlap. *)
Fixpoint strip_prefix (p s : string) : option string :=
  match p, s with
  | EmptyString, _ => Some s
  | String a p', String b s' => if Ascii.eqb a b then strip_prefix p' s' else None
  | String _ _, EmptyString => None
  end.

Fixpoint replace_from (fuel : nat) (old new s : string) : string :=
  match fuel, s with
  | S k, String c r =>
      match strip_prefix old s with
      | Some rest => new +:+ replace_from k old new rest
      | None => String c (replace_from k old new r)
      end
  | _, _ => s
  end.

Definition py_replace (old new s : string) : string :=
  replace_from (String.length s) old new s.

(** ** Paths ([posixpath]) *)

Definition starts_with_slash (s : string) : bool :=
  match s with String "/"%char _ => true | _ => false end.

Fixpoint ends_with_slash (s : string) : bool :=
  match s with
  | String c EmptyString => Ascii.eqb c "/"%char
  | String _ r => ends_with_slash r
  | EmptyString => false
  end.

(** [os.path.join(a, b)] *)
Definition os_path_join (a b : string) : string :=
  if starts_with_slash b then b
  else if bool_decide (a = EmptyString) || ends_with_slash a then a +:+ b
  else a +:+ "/" +:+ b.

Fixpoint has_slash (s : string) : bool :=
  match s with
  | String c r => Ascii.eqb c "/"%char || has_slash r
  | EmptyString => false
  end.

(** A single path component: what a directory entry is called. *)
Definition is_name (n : string) : bool :=
  negb (bool_decide (n = EmptyString)) && negb (has_slash n).

(** [child_name d p] is [Some n] when [p] is the entry called [n] of the
    directory [d]. *)
Definition child_name (d p : string) : option string :=
  match strip_prefix (os_path_join d EmptyString) p with
  | Some n => if is_name n then Some n else None
  | None => None
  end.

(** ** The world: disk, process state, and what is outside the program *)

(** The disk holds the paths of its directories and of its regular files,
    as absolute paths in normal form (no [.], [..] or doubled separator:
    [os.path.normpath] is not modelled). *)
Record Disk := mkDisk {
  dirs : list string;
  files : list string }.

Record World := mkWorld {
  disk : Disk;
  cwd : string;           (* the working directory of the process *)
  fds : list Z;           (* the file descriptors the process holds open *)
  now : nat }.            (* seconds slept so far *)

(** The data of a configuration: a Python [dict] in insertion order. A value
    is a string, or the list that [set_ver_dirs] stores. *)
Inductive cfgval :=
  | CStr (s : string)
  | CList (l : list string).

Definition pydict := list (string * cfgval).

Fixpoint dict_get (k : string) (d : pydict) : option cfgval :=
  match d with
  | (k', v) :: r => if bool_decide (k' = k) then Some v else dict_get k r
  | [] => None
  end.

(** [d[k] = v]: an existing key keeps its place. *)
Fixpoint dict_set (k : string) (v : cfgval) (d : pydict) : pydict :=
  match d with
  | (k', v') :: r =>
      if bool_decide (k' = k) then (k, v) :: r else (k', v') :: dict_set k v r
  | [] => [(k, v)]
  end.

Inductive exn := ValueError | IndexError | AttributeError | TypeError | OSError.

Inductive outcome (A : Type) :=
  | Ret (a : A)
  | Raise (e : exn).
Arguments Ret {A} a.
Arguments Raise {A} e.

(** What is outside the program. None of it is fixed by the source: every
    property below holds for an arbitrary environment, or says which
    behaviour of the environment it assumes. *)
Record Env := mkEnv {
  (* [os.system(cmd)]: the exit status of the shell command and what it
     does to the disk *)
  shell : string → World → Z * Disk;
  (* what other processes do to the disk during the second that starts at
     the given time *)
  others : nat → Disk → Disk;
  (* [C_buconfig.load()], reading and validating buver.conf: its result,
     the dictionary, and the [logical_versions] attribute when the file
     has a ver_dirs line *)
  conf_load : string → World → outcome Z * pydict * option (list string);
  (* whether buver.conf can be written *)
  conf_writable : string → World → bool;
  (* [os.name] *)
  os_name : string;
  (* [str(l)] for a list of strings, as the [%s] conversion prints it *)
  str_of_list : list string → string;
  (* the name [C_logger] gives the log file of this run *)
  logfile : string }.

(** The trace of a run: the messages it prints and the calls it makes. *)
Inductive event :=
  | Message (s : string)                    (* the logger's message() *)
  | Print (s : string)                      (* print() *)
  | Sleep (secs : Z)                        (* time.sleep *)
  | OsOpen (path : string) (r : option Z)   (* os.open(path, O_CREAT|O_EXCL) *)
  | OsClose (fd : Z) (ok : bool)
  | OsRemove (path : string) (ok : bool)
  | OsMkdir (path : string) (ok : bool)
  | OsChdir (path : string) (ok : bool)
  | OsSystem (cmd : string) (rc : Z)
  | ConfLoad (name : string)
  | ConfSave (name : string) (items : pydict) (ok : bool).

(** ** The monad of methods *)

Definition M (S A : Type) : Type :=
  S → World → outcome A * S * World * list event.

Definition ret {S A} (a : A) : M S A := λ s w, (Ret a, s, w, []).

Definition raise {S A} (e : exn) : M S A := λ s w, (Raise e, s, w, []).

Definition bind {S A B} (m : M S A) (f : A → M S B) : M S B :=
  λ s w,
    match m s w with
    | (Ret a, s1, w1, t1) =>
        let '(r, s2, w2, t2) := f a s1 w1 in (r, s2, w2, t1 ++ t2)
    | (Raise e, s1, w1, t1) => (Raise e, s1, w1, t1)
    end.

Global Instance M_ret {S} : MRet (M S) := λ A, ret.
Global Instance M_bind {S} : MBind (M S) := λ A B f m, bind m f.

Definition get_self {S} : M S S := λ s w, (Ret s, s, w, []).
Definition set_self {S} (f : S → S) : M S unit := λ s w, (Ret tt, f s, w, []).
Definition get_world {S} : M S World := λ s w, (Ret w, s, w, []).
Definition set_world {S} (f : World → World) : M S unit := λ s w, (Ret tt, s, f w, []).
Definition emit {S} (e : event) : M S unit := λ s w, (Ret tt, s, w, [e]).

(** Reading an attribute that may not have been assigned yet. *)
Definition attr {S A} (o : option A) : M S A :=
  match o with Some a => ret a | None => raise AttributeError end.

(** A method of the object held in a field of [self]. *)
Definition zoom {S T A} (get : S → T) (set : T → S → S) (m : M T A) : M S A :=
  λ s w, let '(r, t, w', tr) := m (get s) w in (r, set t s, w', tr).

(** The same for a field that may not have been assigned yet. *)
Definition zoom_attr {S T A} (get : S → option T) (set : T → S → S)
    (m : M T A) : M S A :=
  λ s w,
    match get s with
    | Some t0 => let '(r, t, w', tr) := m t0 w in (r, set t s, w', tr)
    | None => (Raise AttributeError, s, w, [])
    end.

(** [for x in l: acc = body(acc, x)] *)
Fixpoint for_each {S A B} (l : list A) (body : B → A → M S B) (acc : B) : M S B :=
  match l with
  | [] => ret acc
  | x :: r => acc' ← body acc x; for_each r body acc'
  end.

(** [try: m  finally: h]; also how a handler registered with [atexit] runs
    when the interpreter exits, whether by [sys.exit] or by an uncaught
    exception. *)
Definition finally {S A} (m : M S A) (h : M S unit) : M S A :=
  λ s w,
    let '(r, s1, w1, t1) := m s w in
    let '(_, s2, w2, t2) := h s1 w1 in
    (r, s2, w2, t1 ++ t2).

(** ** System calls *)

Definition abspath (w : World) (p : string) : string :=
  if starts_with_slash p then p else os_path_join (cwd w) p.

Definition exists_on (d : Disk) (p : string) : bool :=
  bool_decide (p ∈ dirs d) || bool_decide (p ∈ files d).

(** Whether [p] is an entry of a directory of the disk. *)
Definition has_parent (d : Disk) (p : string) : bool :=
  bool_decide (Exists (λ q, is_Some (child_name q p)) (dirs d)).

Definition os_path_isdir (w : World) (p : string) : bool :=
  bool_decide (abspath w p ∈ dirs (disk w)).

Definition os_path_isfile (w : World) (p : string) : bool :=
  bool_decide (abspath w p ∈ files (disk w)).

(** [os.listdir(d)], for a directory [d]. *)
Definition os_listdir (w : World) (d : string) : list string :=
  omap (child_name (abspath w d)) (dirs (disk w) ++ files (disk w)).

Definition with_disk (f : Disk → Disk) (w : World) : World :=
  mkWorld (f (disk w)) (cwd w) (fds w) (now w).

Definition fresh_fd (w : World) : Z := Z.succ (foldr Z.max 2 (fds w)).

(** [os.open(path, os.O_CREAT|os.O_EXCL)]: creates the file and returns a
    descriptor, or fails ([OSError]) when the path exists or its directory
    does not. *)
Definition os_open_excl {S} (path : string) : M S (option Z) :=
  w ← get_world;
  let p := abspath w path in
  if exists_on (disk w) p || negb (has_parent (disk w) p) then
    emit (OsOpen path None);; ret None
  else
    let fd := fresh_fd w in
    set_world (λ w, mkWorld (mkDisk (dirs (disk w)) (files (disk w) ++ [p]))
                            (cwd w) (fd :: fds w) (now w));;
    emit (OsOpen path (Some fd));;
    ret (Some fd).

(** [os.close(fd)]: [false] stands for [OSError]. The call fails when the
    descriptor is not open; other failures are outside the model. *)
Definition os_close {S} (fd : Z) : M S bool :=
  w ← get_world;
  if bool_decide (fd ∈ fds w) then
    set_world (λ w, mkWorld (disk w) (cwd w) (filter (λ x, x ≠ fd) (fds w)) (now w));;
    emit (OsClose fd true);; ret true
  else emit (OsClose fd false);; ret false.

(** [os.remove(path)]: [false] stands for [OSError]. The call fails when
    there is no such file; a removal that the system refuses for a file
    that is there is outside the model. *)
Definition os_remove {S} (path : string) : M S bool :=
  w ← get_world;
  let p := abspath w path in
  if bool_decide (p ∈ files (disk w)) then
    set_world (with_disk (λ d, mkDisk (dirs d) (filter (λ x, x ≠ p) (files d))));;
    emit (OsRemove path true);; ret true
  else emit (OsRemove path false);; ret false.

(** [os.mkdir(path)]: [false] stands for [OSError]. *)
Definition os_mkdir {S} (path : string) : M S bool :=
  w ← get_world;
  let p := abspath w path in
  if exists_on (disk w) p || negb (has_parent (disk w) p) then
    emit (OsMkdir path false);; ret false
  else
    set_world (with_disk (λ d, mkDisk (dirs d ++ [p]) (files d)));;
    emit (OsMkdir path true);; ret true.

(** [os.chdir(path)]: returns [None], or raises [OSError]. *)
Definition os_chdir {S} (path : string) : M S unit :=
  w ← get_world;
  if os_path_isdir w path then
    set_world (λ w, mkWorld (disk w) (abspath w path) (fds w) (now w));;
    emit (OsChdir path true)
  else emit (OsChdir path false);; raise OSError.

(** [os.system(cmd)] *)
Definition os_system {S} (env : Env) (cmd : string) : M S Z :=
  w ← get_world;
  let '(rc, d) := shell env cmd w in
  set_world (with_disk (λ _, d));;
  emit (OsSystem cmd rc);;
  ret rc.

(** [time.sleep(1)]: a second passes, in which the other processes run. *)
Definition time_sleep {S} (env : Env) (secs : Z) : M S unit :=
  set_world (λ w, mkWorld (others env (now w) (disk w)) (cwd w) (fds w) (Nat.succ (now w)));;
  emit (Sleep secs).

(** [C_logger.message], which the workflow also hands to its ledger and
    its configuration as their message handler: the line goes to the
    console and to the log of the run. The log is a file that the logger
    opens in the logs directory at the first message it gets once that
    directory exists; it is kept out of [Disk], so a statement about the
    files of a run speaks of the files outside the logs directory. *)
Definition message {S} (s : string) : M S unit := emit (Message s).

(** ** cversions.py: the ledger of versions *)

Module cversions.

Record C_versions := mk {
  verdir : string;                   (* the absolute path of the versions folder *)
  pview : bool;                      (* whether the physical view was created *)
  sane : bool;                       (* whether sanify() has succeeded *)
  pruned : bool;                     (* whether prune() has run *)
  dirlist : list string;             (* the versions found on disk *)
  keepers : option (list string);    (* assigned by sanify() *)
  nextdir : option string }.         (* assigned by sanify() *)

Definition set_physical (l : list string) (v : C_versions) : C_versions :=
  mk (verdir v) true (sane v) (pruned v) l (keepers v) (nextdir v).
Definition set_keepers (k : list string) (v : C_versions) : C_versions :=
  mk (verdir v) (pview v) (sane v) (pruned v) (dirlist v) (Some k) (nextdir v).
Definition set_nextdir (p : string) (v : C_versions) : C_versions :=
  mk (verdir v) (pview v) (sane v) (pruned v) (dirlist v) (keepers v) (Some p).
Definition set_sane (v : C_versions) : C_versions :=
  mk (verdir v) (pview v) true (pruned v) (dirlist v) (keepers v) (nextdir v).
Definition set_pruned (v : C_versions) : C_versions :=
  mk (verdir v) (pview v) (sane v) true (dirlist v) (keepers v) (nextdir v).

(** [load_disk_versions]: the directories directly under [verdir]. *)
Definition load_disk_versions : M C_versions Z :=
  self ← get_self;
  w ← get_world;
  if negb (os_path_isdir w (verdir self)) then ret (-1)
  else
    let dirlist :=
      filter (λ f, os_path_isdir w (os_path_join (verdir self) f) = true
                   ∧ ¬ (f = "." ∨ f = ".."))
             (os_listdir w (verdir self)) in
    set_self (set_physical dirlist);;
    ret 0.

(** [C_versions(msg, tgt_path)] *)
Definition init (tgt_path : string) (w : World) : C_versions :=
  let self := mk (abspath w tgt_path) false false false [] None None in
  (load_disk_versions self w).1.1.2.

(** [self.keepers.append(x)] *)
Definition keepers_append (x : string) : M C_versions unit :=
  self ← get_self;
  keepers ← attr (keepers self);
  set_self (set_keepers (keepers ++ [x])).

(** The two reports of an inconsistency. *)
Definition on_disk_unlisted (version : string) : string :=
  "Found <" +:+ version +:+ "> on disk, but not in config file".
Definition listed_missing (version : string) : string :=
  "Found <" +:+ version +:+ "> in config file, but not on disk".

Definition sanify (num_versions : Z) (logical_versions : list string)
    : M C_versions Z :=
  self ← get_self;
  if negb (pview self) then
    message ("No physical view for <" +:+ verdir self +:+ "> was found.");;
    ret 1
  else
    c0 ← for_each (dirlist self) (λ c0 version,
           if bool_decide (version ∉ logical_versions) then
             message (on_disk_unlisted version);;
             ret (c0 + 1)
           else ret c0) 0;
    c1 ← for_each logical_versions (λ c1 version,
           if bool_decide (version ∉ dirlist self) then
             message (listed_missing version);;
             ret (c1 + 1)
           else ret c1) 0;
    if negb (c0 =? 0) || negb (c1 =? 0) then
      message "mismatched physical vs. logical versions ...";;
      ret 2
    else
      let keep := num_versions - 1 in
      (if 0 <? keep
       then set_self (set_keepers (py_slice_from (- keep) logical_versions))
       else set_self (set_keepers []));;
      (if 0 <? Z.of_nat (length logical_versions) then
         match py_last logical_versions with
         | None => raise IndexError
         | Some latest =>
             match py_int latest with
             | None => raise ValueError
             | Some n => keepers_append (py_str (n + 1))
             end
         end
       else keepers_append "1");;
      self ← get_self;
      keepers ← attr (keepers self);
      match py_last keepers with
      | None => raise IndexError
      | Some newest =>
          let nextdir := os_path_join (verdir self) newest in
          set_self (set_nextdir nextdir);;
          w ← get_world;
          if os_path_isdir w nextdir then
            message ("Internal error: did not expect <" +:+ nextdir +:+ "> to exist ...");;
            ret 3
          else
            set_self set_sane;;
            ret 0
      end.

Definition new_ver_dirs : M C_versions (list string) :=
  self ← get_self;
  if sane self then attr (keepers self) else ret [].

Definition new_version : M C_versions string :=
  self ← get_self;
  if sane self then attr (nextdir self)
  else ret (os_path_join (verdir self) "INVALID_STATE").

(** The command line that removes the version [version]. *)
Definition rm_command (self : C_versions) (version : string) : string :=
  "rm -rf " +:+ dquote +:+ os_path_join (verdir self) version +:+ dquote.

Definition prune (env : Env) : M C_versions Z :=
  self ← get_self;
  if negb (sane self) then
    message "The prune() method was invoked in an invalid state.";;
    ret 1
  else if pruned self then
    message "The prune() method was invoked multiple times...";;
    ret 2
  else
    for_each (dirlist self) (λ _ version,
      self ← get_self;
      keepers ← attr (keepers self);
      if bool_decide (version ∉ keepers) then
        let command := rm_command self version in
        message command;;
        os_system env command;;
        ret tt
      else ret tt) tt;;
    set_self set_pruned;;
    ret 0.

End cversions.

(** ** csemaphore.py: the lock *)

Module csemaphore.

Record C_semaphore := mk {
  sem_name : string;       (* the absolute path of the marker file *)
  sem_path : string;       (* the directory the lock guards *)
  sem_locked : bool;
  fd : option Z }.         (* assigned by wait() *)

(** [C_semaphore(path, filename)] *)
Definition init (path filename : string) (w : World) : C_semaphore :=
  mk (abspath w (os_path_join path filename)) path false None.

Definition got_sem : M C_semaphore bool :=
  self ← get_self; ret (sem_locked self).

(** The [while] loop of [wait]; it returns the final values of [attempt]
    and [got_it]. An iteration either ends the loop or increases
    [attempt], so [maxtries - attempt] iterations are enough. *)
Fixpoint wait_loop (env : Env) (fuel : nat) (maxtries attempt got_it : Z)
    : M C_semaphore (Z * Z) :=
  if (got_it =? 0) && (attempt <? maxtries) then
    match fuel with
    | O => ret (attempt, got_it)
    | S fuel' =>
        self ← get_self;
        r ← os_open_excl (sem_name self);
        match r with
        | None =>
            time_sleep env 1;;
            wait_loop env fuel' maxtries (attempt + 1) got_it
        | Some descriptor =>
            set_self (λ self, mk (sem_name self) (sem_path self) (sem_locked self)
                                 (Some descriptor));;
            wait_loop env fuel' maxtries attempt 1
        end
    end
  else ret (attempt, got_it).

(** [wait(maxtries)]: [true] when the semaphore could not be acquired. *)
Definition wait (env : Env) (maxtries : Z) : M C_semaphore bool :=
  self ← get_self;
  w ← get_world;
  if negb (os_path_isdir w (sem_path self)) then ret true
  else
    p ← wait_loop env (Z.to_nat (maxtries - 1)) maxtries 1 0;
    let got_it := p.2 in
    if got_it =? 0 then ret true
    else
      set_self (λ self, mk (sem_name self) (sem_path self) true (fd self));;
      ret false.

(** [signal()]: [true] when there was no semaphore to release. *)
Definition signal : M C_semaphore bool :=
  self ← get_self;
  if negb (sem_locked self) then ret true
  else
    descriptor ← attr (fd self);
    closed ← os_close descriptor;
    (if (closed : bool) then ret tt
     else emit (Print "Internal failure during semaphore release - close"));;
    removed ← os_remove (sem_name self);
    (if (removed : bool) then ret tt
     else emit (Print "Internal failure during semaphore release - remove"));;
    set_self (λ self, mk (sem_name self) (sem_path self) false (fd self));;
    ret false.

End csemaphore.

(** ** cbuconfig.py: the configuration object *)

Module cbuconfig.

Record C_buconfig := mk {
  tgt_loc : string;
  conf_name : string;
  config : pydict;
  logical_versions : option (list string) }.   (* assigned by validate() *)

(** [C_buconfig(msg, tgt_loc)] *)
Definition init (tgt_loc : string) : C_buconfig :=
  mk tgt_loc (os_path_join tgt_loc "buver.conf") [] None.

Definition set_config (d : pydict) (c : C_buconfig) : C_buconfig :=
  mk (tgt_loc c) (conf_name c) d (logical_versions c).

(** The [%s] conversion of a configuration value. *)
Definition fmt (env : Env) (v : cfgval) : string :=
  match v with CStr s => s | CList l => str_of_list env l end.

(** [v in ['', None]] *)
Definition is_blank (v : cfgval) : bool :=
  match v with CStr EmptyString => true | _ => false end.

(** A value used as the receiver of a string method. *)
Definition receiver (v : cfgval) : M C_buconfig string :=
  match v with CStr s => ret s | CList _ => raise AttributeError end.

(** A value passed where a string is required. *)
Definition str_arg (v : cfgval) : M C_buconfig string :=
  match v with CStr s => ret s | CList _ => raise TypeError end.

Definition name : M C_buconfig string :=
  self ← get_self; ret (conf_name self).

Definition _get_attr (attr : string) : M C_buconfig cfgval :=
  self ← get_self;
  match dict_get attr (config self) with
  | Some v => ret v
  | None => ret (CStr "")
  end.

Definition opt_type : M C_buconfig cfgval := _get_attr "type".
Definition opt_nice : M C_buconfig cfgval := _get_attr "nice".
Definition opt_src_dir : M C_buconfig cfgval := _get_attr "src_dir".
Definition opt_num_versions : M C_buconfig cfgval := _get_attr "num_versions".
Definition opt_ver_dirs : M C_buconfig cfgval := _get_attr "ver_dirs".

Definition opt_command (env : Env) (version tarname gzipname : string)
    : M C_buconfig string :=
  type ← opt_type;
  cmd ← _get_attr (fmt env type +:+ "_cmd");
  if is_blank cmd then ret ""
  else
    cmd ← receiver cmd;
    src_dir ← opt_src_dir; src_dir ← str_arg src_dir;
    let cmd := py_replace "$src_dir" src_dir cmd in
    nice ← opt_nice; nice ← str_arg nice;
    let cmd := py_replace "$nice" nice cmd in
    let cmd := py_replace "$dest_dir" version cmd in
    let cmd := py_replace "$tar_name" tarname cmd in
    let cmd := py_replace "$gzip_name" gzipname cmd in
    ret cmd.

Definition opt_mailto (version logpath : string) : M C_buconfig string :=
  cmd ← _get_attr "mailto";
  if is_blank cmd then ret ""
  else
    cmd ← receiver cmd;
    let cmd := py_replace "$version" version cmd in
    let cmd := py_replace "$logfile" logpath cmd in
    ret cmd.

Definition set_ver_dirs (new_dirs : list string) : M C_buconfig unit :=
  set_self (λ self, set_config (dict_set "ver_dirs" (CList new_dirs) (config self)) self).

(** [load()]: reading and validating the file is left to the environment. *)
Definition load (env : Env) : M C_buconfig Z :=
  self ← get_self;
  w ← get_world;
  let '(r, d, lv) := conf_load env (conf_name self) w in
  set_self (λ self, mk (tgt_loc self) (conf_name self) d lv);;
  emit (ConfLoad (conf_name self));;
  match r with Ret rc => ret rc | Raise e => raise e end.

(** [save(create)]: rewrites buver.conf from the dictionary. *)
Definition save (env : Env) (create : Z) : M C_buconfig Z :=
  self ← get_self;
  let op := if create =? 0 then "Writing" else "Creating" in
  message (op +:+ " config <" +:+ conf_name self +:+ "> ...");;
  w ← get_world;
  if conf_writable env (conf_name self) w then
    let p := abspath w (conf_name self) in
    (if bool_decide (p ∈ files (disk w)) then ret tt
     else set_world (with_disk (λ d, mkDisk (dirs d) (files d ++ [p]))));;
    emit (ConfSave (conf_name self) (config self) true);;
    ret 0
  else
    emit (ConfSave (conf_name self) (config self) false);;
    ret 1.

Definition quoted (s : string) : string := dquote +:+ s +:+ dquote.

(** [create()]: a new buver.conf with the defaults of the platform. *)
Definition create (env : Env) : M C_buconfig Z :=
  let base : pydict :=
    [("src_dir", CStr ""); ("num_versions", CStr "10"); ("type", CStr "tree");
     ("ver_dirs", CStr "[]"); ("nice", CStr "10")] in
  let platform : pydict :=
    if bool_decide (os_name env = "nt") then
      [("tree_cmd", CStr ("xcopy " +:+ quoted "$src_dir" +:+ " " +:+ quoted "$dest_dir" +:+ " /e"));
       ("tar_cmd", CStr ("tar --force-local -cvf " +:+ quoted "$tar_name" +:+ " *"));
       ("gzip_cmd", CStr ("tar --force-local -cvf " +:+ quoted "$tar_name" +:+ " *&gzip "
                          +:+ quoted "$gzip_name"));
       ("mailto", CStr ("postmail -S " +:+ quoted "Backup $version"
                        +:+ " -H smtp-server.cfl.rr.com -f backup@buver.com klowrie@yahoo.com < $logfile"))]
    else if bool_decide (os_name env = "posix") then
      [("tree_cmd", CStr ("nice -n $nice cp -r -p " +:+ quoted "$src_dir" +:+ " " +:+ quoted "$dest_dir"));
       ("tar_cmd", CStr ("nice -n $nice tar cvf " +:+ quoted "$tar_name" +:+ " *"));
       ("gzip_cmd", CStr ("nice -n $nice tar cvf " +:+ quoted "$tar_name" +:+ " *;nice -n $nice gzip "
                          +:+ quoted "$gzip_name"));
       ("mailto", CStr ("mail -s " +:+ quoted "Backup $version" +:+ " klowrie@yahoo.com < $logfile"))]
    else
      [("tree_cmd", CStr "#NO_cp_cmd is set"); ("tar_cmd", CStr "#NO_tar_cmd is set ");
       ("gzip_cmd", CStr "#NO_gzip_cmd is set"); ("mailto", CStr "#NO_mailto is set")] in
  set_self (set_config base);;
  (if bool_decide (os_name env = "nt") || bool_decide (os_name env = "posix") then ret tt
   else message ("no logic for os.name=" +:+ os_name env));;
  set_self (λ self, set_config (foldl (λ d kv, dict_set kv.1 kv.2 d) (config self) platform) self);;
  save env 1.

Definition dump (env : Env) : M C_buconfig unit :=
  message "Dumping the configuration dictionary";;
  let items := ["type"; "nice"; "num_versions"; "mailto"; "src_dir";
                "tree_cmd"; "tar_cmd"; "gzip_cmd"] in
  for_each items (λ _ item,
    v ← _get_attr item;
    message ("  " +:+ item +:+ "=<" +:+ fmt env v +:+ ">")) tt;;
  self ← get_self;
  for_each (config self) (λ _ kv,
    if bool_decide (kv.1 ∉ items)
    then message ("  " +:+ kv.1 +:+ "=<" +:+ fmt env kv.2 +:+ ">")
    else ret tt) tt.

End cbuconfig.

(** ** cbuver.py: the backup workflow *)

Module cbuver.

Import cversions csemaphore cbuconfig.

Record C_buver := mk {
  mode : Z;
  mode_str : string;
  tgt_loc : string;
  tgt_logs : string;
  tgt_versions : string;
  semaphore : C_semaphore;
  config : option C_buconfig;       (* assigned by initialize() and backup() *)
  versions : option C_versions }.   (* assigned by backup() *)

Definition set_semaphore (s : C_semaphore) (b : C_buver) : C_buver :=
  mk (mode b) (mode_str b) (tgt_loc b) (tgt_logs b) (tgt_versions b) s (config b) (versions b).
Definition set_config (c : C_buconfig) (b : C_buver) : C_buver :=
  mk (mode b) (mode_str b) (tgt_loc b) (tgt_logs b) (tgt_versions b) (semaphore b) (Some c)
     (versions b).
Definition set_versions (v : C_versions) (b : C_buver) : C_buver :=
  mk (mode b) (mode_str b) (tgt_loc b) (tgt_logs b) (tgt_versions b) (semaphore b) (config b)
     (Some v).

(** Calls on [self.semaphore], [self.config] and [self.versions]. *)
Definition on_semaphore {A} (m : M C_semaphore A) : M C_buver A :=
  zoom semaphore set_semaphore m.
Definition on_config {A} (m : M C_buconfig A) : M C_buver A :=
  zoom_attr config set_config m.
Definition on_versions {A} (m : M C_versions A) : M C_buver A :=
  zoom_attr versions set_versions m.

(** [C_buver(mode, tgt_loc)]. The two [atexit] registrations are modelled
    where the process ends, in [buver_entry]. *)
Definition init (mode : Z) (tgt_loc : string) (w : World) : C_buver :=
  let mode := if (mode <? 0) || (1 <? mode) then 1 else mode in
  let mode_str := if mode =? 0 then "initialize" else "backup" in
  let abs_loc := abspath w tgt_loc in
  mk mode mode_str abs_loc (os_path_join abs_loc "logs") (os_path_join abs_loc "versions")
     (csemaphore.init tgt_loc "buver.lock" w) None None.

(** [tgt_clean]: the handler registered with [atexit]. *)
Definition tgt_clean : M C_buver unit :=
  message "Clean up procedure for object has been called";;
  on_semaphore signal;;
  ret tt.

Definition mkdir (dir : string) : M C_buver Z :=
  created ← os_mkdir dir;
  if (created : bool) then ret 0 else ret 1.

Definition check_dir (dir : string) : M C_buver (Z * Z) :=
  w ← get_world;
  if negb (os_path_isdir w dir) then ret (-1, -1)
  else
    for_each (os_listdir w dir) (λ '(dircount, filecount) f,
      if os_path_isdir w (os_path_join dir f) then
        if bool_decide (f = "." ∨ f = "..") then ret (dircount, filecount)
        else ret (dircount + 1, filecount)
      else ret (dircount, filecount + 1)) (0, 0).

Definition initialize (env : Env) : M C_buver Z :=
  self ← get_self;
  '(dc, fc) ← check_dir (tgt_loc self);
  unusable ←
    (if dc =? -1 then
       message ("The directory " +:+ tgt_loc self +:+ " does not exist ... creating ...");;
       failed ← mkdir (tgt_loc self);
       if negb (failed =? 0) then
         message "Unable to create directory. Cannot continue ...";;
         ret (Some 1)
       else ret None
     else if (0 <? dc) || (0 <? fc) then
       message ("Directory " +:+ tgt_loc self
                +:+ " is not empty ... cannot initialize directory");;
       ret (Some 2)
     else ret None);
  match unusable : option Z with
  | Some rc => ret rc
  | None =>
      timed_out ← on_semaphore (wait env 120);
      if (timed_out : bool) then
        message "Unable to acquire the semaphore ... exiting ...";;
        ret 3
      else
        no_logs ← mkdir (tgt_logs self);
        no_dirs ← (if negb (no_logs =? 0) then ret true
                   else no_versions ← mkdir (tgt_versions self);
                        ret (negb (no_versions =? 0)));
        if (no_dirs : bool) then
          message "Unable to create logs or versions directories ... exiting ...";;
          ret 4
        else
          set_self (set_config (cbuconfig.init (tgt_loc self)));;
          rc ← on_config (create env);
          (if rc =? 0 then
             message ("tgt_loc <" +:+ tgt_loc self +:+ "> has been initialized.");;
             message "Edit buver.conf to finish the configuration"
           else ret tt);;
          not_held ← on_semaphore signal;
          (if (not_held : bool) then message "Unable to release the semaphore ..."
           else ret tt);;
          ret rc
  end.

(** [backup_version]: runs the archive command. [os.chdir] returns [None],
    so the test on its result never fires; when it fails it raises. *)
Definition backup_version (env : Env) : M C_buver Z :=
  src_dir ← on_config opt_src_dir;
  src_dir ← on_config (str_arg src_dir);
  os_chdir src_dir;;
  new_ver ← on_versions new_version;
  let tar_archive := os_path_join new_ver "backup.tar" in
  let gzip_archive := tar_archive in
  new_ver ← on_versions new_version;
  cmd_str ← on_config (opt_command env new_ver tar_archive gzip_archive);
  if bool_decide (cmd_str = "") then
    type ← on_config opt_type;
    message ("Unable to get command string for " +:+ quoted (fmt env type));;
    ret 9999
  else
    match strip cmd_str with
    | EmptyString => raise IndexError
    | String c _ =>
        if Ascii.eqb c "#"%char then
          message ("COMMENT <" +:+ String.substring 1 (String.length cmd_str - 1) cmd_str
                   +:+ ">");;
          ret 0
        else
          message ("EXECUTE <" +:+ cmd_str +:+ ">");;
          os_system env cmd_str
    end.

(** [int(x)] for a configuration value. *)
Definition int_of (v : cfgval) : M C_buver Z :=
  match v with
  | CList _ => raise TypeError
  | CStr s => match py_int s with Some n => ret n | None => raise ValueError end
  end.

(** [backup]: [None] is the value of a Python function that ends without
    [return]. *)
Definition backup (env : Env) : M C_buver (option Z) :=
  timed_out ← on_semaphore (wait env 120);
  if (timed_out : bool) then
    message "Unable to acquire the semaphore ... exiting ...";;
    ret (Some 1)
  else
    self ← get_self;
    set_self (set_config (cbuconfig.init (tgt_loc self)));;
    load_rc ← on_config (load env);
    if negb (load_rc =? 0) then
      conf ← on_config name;
      message ("Failed loading the configuration file <" +:+ conf +:+ "> ... exiting ...");;
      on_semaphore signal;;
      ret (Some 2)
    else
      on_config (dump env);;
      w ← get_world;
      set_self (set_versions (cversions.init (tgt_versions self) w));;
      num_versions ← on_config opt_num_versions;
      num_versions ← int_of num_versions;
      self ← get_self;
      conf ← attr (config self);
      logical ← attr (logical_versions conf);
      insane ← on_versions (sanify num_versions logical);
      if negb (insane =? 0) then
        message "Sanification has failed ... exiting ...";;
        ret (Some 3)
      else
        unpruned ← on_versions (prune env);
        if negb (unpruned =? 0) then
          message "prune process has failed cleaning old versions ... exiting ...";;
          ret (Some 4)
        else
          new_ver ← on_versions new_version;
          no_dir ← mkdir new_ver;
          if negb (no_dir =? 0) then
            message "create version directory has failed ... exiting ...";;
            ret (Some 5)
          else
            failed ← backup_version env;
            (if negb (failed =? 0)
             then message "failed during backup_version ... exiting ..."
             else ret tt);;
            new_dirs ← on_versions new_ver_dirs;
            on_config (set_ver_dirs new_dirs);;
            unsaved ← on_config (save env 0);
            if negb (unsaved =? 0) then
              message "Failed updating the config file ... exiting ...";;
              ret (Some 6)
            else
              not_held ← on_semaphore signal;
              (if (not_held : bool) then message "Unable to release the semaphore ..."
               else ret tt);;
              ret None.

Definition mailer (env : Env) : M C_buver Z :=
  new_ver ← on_versions new_version;
  let log_fil := logfile env in
  if bool_decide (new_ver = "") || bool_decide (log_fil = "") then
    message "Unable to send email due to missing version or logfile";;
    ret 0
  else
    new_ver ← on_versions new_version;
    mail_cmd ← on_config (opt_mailto new_ver (logfile env));
    if bool_decide (mail_cmd = "") then ret 0
    else
      message ("MAIL: " +:+ mail_cmd);;
      os_system env mail_cmd.

Definition execute (env : Env) : M C_buver (option Z) :=
  self ← get_self;
  message ("Running " +:+ mode_str self +:+ " job on directory " +:+ tgt_loc self);;
  if mode self =? 0 then rc ← initialize env; ret (Some rc)
  else
    w ← get_world;
    if negb (os_path_isfile w (os_path_join (tgt_loc self) "buver.conf")) then
      message ("Missing the buver.conf in the tgt_loc <" +:+ tgt_loc self +:+ ">");;
      ret (Some 1)
    else
      rc ← backup env;
      mailer env;;
      ret rc.

(** The process: [buver_entry], once the arguments are parsed. It builds
    the object, runs [execute], and exits; on the way out the interpreter
    calls [tgt_clean], whether [execute] returned or raised. *)
Definition buver_entry (env : Env) (mode : Z) (tgt_loc : string) (w : World)
    : outcome (option Z) * C_buver * World * list event :=
  finally (execute env) tgt_clean (init mode tgt_loc w) w.

End cbuver.

(** ** cbuconfig.py: reading and validating buver.conf *)

Module conffile.

Import cbuconfig.

(** What the interpreter and the platform provide to [validate]. *)
Record Interp := mkInterp {
  (* [os.path.expanduser] *)
  expanduser : string → string;
  (* [os.path.normpath], the last step of [os.path.abspath] *)
  normpath : string → string;
  (* [eval] on the text of ver_dirs: the list the text denotes, [None] when
     its evaluation raises; texts that denote anything but a list of strings
     are outside the model *)
  eval_list : string → option (list string) }.

Definition newline : string := String (Ascii.ascii_of_nat 10) EmptyString.

(** [s.lower()] within ASCII. *)
Definition lower_ascii (c : ascii) : ascii :=
  let n := Ascii.nat_of_ascii c in
  if (65 <=? n)%nat && (n <=? 90)%nat then Ascii.ascii_of_nat (n + 32) else c.

Fixpoint lower (s : string) : string :=
  match s with
  | String c r => String (lower_ascii c) (lower r)
  | EmptyString => EmptyString
  end.

(** [s.split(c, 1)]: [None] when [c] does not occur in [s] (the list has
    one element), and the parts before and after the first [c] otherwise. *)
Fixpoint split_once (c : ascii) (s : string) : option (string * string) :=
  match s with
  | EmptyString => None
  | String a r =>
      if Ascii.eqb a c then Some (EmptyString, r)
      else match split_once c r with
           | Some (k, v) => Some (String a k, v)
           | None => None
           end
  end.

(** [s[-1]] for a non-empty string. *)
Fixpoint last_char (s : string) : option ascii :=
  match s with
  | EmptyString => None
  | String c EmptyString => Some c
  | String _ r => last_char r
  end.

(** The dictionary while [load] runs: [load] stores strings only. *)
Definition strdict := list (string * string).

Fixpoint sget (k : string) (d : strdict) : option string :=
  match d with
  | (k', v) :: r => if bool_decide (k' = k) then Some v else sget k r
  | [] => None
  end.

Fixpoint sset (k v : string) (d : strdict) : strdict :=
  match d with
  | (k', v') :: r => if bool_decide (k' = k) then (k, v) :: r else (k', v') :: sset k v r
  | [] => [(k, v)]
  end.

(** The part of the object that [load] and [validate] work on: the
    dictionary and the [logical_versions] attribute. *)
Record loading := mkLoading {
  entries : strdict;
  versions_read : option (list string) }.

Definition put (k v : string) : M loading unit :=
  set_self (λ s, mkLoading (sset k v (entries s)) (versions_read s)).

Definition set_logical_versions (l : list string) : M loading unit :=
  set_self (λ s, mkLoading (entries s) (Some l)).

(** The body of the loop of [load], for one line of the file. *)
Definition read_line (line : string) : M loading unit :=
  match split_once "=" (strip line) with
  | None => ret tt
  | Some (EmptyString, _) => raise IndexError
  | Some (String c k, v) =>
      if Ascii.eqb c "#" then ret tt else put (String c k) v
  end.

Definition read_lines (lines : list string) : M loading unit :=
  for_each lines (λ _ line, read_line line) tt.

(** The lines that [save] writes. *)
Definition written_lines (env : Env) (d : pydict) : list string :=
  (λ kv, kv.1 +:+ "=" +:+ fmt env kv.2 +:+ newline) <$> d.

(** The body of the loop of [validate], for one item. *)
Definition validate_item (I : Interp) (kv : string * string) : M loading unit :=
  let key := kv.1 in
  let val := kv.2 in
  let k := lower key in
  if bool_decide (k = "src_dir") then
    (if bool_decide (val = "") then message (key +:+ " key is required, but is not set")
     else ret tt);;
    match val with
    | EmptyString => raise IndexError
    | String c _ =>
        let val := if Ascii.eqb c "~" then expanduser I val else val in
        w ← get_world;
        put key (normpath I (abspath w val))
    end
  else if bool_decide (k = "num_versions") then
    out ← (if bool_decide (val = "") then ret true
           else match py_int val with
                | None => raise ValueError
                | Some n => ret ((n <? 1) || (10 <? n))
                end);
    if (out : bool) then
      message (key +:+ " key is not specified or out of range (1,10). Setting to 10 ...");;
      put key "10"
    else ret tt
  else if bool_decide (k = "nice") then
    out ← (if bool_decide (val = "") then ret true
           else match py_int val with
                | None => raise ValueError
                | Some n => ret ((n <? 0) || (20 <? n))
                end);
    if (out : bool) then
      message (key +:+ " key is not specified or out of range (0,20). Setting to 10 ...");;
      put key "10"
    else ret tt
  else if bool_decide (k = "type") then
    if bool_decide (val = "") || bool_decide (val ∉ ["tree"; "tar"; "gzip"]) then
      message (key +:+ " key is not specified or not in range (tree,tar,gzip). Setting to tree ...");;
      put key "tree"
    else ret tt
  else if bool_decide (k ∈ ["mailto"]) then ret tt
  else if bool_decide (k = "ver_dirs") then
    (if bool_decide (val = "")
        || negb (bool_decide (String.get 0 val = Some "["%char))
        || negb (bool_decide (last_char val = Some "]"%char))
     then
       message (key +:+ " key is not specified or not formatted properly. Setting to [] ...");;
       put key "[]"
     else ret tt);;
    s ← get_self;
    match sget "ver_dirs" (entries s) ≫= eval_list I with
    | Some l => set_logical_versions l
    | None =>
        message "Error evaluting the ver_dirs keyword. Resetting to default ...";;
        set_logical_versions []
    end
  else if bool_decide (k ∈ ["tree_cmd"; "tar_cmd"; "gzip_cmd"]) then
    if bool_decide (val = "") then
      message (key +:+ " key is not specified or not in range (tree,tar,gzip). Defaulting to "
               +:+ dquote +:+ "# NONE" +:+ dquote +:+ " ...");;
      put key "# NONE SET"
    else ret tt
  else message ("Found key <" +:+ key +:+ "> but I do not understand it. Ignoring ...").

(** The result of [validate] and of [load]: a return code, or the
    [KeyError] of [self.config['src_dir']], which nothing catches. *)
Inductive validated :=
  | Code (rc : Z)
  | KeyError (key : string).

Definition validate (I : Interp) (env : Env) (tgt_loc : string) : M loading validated :=
  s ← get_self;
  for_each (entries s) (λ _ kv, validate_item I kv) tt;;
  s ← get_self;
  match sget "src_dir" (entries s) with
  | None => ret (KeyError "src_dir")
  | Some src_dir =>
      let tgt_sub := String.substring 0 (String.length src_dir) tgt_loc in
      let nt := bool_decide (os_name env = "nt") in
      let src_dir := if nt then lower src_dir else src_dir in
      let tgt_sub := if nt then lower tgt_sub else tgt_sub in
      if bool_decide (src_dir = tgt_sub) then
        message "src_dir and tgt_loc cannot be the nested";;
        ret (Code 1)
      else
        w ← get_world;
        if negb (os_path_isdir w src_dir) then
          message ("Directory <" +:+ src_dir +:+ "> does not exist or you do not have access");;
          ret (Code 2)
        else ret (Code 0)
  end.

(** [load()] on a file that cannot be opened ([None]) or whose lines are
    [lines]: the dictionary is emptied, filled from the lines and
    validated. *)
Definition load_from (I : Interp) (env : Env) (content : option (list string))
    : M C_buconfig validated :=
  set_self (set_config []);;
  self ← get_self;
  w ← get_world;
  if negb (os_path_isfile w (conf_name self)) then ret (Code 1)
  else
    match content with
    | None => ret (Code 2)
    | Some lines =>
        zoom (λ c, mkLoading [] (logical_versions c))
             (λ l c, cbuconfig.mk (tgt_loc c) (conf_name c)
                       ((λ kv, (kv.1, CStr kv.2)) <$> entries l) (versions_read l))
             (read_lines lines;; validate I env (tgt_loc self))
    end.

End conffile.

(** ** buver.py: the command line *)

Module buver.

(** The value of [parse_args]: [usage()] has ended the process with status
    1, or the mode and the target of the [C_buver] object to build, with
    what was found on the command line. *)
Inductive parsed :=
  | Usage
  | Parsed (mode : Z) (tgt_loc : string) (found_mode found_tgtloc : bool).

Definition is_help (arg : string) : bool :=
  bool_decide (conffile.lower arg ∈ ["--help"; "-?"; "-h"; "/h"; "/?"]).
Definition is_init (arg : string) : bool :=
  bool_decide (conffile.lower arg ∈ ["--init"; "-i"]).
Definition is_bu (arg : string) : bool :=
  bool_decide (conffile.lower arg ∈ ["--bu"; "-b"]).

(** The loop of [parse_args]. *)
Fixpoint scan (args : list string) (mode : Z) (tgt_loc : string)
    (found_mode found_tgtloc : bool) : parsed :=
  match args with
  | [] => Parsed mode tgt_loc found_mode found_tgtloc
  | arg :: rest =>
      if is_help arg then Usage
      else if is_init arg then scan rest 0 tgt_loc true found_tgtloc
      else if is_bu arg then scan rest 1 tgt_loc true found_tgtloc
      else scan rest mode arg found_mode true
  end.

Definition parse_args (args : list string) : parsed := scan args 1 "." false false.

(** What [parse_args] prints before it builds the object. *)
Definition notes (found_mode found_tgtloc : bool) : list event :=
  (if found_mode then [] else [Print "buver: mode not specified, defaulting to backup ..."])
  ++ (if found_tgtloc then []
      else [Print "buver: tgt_loc not specified, defaulting to current directory ..."]).

End buver.

(** ** Notions used in the statements, and example worlds *)

Import cversions csemaphore cbuconfig cbuver.

(** [prepend t x]: the run [x] with the events [t] before its own. *)
Definition prepend {S A} (t : list event) (x : outcome A * S * World * list event)
    : outcome A * S * World * list event :=
  (x.1.1.1, x.1.1.2, x.1.2, t ++ x.2).

(** The ledger once [keepers] holds [ks]: the last steps of [sanify]. *)
Definition settle (ks : list string) (newest : string) (v : C_versions) (w : World)
    : outcome Z * C_versions * World * list event :=
  let d := os_path_join (verdir v) newest in
  let v1 := set_nextdir d (set_keepers ks v) in
  if os_path_isdir w d
  then (Ret 3, v1, w, [Message ("Internal error: did not expect <" +:+ d +:+ "> to exist ...")])
  else (Ret 0, set_sane v1, w, []).

(** The retention window: [logical_versions[-keep:]] for
    [keep = num_versions - 1] when [keep > 0], and [[]] otherwise. *)
Definition window (num_versions : Z) (logical_versions : list string) : list string :=
  if 0 <? num_versions - 1 then py_slice_from (- (num_versions - 1)) logical_versions else [].

(** The commands handed to the shell in a trace, in order. *)
Definition commands (tr : list event) : list string :=
  omap (λ e, match e with OsSystem cmd _ => Some cmd | _ => None end) tr.

(** Running a list of shell commands one after the other, each announced
    by a message, whatever their exit statuses. *)
Fixpoint run_commands (env : Env) (cmds : list string) (w : World) : World * list event :=
  match cmds with
  | [] => (w, [])
  | c :: r =>
      let w1 := with_disk (λ _, (shell env c w).2) w in
      let '(w2, tr) := run_commands env r w1 in
      (w2, Message c :: OsSystem c (shell env c w).1 :: tr)
  end.

(** An environment in which every shell command succeeds and nothing else
    happens. *)
Definition env_quiet : Env :=
  mkEnv (λ _ w, (0, disk w)) (λ _ d, d) (λ _ _, (Ret 0, [], None)) (λ _ _, true)
        "posix" (λ _, "[]") "/bu/logs/run.log".

(** An environment in which every shell command fails with status 256 and
    changes nothing. *)
Definition env_failing : Env :=
  mkEnv (λ _ w, (256, disk w)) (λ _ d, d) (λ _ _, (Ret 0, [], None)) (λ _ _, true)
        "posix" (λ _, "[]") "/bu/logs/run.log".

(** Example worlds: the directories [ds] and the files [fs], the current
    directory [/], no open descriptor. *)
Definition world_of (ds fs : list string) : World := mkWorld (mkDisk ds fs) "/" [] 0.

(** An initialised target area without versions. *)
Definition world_A : World :=
  world_of ["/bu"; "/bu/logs"; "/bu/versions"] ["/bu/buver.conf"].
(** Versions 1 to 4 on disk. *)
Definition world_B : World :=
  world_of ["/bu"; "/bu/logs"; "/bu/versions"; "/bu/versions/1"; "/bu/versions/2";
            "/bu/versions/3"; "/bu/versions/4"] ["/bu/buver.conf"].
(** Versions 1 and 2 on disk. *)
Definition world_C : World :=
  world_of ["/bu"; "/bu/logs"; "/bu/versions"; "/bu/versions/1"; "/bu/versions/2"]
           ["/bu/buver.conf"].
(** Version 7 on disk. *)
Definition world_D : World :=
  world_of ["/bu"; "/bu/logs"; "/bu/versions"; "/bu/versions/7"] ["/bu/buver.conf"].
(** A version whose name is not a number. *)
Definition world_E : World :=
  world_of ["/bu"; "/bu/logs"; "/bu/versions"; "/bu/versions/monday"] ["/bu/buver.conf"].

(** The ledger built on the versions folder of a world. *)
Definition ledger_of (w : World) : C_versions := cversions.init "/bu/versions" w.

(** The ledger of [world_D] once validated with one version to keep. *)
Definition ledger_D : C_versions := (sanify 1 ["7"] (ledger_of world_D) world_D).1.1.2.

(** The creation attempts of a trace. *)
Definition attempts (tr : list event) : nat :=
  length (omap (λ e, match e with OsOpen p r => Some (p, r) | _ => None end) tr).

(** One failed attempt to create the marker and the wait that follows. *)
Definition failed_try (s : C_semaphore) : list event :=
  [OsOpen (sem_name s) None; Sleep 1].

(** An initialised target area whose marker file is there. *)
Definition world_locked : World :=
  world_of ["/bu"; "/bu/logs"; "/bu/versions"] ["/bu/buver.conf"; "/bu/buver.lock"].

(** The trace of a computation. *)
Definition trace_of {S A} (x : outcome A * S * World * list event) : list event := x.2.
(** The object at the end of a computation. *)
Definition self_of {S A} (x : outcome A * S * World * list event) : S := x.1.1.2.

(** A trace without events of the class [E]. *)
Definition silent (E : event → bool) (tr : list event) : Prop :=
  Forall (λ e, E e = false) tr.

(** A computation that never performs an event of the class [E]. *)
Definition avoids {S A} (E : event → bool) (m : M S A) : Prop :=
  ∀ s w, silent E (trace_of (m s w)).

(** The creation of a marker file. *)
Definition is_acquire (e : event) : bool :=
  match e with OsOpen _ (Some _) => true | _ => false end.

(** Every marker created in the trace is removed, or at least its removal
    is attempted, later in the trace. *)
Definition released (tr : list event) : Prop :=
  ∀ pre p d post, tr = pre ++ OsOpen p (Some d) :: post → ∃ ok, OsRemove p ok ∈ post.

(** The same, except for the marker [name], which may still be there. *)
Definition pending (name : string) (tr : list event) : Prop :=
  ∀ pre p d post, tr = pre ++ OsOpen p (Some d) :: post →
    p = name ∨ ∃ ok, OsRemove p ok ∈ post.

(** What the workflow maintains: while the semaphore is held its
    descriptor is known and only its marker may be on disk; otherwise every
    marker was released. *)
Definition phase (b : C_buver) (h : list event) : Prop :=
  if sem_locked (semaphore b)
  then pending (sem_name (semaphore b)) h ∧ is_Some (fd (semaphore b))
  else released h.

(** A method of the workflow that maintains [phase]. *)
Definition keeps {A} (m : M C_buver A) : Prop :=
  ∀ b w h, phase b h → phase (self_of (m b w)) (h ++ trace_of (m b w)).

(** The creation of a directory. *)
Definition is_mkdir (e : event) : bool :=
  match e with OsMkdir _ true => true | _ => false end.

(** The run of a shell command. *)
Definition is_system (e : event) : bool :=
  match e with OsSystem _ _ => true | _ => false end.

(** A computation that only reads: it leaves the object and the world as
    they are and performs no event. *)
Definition pure {S A} (m : M S A) : Prop := ∀ s w, ∃ r, m s w = (r, s, w, []).

(** The manifest of [b] records the version directory [d], and the events
    [post] contain the attempt to write it to buver.conf. *)
Definition records_new_version (b : C_buver) (d : string) (post : list event) : Prop :=
  ∃ c v kept nextId ok,
    cbuver.config b = Some c ∧ versions b = Some v ∧
    sane v = true ∧ keepers v = Some (kept ++ [nextId]) ∧
    d = os_path_join (verdir v) nextId ∧
    dict_get "ver_dirs" (cbuconfig.config c) = Some (CList (kept ++ [nextId])) ∧
    ConfSave (conf_name c) (cbuconfig.config c) ok ∈ post.

(** A computation that leaves the object and the world as they are. *)
Definition reads {S A} (m : M S A) : Prop := ∀ s w, ∃ r t, m s w = (r, s, w, t).

(** A configuration that keeps three versions and archives with tar. *)
Definition conf_tar : pydict :=
  [("src_dir", CStr "/src"); ("num_versions", CStr "3"); ("type", CStr "tar");
   ("ver_dirs", CStr "['1', '2']"); ("nice", CStr "10");
   ("tar_cmd", CStr "tar cvf $tar_name *"); ("mailto", CStr "")].

(** An environment in which buver.conf holds [conf_tar] with the manifest
    [manifest], and every shell command exits with [status]. *)
Definition env_run (status : Z) (manifest : list string) : Env :=
  mkEnv (λ _ w, (status, disk w)) (λ _ d, d) (λ _ _, (Ret 0, conf_tar, Some manifest))
        (λ _ _, true) "posix" (λ _, "[]") "/bu/logs/run.log".

(** Versions 1 and 2 on disk, and the directory to protect. *)
Definition world_run : World :=
  world_of ["/bu"; "/bu/logs"; "/bu/versions"; "/bu/versions/1"; "/bu/versions/2"; "/src"]
           ["/bu/buver.conf"].

(** An environment in which buver.conf cannot be read: [load] returns 2. *)
Definition env_unreadable : Env :=
  mkEnv (λ _ w, (0, disk w)) (λ _ d, d) (λ _ _, (Ret 2, [], None)) (λ _ _, true)
        "posix" (λ _, "[]") "/bu/logs/run.log".

(** An event that changes the target area, or tries to: a shell command,
    the creation of a directory, a write of buver.conf. *)
Definition is_change (e : event) : bool :=
  match e with
  | OsSystem _ _ | OsMkdir _ _ | ConfSave _ _ _ => true
  | _ => false
  end.

(** A write of buver.conf. *)
Definition is_save (e : event) : bool :=
  match e with ConfSave _ _ _ => true | _ => false end.

(** What [backup] guarantees for each of its results. *)
Definition backup_post (b : C_buver) (r : outcome (option Z)) (b' : C_buver)
    (tr : list event) : Prop :=
  match r with
  | Raise _ => True
  | Ret None => sem_locked (semaphore b') = false
  | Ret (Some rc) =>
      (rc = 1 ∧ semaphore b' = semaphore b ∧ silent is_acquire tr ∧ silent is_change tr) ∨
      (rc = 2 ∧ sem_locked (semaphore b') = false ∧ silent is_change tr) ∨
      (rc = 3 ∧ sem_locked (semaphore b') = true ∧ silent is_change tr) ∨
      (rc = 5 ∧ sem_locked (semaphore b') = true ∧ silent is_mkdir tr ∧ silent is_save tr) ∨
      (rc = 6 ∧ sem_locked (semaphore b') = true)
  end.

(** A configuration whose archive command is a comment, as [create] writes
    it on a platform it does not know. *)
Definition conf_comment : pydict :=
  [("src_dir", CStr "/src"); ("num_versions", CStr "3"); ("type", CStr "tree");
   ("ver_dirs", CStr "['1', '2']"); ("nice", CStr "10");
   ("tree_cmd", CStr "#NO_cp_cmd is set"); ("mailto", CStr "")].

(** A mode switch of the command line. *)
Definition is_switch (arg : string) : bool := buver.is_init arg || buver.is_bu arg.

(** A string without line breaks. *)
Fixpoint one_line (s : string) : bool :=
  match s with
  | String c r =>
      negb (Ascii.eqb c (Ascii.ascii_of_nat 10)) && negb (Ascii.eqb c (Ascii.ascii_of_nat 13))
      && one_line r
  | EmptyString => true
  end.

Fixpoint has_char (c : ascii) (s : string) : bool :=
  match s with
  | String a r => Ascii.eqb a c || has_char c r
  | EmptyString => false
  end.

(** A key that a line of buver.conf can carry: it starts with a character
    that is neither a blank nor [#], and has no [=] and no line break. *)
Definition key_ok (k : string) : bool :=
  match k with
  | String c _ => negb (is_space c) && negb (Ascii.eqb c "#")
  | EmptyString => false
  end && negb (has_char "=" k) && one_line k.

(** A value that a line of buver.conf can carry: it does not end with a
    blank and has no line break. *)
Definition value_ok (v : string) : bool :=
  match conffile.last_char v with
  | Some c => negb (is_space c)
  | None => true
  end && one_line v.

(** What [validate] leaves as the value [v'] of the item [(k, v)] when it
    does not raise. *)
Definition item_rel (I : conffile.Interp) (w : World) (k v v' : string) : Prop :=
  (conffile.lower k = "src_dir" →
     ∃ c r, v = String c r ∧
            v' = conffile.normpath I
                   (abspath w (if Ascii.eqb c "~" then conffile.expanduser I v else v))) ∧
  (conffile.lower k = "num_versions" → ∃ n, py_int v' = Some n ∧ 1 ≤ n ≤ 10) ∧
  (conffile.lower k = "nice" → ∃ n, py_int v' = Some n ∧ 0 ≤ n ≤ 20) ∧
  (conffile.lower k = "type" → v' ∈ ["tree"; "tar"; "gzip"]) ∧
  (conffile.lower k ∈ ["tree_cmd"; "tar_cmd"; "gzip_cmd"] → v' ≠ "").

(** An interpreter for the examples: no home directory to expand, paths in
    normal form already, and no list to evaluate. *)
Definition interp_plain : conffile.Interp :=
  conffile.mkInterp (λ p, p) (λ p, p) (λ _, None).

(** [p] is the path [d] or a path below it. *)
Definition under (d p : string) : bool :=
  bool_decide (p = d)
  || match strip_prefix (d +:+ "/") p with Some _ => true | None => false end.

(** What is left of a disk once [d] and everything below it are removed. *)
Definition rm_rf (d : string) (k : Disk) : Disk :=
  mkDisk (filter (λ p, under d p = false) (dirs k))
         (filter (λ p, under d p = false) (files k)).

(** The shell of [env] carries out the command that removes [d]: whatever
    its exit status, it removes [d] and what is below it, and nothing
    else. *)
Definition removes (env : Env) (d : string) : Prop :=
  ∀ w, (shell env ("rm -rf " +:+ dquote +:+ d +:+ dquote) w).2 = rm_rf d (disk w).

(** The path named by a command that is [rm -rf] followed by a path between
    double quotes. *)
Definition rm_target (cmd : string) : option string :=
  match strip_prefix ("rm -rf " +:+ dquote) cmd with
  | Some rest =>
      if bool_decide (conffile.last_char rest = Some (Ascii.ascii_of_nat 34))
      then Some (String.substring 0 (String.length rest - 1) rest)
      else None
  | None => None
  end.

(** An environment whose shell carries out such removals, and succeeds
    without any effect on every other command; buver.conf holds [conf] with
    the manifest [manifest]. *)
Definition env_shell (conf : pydict) (manifest : list string) : Env :=
  mkEnv (λ cmd w, match rm_target cmd with
                  | Some d => (0, rm_rf d (disk w))
                  | None => (0, disk w)
                  end)
        (λ _ d, d) (λ _ _, (Ret 0, conf, Some manifest))
        (λ _ _, true) "posix" (λ _, "[]") "/bu/logs/run.log".

(** A configuration that keeps two versions and protects a directory that
    lies in the versions area. *)
Definition conf_nested : pydict :=
  [("src_dir", CStr "/bu/versions/1"); ("num_versions", CStr "2"); ("type", CStr "tar");
   ("ver_dirs", CStr "['1', '2']"); ("nice", CStr "10");
   ("tar_cmd", CStr "tar cvf $tar_name *"); ("mailto", CStr "")].

(** An interpreter that evaluates the manifest of [conf_nested]. *)
Definition interp_nested : conffile.Interp :=
  conffile.mkInterp (λ p, p) (λ p, p)
    (λ t, if bool_decide (t = "['1', '2']") then Some ["1"; "2"] else None).

(** The worlds [w] and [w'] have the same directories, and the same files
    outside the directory [logs]. *)
Definition same_but_logs (logs : string) (w w' : World) : Prop :=
  dirs (disk w') = dirs (disk w) ∧
  ∀ p, child_name logs p = None → (p ∈ files (disk w') ↔ p ∈ files (disk w)).

(** * Properties *)

(** Builtins *)
Section Builtins.

Lemma parse_digits_of_uint d b :
  d ≠ Decimal.Nil ∨ b = true → parse_digits b (NilEmpty.string_of_uint d) = Some d.
Proof.
  revert b; induction d; intros b H; simpl;
    try (rewrite IHd by (destruct d; auto); reflexivity).
  destruct H as [H|H]; [congruence | subst; reflexivity].
Qed.

Lemma int_rstrip_of_uint d :
  int_rstrip (NilEmpty.string_of_uint d) = NilEmpty.string_of_uint d.
Proof.
  induction d; simpl; try reflexivity; rewrite IHd;
    destruct (NilEmpty.string_of_uint d); reflexivity.
Qed.

Lemma int_lstrip_of_uint d :
  int_lstrip (NilEmpty.string_of_uint d) = NilEmpty.string_of_uint d.
Proof. destruct d; reflexivity. Qed.

Lemma int_strip_of_uint d :
  int_rstrip (int_lstrip (NilEmpty.string_of_uint d)) = NilEmpty.string_of_uint d.
Proof. rewrite int_lstrip_of_uint. apply int_rstrip_of_uint. Qed.

Lemma py_int_of_uint d :
  d ≠ Decimal.Nil → py_int (NilEmpty.string_of_uint d) = Some (Z.of_uint d).
Proof.
  intros Hd. unfold py_int. rewrite int_strip_of_uint.
  pose proof (parse_digits_of_uint d false (or_introl Hd)) as Hp.
  destruct d; try congruence; simpl in *; rewrite Hp; reflexivity.
Qed.

Lemma py_int_neg_of_uint d :
  d ≠ Decimal.Nil →
  py_int (String "-" (NilEmpty.string_of_uint d)) = Some (- Z.of_uint d).
Proof.
  intros Hd. unfold py_int.
  change (int_lstrip (String "-" ?s)) with (String "-"%char s).
  assert (Hr : int_rstrip (String "-" (NilEmpty.string_of_uint d))
               = String "-" (NilEmpty.string_of_uint d)).
  { simpl. rewrite int_rstrip_of_uint. destruct d; try congruence; reflexivity. }
  rewrite Hr. rewrite (parse_digits_of_uint d false (or_introl Hd)). reflexivity.
Qed.

(** Printing an integer and reading it back gives the integer. *)
Lemma py_int_str (n : Z) : py_int (py_str n) = Some n.
Proof.
  unfold py_str. destruct n as [|p|p]; simpl.
  - reflexivity.
  - pose proof (Unsigned.to_uint_nonnil p) as Hn.
    replace (NilZero.string_of_uint (Pos.to_uint p))
      with (NilEmpty.string_of_uint (Pos.to_uint p))
      by (destruct (Pos.to_uint p); [congruence | reflexivity ..]).
    rewrite py_int_of_uint by assumption.
    unfold Z.of_uint. rewrite Unsigned.of_to. reflexivity.
  - pose proof (Unsigned.to_uint_nonnil p) as Hn.
    replace (NilZero.string_of_uint (Pos.to_uint p))
      with (NilEmpty.string_of_uint (Pos.to_uint p))
      by (destruct (Pos.to_uint p); [congruence | reflexivity ..]).
    rewrite py_int_neg_of_uint by assumption.
    unfold Z.of_uint. rewrite Unsigned.of_to. reflexivity.
Qed.

Lemma py_slice_from_neg {A} (k : Z) (l : list A) :
  0 < k → py_slice_from (- k) l = drop (length l - Z.to_nat k) l.
Proof.
  intros Hk. unfold py_slice_from.
  destruct (Z.ltb_spec (- k) 0); [|lia]. f_equal. lia.
Qed.

Lemma py_slice_from_neg_length {A} (k : Z) (l : list A) :
  0 < k → (Z.of_nat (length (py_slice_from (- k) l)) ≤ k)%Z.
Proof. intros Hk. rewrite py_slice_from_neg by done. rewrite length_drop. lia. Qed.

Lemma py_slice_from_subseteq {A} (i : Z) (l : list A) x :
  x ∈ py_slice_from i l → x ∈ l.
Proof. unfold py_slice_from. apply subseteq_drop. Qed.

End Builtins.

(** Running a method: equations *)
Section Run.
Context {S : Type}.
Implicit Types (s : S) (w : World).

Lemma prepend_nil {A} (x : outcome A * S * World * list event) : prepend [] x = x.
Proof. by destruct x as [[[??]?]?]. Qed.

Lemma prepend_prepend {A} t1 t2 (x : outcome A * S * World * list event) :
  prepend t1 (prepend t2 x) = prepend (t1 ++ t2) x.
Proof. destruct x as [[[??]?]?]. unfold prepend; simpl. by rewrite app_assoc. Qed.

Lemma bind_run {A B} (m : M S A) (f : A → M S B) s w :
  (m ≫= f) s w =
  match m s w with
  | (Ret a, s1, w1, t1) => prepend t1 (f a s1 w1)
  | (Raise e, s1, w1, t1) => (Raise e, s1, w1, t1)
  end.
Proof.
  unfold mbind, M_bind, bind. destruct (m s w) as [[[[a|e] s1] w1] t1]; [|done].
  by destruct (f a s1 w1) as [[[??]?]?].
Qed.

Lemma bind_ret {A B} (a : A) (f : A → M S B) s w : (ret a ≫= f) s w = f a s w.
Proof. rewrite bind_run. apply prepend_nil. Qed.
Lemma bind_raise {A B} e (f : A → M S B) s w :
  (raise e ≫= f) s w = (Raise e, s, w, []).
Proof. by rewrite bind_run. Qed.
Lemma bind_get_self {B} (f : S → M S B) s w : (get_self ≫= f) s w = f s s w.
Proof. rewrite bind_run. apply prepend_nil. Qed.
Lemma bind_set_self {B} g (f : unit → M S B) s w : (set_self g ≫= f) s w = f tt (g s) w.
Proof. rewrite bind_run. apply prepend_nil. Qed.
Lemma bind_get_world {B} (f : World → M S B) s w : (get_world ≫= f) s w = f w s w.
Proof. rewrite bind_run. apply prepend_nil. Qed.
Lemma bind_set_world {B} g (f : unit → M S B) s w : (set_world g ≫= f) s w = f tt s (g w).
Proof. rewrite bind_run. apply prepend_nil. Qed.
Lemma bind_emit {B} e (f : unit → M S B) s w :
  (emit e ≫= f) s w = prepend [e] (f tt s w).
Proof. by rewrite bind_run. Qed.
Lemma bind_message {B} x (f : unit → M S B) s w :
  (message x ≫= f) s w = prepend [Message x] (f tt s w).
Proof. apply bind_emit. Qed.
Lemma bind_attr_Some {A B} (a : A) (f : A → M S B) s w :
  (attr (Some a) ≫= f) s w = f a s w.
Proof. apply bind_ret. Qed.
Lemma bind_attr_None {A B} (f : A → M S B) s w :
  (attr None ≫= f) s w = (Raise AttributeError, s, w, []).
Proof. apply bind_raise. Qed.
Lemma bind_bind {A B C} (m : M S A) (f : A → M S B) (g : B → M S C) s w :
  ((m ≫= f) ≫= g) s w = (m ≫= λ a, f a ≫= g) s w.
Proof.
  rewrite !bind_run. destruct (m s w) as [[[[a|e] s1] w1] t1]; [|done].
  rewrite bind_run.
  destruct (f a s1 w1) as [[[[b|e] s2] w2] t2]; simpl; [|done].
  destruct (g b s2 w2) as [[[??]?]?]. unfold prepend; simpl. by rewrite app_assoc.
Qed.
Lemma prepend_pair {A} t (r : outcome A) s w tr :
  prepend t (r, s, w, tr) = (r, s, w, t ++ tr).
Proof. done. Qed.
Lemma run_ret {A} (a : A) s w : ret a s w = (Ret a, s, w, []).
Proof. done. Qed.
Lemma run_raise {A} e s w : raise (A:=A) e s w = (Raise e, s, w, []).
Proof. done. Qed.
Lemma run_message x s w : message x s w = (Ret tt, s, w, [Message x]).
Proof. done. Qed.
Lemma run_set_self g s w : set_self g s w = (Ret tt, g s, w, []).
Proof. done. Qed.
End Run.

Create Rewrite HintDb run.
Hint Rewrite @bind_ret @bind_raise @bind_get_self @bind_set_self @bind_get_world
  @bind_set_world @bind_emit @bind_message @bind_attr_Some @bind_attr_None @bind_bind
  @prepend_pair @prepend_nil @prepend_prepend @run_ret @run_raise @run_message
  @run_set_self @app_nil_r : run.
Hint Rewrite <- @app_assoc : run.

Ltac run := repeat (autorewrite with run; simpl).

Lemma count_loop {S A} (P : A → Prop) `{∀ x, Decision (P x)} (msg : A → string)
    (l : list A) (c : Z) (s : S) (w : World) :
  for_each l (λ c x, if bool_decide (P x) then message (msg x);; ret (c + 1) else ret c) c s w
  = (Ret (c + Z.of_nat (length (filter P l))), s, w,
     Message ∘ msg <$> filter P l).
Proof.
  revert c. induction l as [|x l IH]; intros c; simpl.
  - run. rewrite Z.add_0_r. reflexivity.
  - rewrite bind_run, filter_cons.
    destruct (decide (P x)) as [Hx|Hx].
    + rewrite bool_decide_eq_true_2 by done. run. rewrite IH.
      simpl. rewrite Nat2Z.inj_succ, <- Z.add_1_l, Z.add_assoc. reflexivity.
    + rewrite bool_decide_eq_false_2 by done. run. rewrite IH. reflexivity.
Qed.

Lemma sanify_eq num_versions logical_versions v w :
  sanify num_versions logical_versions v w =
  if negb (pview v) then
    (Ret 1, v, w, [Message ("No physical view for <" +:+ verdir v +:+ "> was found.")])
  else
    let unlisted := filter (λ x, x ∉ logical_versions) (dirlist v) in
    let missing := filter (λ x, x ∉ dirlist v) logical_versions in
    match unlisted, missing with
    | [], [] =>
        let kept := window num_versions logical_versions in
        match last logical_versions with
        | None => settle (kept ++ ["1"]) "1" v w
        | Some latest =>
            match py_int latest with
            | None => (Raise ValueError, set_keepers kept v, w, [])
            | Some n => settle (kept ++ [py_str (n + 1)]) (py_str (n + 1)) v w
            end
        end
    | _, _ =>
        (Ret 2, v, w,
         (Message ∘ on_disk_unlisted <$> unlisted) ++ (Message ∘ listed_missing <$> missing)
         ++ [Message "mismatched physical vs. logical versions ..."])
    end.
Proof.
  unfold sanify. run.
  destruct (pview v) eqn:Hp; run; [|reflexivity].
  rewrite bind_run, (count_loop (λ x, x ∉ logical_versions) on_disk_unlisted).
  rewrite bind_run, (count_loop (λ x, x ∉ dirlist v) listed_missing). simpl.
  destruct (filter (λ x, x ∉ logical_versions) (dirlist v)) eqn:Hf1; run;
    [|reflexivity].
  destruct (filter (λ x, x ∉ dirlist v) logical_versions) eqn:Hf2; run;
    [|reflexivity].
  set (kept := window num_versions logical_versions).
  assert (Hkept : ∀ (k : unit → M C_versions Z),
    ((if 0 <? num_versions - 1
      then set_self (set_keepers (py_slice_from (- (num_versions - 1)) logical_versions))
      else set_self (set_keepers [])) ≫= k) v w = k tt (set_keepers kept v) w).
  { intros k. unfold kept, window. destruct (0 <? num_versions - 1); by run. }
  rewrite Hkept. clear Hkept. unfold py_last, settle, keepers_append.
  destruct logical_versions as [|x l]; run.
  - rewrite last_snoc. run.
    destruct (os_path_isdir w _); by run.
  - destruct (last (x :: l)) as [latest|] eqn:Hl.
    2:{ apply last_None in Hl. discriminate. }
    destruct (py_int latest) as [n|]; run; [|reflexivity].
    rewrite last_snoc. run.
    destruct (os_path_isdir w _); by run.
Qed.

(** Strings and paths *)
Lemma append_nil_l s : "" +:+ s = s.
Proof. reflexivity. Qed.
Lemma append_cons a s t : String a s +:+ t = String a (s +:+ t).
Proof. reflexivity. Qed.
Lemma append_nil_r s : s +:+ "" = s.
Proof. induction s as [|a s IH]; [done|]. by rewrite append_cons, IH. Qed.
Lemma append_assoc s t u : (s +:+ t) +:+ u = s +:+ t +:+ u.
Proof. induction s as [|a s IH]; [done|]. by rewrite !append_cons, IH. Qed.

Lemma strip_prefix_app p s : strip_prefix p (p +:+ s) = Some s.
Proof.
  induction p as [|a p IH]; [done|]. rewrite append_cons. simpl.
  by rewrite Ascii.eqb_refl.
Qed.

Lemma strip_prefix_Some p s r : strip_prefix p s = Some r → s = p +:+ r.
Proof.
  revert s; induction p as [|a p IH]; intros s; simpl.
  - rewrite append_nil_l. congruence.
  - destruct s as [|b s]; [done|].
    destruct (Ascii.eqb_spec a b); [|done]. intros H. subst.
    rewrite append_cons. f_equal. by apply IH.
Qed.

Lemma is_name_no_slash n : is_name n = true → starts_with_slash n = false.
Proof.
  unfold is_name. destruct n as [|c n]; simpl; [done|].
  rewrite negb_true_iff, orb_false_iff. intros [Hc _].
  destruct (Ascii.eqb_spec c "/"); [done|].
  destruct c as [[] [] [] [] [] [] [] []]; done.
Qed.

Lemma join_name d n :
  starts_with_slash n = false → os_path_join d n = os_path_join d "" +:+ n.
Proof.
  intros Hn. unfold os_path_join. rewrite Hn. simpl.
  destruct (bool_decide (d = "") || ends_with_slash d).
  - by rewrite append_nil_r.
  - by rewrite <- append_assoc.
Qed.

Lemma child_name_join d n : is_name n = true → child_name d (os_path_join d n) = Some n.
Proof.
  intros Hn. unfold child_name.
  rewrite (join_name d n) by by apply is_name_no_slash.
  by rewrite strip_prefix_app, Hn.
Qed.

Lemma child_name_Some d p n : child_name d p = Some n → p = os_path_join d n ∧ is_name n = true.
Proof.
  unfold child_name. destruct (strip_prefix _ p) as [r|] eqn:Hr; [|done].
  destruct (is_name r) eqn:Hn; [|done]. intros [= <-]. split; [|done].
  apply strip_prefix_Some in Hr. rewrite Hr. symmetry. apply join_name.
  by apply is_name_no_slash.
Qed.

Lemma starts_with_slash_app s t :
  starts_with_slash s = true → starts_with_slash (s +:+ t) = true.
Proof. destruct s as [|c s]; [done|]. by rewrite append_cons. Qed.

Lemma join_absolute d n :
  starts_with_slash d = true → starts_with_slash (os_path_join d n) = true.
Proof.
  intros Hd. unfold os_path_join. destruct (starts_with_slash n) eqn:Hn; [done|].
  destruct (_ || _); by apply starts_with_slash_app.
Qed.

Lemma abspath_absolute w p :
  starts_with_slash (cwd w) = true → starts_with_slash (abspath w p) = true.
Proof.
  intros Hw. unfold abspath. destruct (starts_with_slash p) eqn:Hp; [done|].
  by apply join_absolute.
Qed.

Lemma abspath_of_absolute w p : starts_with_slash p = true → abspath w p = p.
Proof. intros Hp. unfold abspath. by rewrite Hp. Qed.

(** The ledger is built from the disk *)
Lemma init_eq tgt_path w :
  cversions.init tgt_path w =
  let d := abspath w tgt_path in
  if os_path_isdir w d then
    cversions.mk d true false false
      (filter (λ f, os_path_isdir w (os_path_join d f) = true ∧ ¬ (f = "." ∨ f = ".."))
              (os_listdir w d)) None None
  else cversions.mk d false false false [] None None.
Proof.
  unfold cversions.init, load_disk_versions. run.
  destruct (os_path_isdir w (abspath w tgt_path)); by run.
Qed.

Lemma init_fresh tgt_path w :
  let v := cversions.init tgt_path w in
  sane v = false ∧ pruned v = false ∧ verdir v = abspath w tgt_path.
Proof. rewrite init_eq. simpl. by destruct (os_path_isdir w _). Qed.

(** A directory of the versions folder is in the physical view. *)
Lemma isdir_in_dirlist tgt_path w name :
  starts_with_slash (cwd w) = true →
  pview (cversions.init tgt_path w) = true →
  is_name name = true → name ≠ "." → name ≠ ".." →
  os_path_isdir w (os_path_join (verdir (cversions.init tgt_path w)) name) = true →
  name ∈ dirlist (cversions.init tgt_path w).
Proof.
  intros Hw. rewrite init_eq. simpl.
  pose proof (abspath_absolute w tgt_path Hw) as Habs.
  set (d := abspath w tgt_path) in *.
  destruct (os_path_isdir w d) eqn:Hd; simpl; [|done].
  intros _ Hn H1 H2 Hdir. apply list_elem_of_filter. split; [split; [done|tauto]|].
  unfold os_listdir. rewrite (abspath_of_absolute w d Habs).
  apply list_elem_of_omap. exists (os_path_join d name). split.
  - unfold os_path_isdir in Hdir. apply bool_decide_eq_true in Hdir.
    rewrite abspath_of_absolute in Hdir by by apply join_absolute.
    apply elem_of_app. by left.
  - by apply child_name_join.
Qed.

Lemma commands_run_commands env cmds w : commands (run_commands env cmds w).2 = cmds.
Proof.
  revert w. induction cmds as [|c r IH]; intros w; simpl; [done|].
  specialize (IH (with_disk (λ _, (shell env c w).2) w)).
  destruct (run_commands env r _) as [w2 tr]. simpl in *. unfold commands in *. simpl.
  by rewrite IH.
Qed.

Lemma run_os_system {S} env cmd (s : S) w :
  os_system env cmd s w =
  (Ret (shell env cmd w).1, s, with_disk (λ _, (shell env cmd w).2) w,
   [OsSystem cmd (shell env cmd w).1]).
Proof. unfold os_system. run. destruct (shell env cmd w). by run. Qed.

Lemma prune_loop env v ks l w :
  keepers v = Some ks →
  for_each l (λ _ version,
      self ← get_self;
      keepers ← attr (keepers self);
      if bool_decide (version ∉ keepers) then
        let command := rm_command self version in
        message command;;
        os_system env command;;
        ret tt
      else ret tt) tt v w
  = (Ret tt, v, (run_commands env (rm_command v <$> filter (λ x, x ∉ ks) l) w).1,
     (run_commands env (rm_command v <$> filter (λ x, x ∉ ks) l) w).2).
Proof.
  intros Hk. revert w. induction l as [|x l IH]; intros w; simpl; [done|].
  run. rewrite Hk. run. rewrite filter_cons.
  destruct (decide (x ∉ ks)) as [Hx|Hx].
  - rewrite bool_decide_eq_true_2 by done. run.
    rewrite bind_run, run_os_system. run. rewrite IH. simpl.
    by destruct (run_commands env _ _).
  - rewrite bool_decide_eq_false_2 by done. run. by rewrite IH.
Qed.

Lemma prune_eq env v w :
  prune env v w =
  if negb (sane v) then
    (Ret 1, v, w, [Message "The prune() method was invoked in an invalid state."])
  else if pruned v then
    (Ret 2, v, w, [Message "The prune() method was invoked multiple times..."])
  else
    match keepers v with
    | Some ks =>
        let cmds := rm_command v <$> filter (λ x, x ∉ ks) (dirlist v) in
        (Ret 0, set_pruned v, (run_commands env cmds w).1, (run_commands env cmds w).2)
    | None =>
        match dirlist v with
        | [] => (Ret 0, set_pruned v, w, [])
        | _ :: _ => (Raise AttributeError, v, w, [])
        end
    end.
Proof.
  unfold prune. run. destruct (sane v); run; [|done].
  destruct (pruned v); run; [done|].
  destruct (keepers v) as [ks|] eqn:Hk.
  - rewrite bind_run, (prune_loop env v ks) by done. by run.
  - destruct (dirlist v) as [|x l]; simpl; run; [done|]. rewrite Hk. by run.
Qed.

Lemma filter_nil_Forall {A} (P : A → Prop) `{∀ x, Decision (P x)} (l : list A) :
  filter P l = [] ↔ Forall (λ x, ¬ P x) l.
Proof.
  induction l as [|x l IH]; [by rewrite filter_nil|].
  rewrite filter_cons, Forall_cons. destruct (decide (P x)); [|tauto].
  split; [done|tauto].
Qed.

Lemma sanify_consistent n manifest v w :
  pview v = true →
  (∀ x, x ∈ dirlist v ↔ x ∈ manifest) →
  sanify n manifest v w =
  match last manifest with
  | None => settle (window n manifest ++ ["1"]) "1" v w
  | Some latest =>
      match py_int latest with
      | None => (Raise ValueError, set_keepers (window n manifest) v, w, [])
      | Some k => settle (window n manifest ++ [py_str (k + 1)]) (py_str (k + 1)) v w
      end
  end.
Proof.
  intros Hp Hc. rewrite sanify_eq, Hp. simpl.
  assert (filter (λ x, x ∉ manifest) (dirlist v) = []) as ->.
  { apply filter_nil_Forall, Forall_forall. intros x Hx Hn. by apply Hn, Hc. }
  assert (filter (λ x, x ∉ dirlist v) manifest = []) as ->.
  { apply filter_nil_Forall, Forall_forall. intros x Hx Hn. by apply Hn, Hc. }
  done.
Qed.

(** What a successful [sanify] has established. *)
Lemma sanify_success n manifest v w v' w' tr :
  sanify n manifest v w = (Ret 0, v', w', tr) →
  pview v = true ∧ (∀ x, x ∈ dirlist v ↔ x ∈ manifest) ∧ w' = w ∧ tr = [] ∧
  ∃ nextId,
    v' = cversions.mk (verdir v) true true (pruned v) (dirlist v)
           (Some (window n manifest ++ [nextId]))
           (Some (os_path_join (verdir v) nextId)) ∧
    os_path_isdir w (os_path_join (verdir v) nextId) = false ∧
    match last manifest with
    | None => nextId = "1"
    | Some latest => ∃ k, py_int latest = Some k ∧ nextId = py_str (k + 1)
    end.
Proof.
  rewrite sanify_eq. destruct (pview v) eqn:Hp; simpl; [|done].
  destruct (filter (λ x, x ∉ manifest) (dirlist v)) eqn:H1; [|done].
  destruct (filter (λ x, x ∉ dirlist v) manifest) eqn:H2; [|done].
  apply filter_nil_Forall in H1, H2. rewrite Forall_forall in H1, H2.
  assert (Hc : ∀ x, x ∈ dirlist v ↔ x ∈ manifest).
  { intros x. split; intros Hx.
    - destruct (decide (x ∈ manifest)); [done|]. by destruct (H1 x).
    - destruct (decide (x ∈ dirlist v)); [done|]. by destruct (H2 x). }
  unfold settle.
  destruct (last manifest) as [latest|] eqn:Hl.
  - destruct (py_int latest) as [k|] eqn:Hk; [|done].
    destruct (os_path_isdir w _) eqn:Hd; [done|].
    intros [= <- <- <-]. repeat split; try done; try apply Hc.
    exists (py_str (k + 1)). unfold set_sane, set_nextdir, set_keepers; simpl.
    rewrite Hp. repeat split; [done|]. by exists k.
  - destruct (os_path_isdir w _) eqn:Hd; [done|].
    intros [= <- <- <-]. repeat split; try done; try apply Hc.
    exists "1". unfold set_sane, set_nextdir, set_keepers; simpl.
    by rewrite Hp.
Qed.

Lemma window_length n manifest : 1 ≤ n → Z.of_nat (length (window n manifest)) ≤ n - 1.
Proof.
  intros Hn. unfold window. destruct (Z.ltb_spec 0 (n - 1)); simpl; [|lia].
  by apply py_slice_from_neg_length.
Qed.

Lemma window_subseteq n manifest x : x ∈ window n manifest → x ∈ manifest.
Proof.
  unfold window. destruct (0 <? n - 1); [apply py_slice_from_subseteq|].
  by intros ?%elem_of_nil.
Qed.

(** C1. When the physical view and the manifest differ, [sanify] returns
    2 after reporting every version that is on disk but unlisted and every
    version that is listed but missing on disk; the ledger and the world are
    left as they were, so the ledger is not marked sane, and a later
    [prune] on it returns 1 after its error message, without running any
    command. *)
Theorem inconsistency_is_reported_and_blocks_prune
    (env : Env) (v : C_versions) (w : World) (num_versions : Z)
    (logical_versions : list string) :
  pview v = true →
  sane v = false →
  (∃ x, x ∈ dirlist v ∧ x ∉ logical_versions ∨ x ∈ logical_versions ∧ x ∉ dirlist v) →
  let unlisted := filter (λ x, x ∉ logical_versions) (dirlist v) in
  let missing := filter (λ x, x ∉ dirlist v) logical_versions in
  sanify num_versions logical_versions v w =
    (Ret 2, v, w,
     (Message ∘ on_disk_unlisted <$> unlisted) ++ (Message ∘ listed_missing <$> missing)
     ++ [Message "mismatched physical vs. logical versions ..."])
  ∧ (∀ x, x ∈ unlisted ↔ x ∈ dirlist v ∧ x ∉ logical_versions)
  ∧ (∀ x, x ∈ missing ↔ x ∈ logical_versions ∧ x ∉ dirlist v)
  ∧ ∀ w', prune env v w' =
          (Ret 1, v, w', [Message "The prune() method was invoked in an invalid state."]).
Proof.
  intros Hp Hs [x Hx] unlisted missing. split; [|split; [|split]].
  - rewrite sanify_eq, Hp. simpl. fold unlisted missing.
    destruct unlisted as [|u us] eqn:Hu; [|done].
    destruct missing as [|m ms] eqn:Hm; [|done].
    exfalso. apply filter_nil_Forall in Hu, Hm. rewrite Forall_forall in Hu, Hm.
    destruct Hx as [[H1 H2]|[H1 H2]]; [by apply (Hu x)|by apply (Hm x)].
  - intros y. unfold unlisted. rewrite list_elem_of_filter. tauto.
  - intros y. unfold missing. rewrite list_elem_of_filter. tauto.
  - intros w'. by rewrite prune_eq, Hs.
Qed.

Lemma inconsistency_is_reported_and_blocks_prune_witness :
  sanify 3 ["1"; "3"] (ledger_of world_C) world_C =
    (Ret 2, ledger_of world_C, world_C,
     [Message "Found <2> on disk, but not in config file";
      Message "Found <3> in config file, but not on disk";
      Message "mismatched physical vs. logical versions ..."])
  ∧ prune env_quiet (ledger_of world_C) world_C =
    (Ret 1, ledger_of world_C, world_C,
     [Message "The prune() method was invoked in an invalid state."]).
Proof.
  assert (H : ∃ x, x ∈ dirlist (ledger_of world_C) ∧ x ∉ ["1"; "3"]
                  ∨ x ∈ ["1"; "3"] ∧ x ∉ dirlist (ledger_of world_C)).
  { exists "2". left. split; apply (bool_decide_unpack _); vm_compute; exact I. }
  destruct (inconsistency_is_reported_and_blocks_prune env_quiet (ledger_of world_C)
              world_C 3 ["1"; "3"] eq_refl eq_refl H) as (H1 & _ & _ & H2).
  split; [exact H1 | exact (H2 world_C)].
Defined.

Lemma new_ver_dirs_sane v w ks :
  sane v = true → keepers v = Some ks → new_ver_dirs v w = (Ret ks, v, w, []).
Proof. intros Hs Hk. unfold new_ver_dirs. run. rewrite Hs, Hk. by run. Qed.

Lemma new_version_sane v w d :
  sane v = true → nextdir v = Some d → new_version v w = (Ret d, v, w, []).
Proof. intros Hs Hk. unfold new_version. run. rewrite Hs, Hk. by run. Qed.

(** C2. After a successful [sanify] with a retention count between 1 and
    10, [new_ver_dirs] returns the retention window, which is the last
    [num_versions - 1] entries of the manifest, followed by the next
    identifier, which is the one [new_version] names and the increment of
    the latest manifest entry (["1"] for an empty manifest). So it returns
    at most [num_versions] identifiers, and every one of them other than the
    next identifier is in the manifest. *)
Theorem retained_ids_are_bounded_and_listed
    (v : C_versions) (w : World) (num_versions : Z) (manifest : list string)
    (v' : C_versions) (w' : World) (tr : list event) :
  1 ≤ num_versions ≤ 10 →
  sanify num_versions manifest v w = (Ret 0, v', w', tr) →
  ∃ retained kept nextId,
    new_ver_dirs v' w' = (Ret retained, v', w', []) ∧
    new_version v' w' = (Ret (os_path_join (verdir v) nextId), v', w', []) ∧
    match last manifest with
    | Some latest => ∃ k, py_int latest = Some k ∧ nextId = py_str (k + 1)
    | None => nextId = "1"
    end ∧
    retained = kept ++ [nextId] ∧
    kept = drop (length manifest - Z.to_nat (num_versions - 1)) manifest ∧
    Z.of_nat (length retained) ≤ num_versions ∧
    (∀ x, x ∈ kept → x ∈ manifest) ∧
    (∀ x, x ∈ retained → x ≠ nextId → x ∈ manifest).
Proof.
  intros Hn (Hp & Hc & -> & -> & nextId & -> & Hd & Hnext)%sanify_success.
  exists (window num_versions manifest ++ [nextId]), (window num_versions manifest), nextId.
  split; [by apply new_ver_dirs_sane|]. split; [by apply new_version_sane|].
  split; [exact Hnext|]. split; [done|]. split; [|split; [|split]].
  - unfold window. destruct (Z.ltb_spec 0 (num_versions - 1)) as [Hk|Hk].
    + by apply py_slice_from_neg.
    + replace (Z.to_nat (num_versions - 1)) with 0%nat by lia.
      rewrite Nat.sub_0_r. by rewrite drop_all.
  - rewrite length_app. simpl.
    pose proof (window_length num_versions manifest). lia.
  - intros x. apply window_subseteq.
  - intros x [Hx|Hx%list_elem_of_singleton]%elem_of_app Hne; [|done].
    by apply window_subseteq in Hx.
Qed.

Lemma retained_ids_are_bounded_and_listed_witness :
  let v := ledger_of world_B in
  let v' := (sanify 3 ["1"; "2"; "3"; "4"] v world_B).1.1.2 in
  ∃ retained kept nextId,
    new_ver_dirs v' world_B = (Ret retained, v', world_B, []) ∧
    new_version v' world_B = (Ret (os_path_join "/bu/versions" nextId), v', world_B, []) ∧
    (∃ k, py_int "4" = Some k ∧ nextId = py_str (k + 1)) ∧
    retained = kept ++ [nextId] ∧
    kept = ["3"; "4"] ∧
    Z.of_nat (length retained) ≤ 3 ∧
    (∀ x, x ∈ kept → x ∈ ["1"; "2"; "3"; "4"]) ∧
    (∀ x, x ∈ retained → x ≠ nextId → x ∈ ["1"; "2"; "3"; "4"]).
Proof.
  intros v v'.
  apply (retained_ids_are_bounded_and_listed v world_B 3 ["1"; "2"; "3"; "4"]
           v' world_B []); [lia | vm_compute; reflexivity].
Defined.

(** C4. After a successful [sanify] the next identifier, which is the last
    of the retained identifiers and names the next version directory, is
    [str(int(latest) + 1)] for the latest entry of a non-empty manifest
    (so it reads back as that integer plus one), and ["1"] for an empty
    manifest. In particular, on an existing versions folder without
    directories and with an empty manifest, [sanify] succeeds, the
    retained identifiers are [["1"]] and the retention window is empty. *)
Theorem next_id_is_the_increment_of_the_latest :
  (∀ (v : C_versions) (w : World) (num_versions : Z) (manifest : list string)
     (v' : C_versions) (w' : World) (tr : list event),
     sanify num_versions manifest v w = (Ret 0, v', w', tr) →
     ∃ nextId,
       new_ver_dirs v' w' = (Ret (window num_versions manifest ++ [nextId]), v', w', []) ∧
       new_version v' w' = (Ret (os_path_join (verdir v) nextId), v', w', []) ∧
       match last manifest with
       | Some latest =>
           ∃ k, py_int latest = Some k ∧ nextId = py_str (k + 1)
                ∧ py_int nextId = Some (k + 1)
       | None => nextId = "1"
       end)
  ∧ (∀ (tgt_path : string) (w : World) (num_versions : Z),
     starts_with_slash (cwd w) = true →
     pview (cversions.init tgt_path w) = true →
     dirlist (cversions.init tgt_path w) = [] →
     ∃ v',
       sanify num_versions [] (cversions.init tgt_path w) w = (Ret 0, v', w, []) ∧
       new_ver_dirs v' w = (Ret ["1"], v', w, []) ∧
       window num_versions [] = [] ∧
       new_version v' w = (Ret (os_path_join (abspath w tgt_path) "1"), v', w, [])).
Proof.
  split.
  - intros v w n manifest v' w' tr
      (Hp & Hc & -> & -> & nextId & -> & Hd & Hnext)%sanify_success.
    exists nextId. split; [by apply new_ver_dirs_sane|].
    split; [by apply new_version_sane|].
    destruct (last manifest) as [latest|]; [|done].
    destruct Hnext as (k & Hk & ->). exists k. by rewrite py_int_str.
  - intros tgt_path w n Hw Hp Hl.
    pose proof (init_fresh tgt_path w) as (Hs & Hpr & Hv).
    assert (Hd : os_path_isdir w (os_path_join (verdir (cversions.init tgt_path w)) "1")
                 = false).
    { destruct (os_path_isdir w _) eqn:Hd; [|done].
      apply isdir_in_dirlist in Hd; try done. rewrite Hl in Hd.
      by apply elem_of_nil in Hd. }
    assert (Hwin : window n [] = []).
    { unfold window, py_slice_from. destruct (0 <? n - 1); [apply drop_nil|done]. }
    rewrite sanify_consistent; [|assumption|intros x; rewrite Hl; tauto]. simpl.
    unfold settle. rewrite Hd, Hwin. simpl.
    eexists. split; [done|]. split; [by apply new_ver_dirs_sane|].
    split; [done|]. rewrite <- Hv. by apply new_version_sane.
Qed.

Lemma next_id_is_the_increment_of_the_latest_witness :
  (∃ nextId,
     new_ver_dirs ledger_D world_D = (Ret (window 1 ["7"] ++ [nextId]), ledger_D, world_D, [])
     ∧ new_version ledger_D world_D
       = (Ret (os_path_join (verdir (ledger_of world_D)) nextId), ledger_D, world_D, [])
     ∧ ∃ k, py_int "7" = Some k ∧ nextId = py_str (k + 1) ∧ py_int nextId = Some (k + 1))
  ∧ ∃ v', sanify 10 [] (ledger_of world_A) world_A = (Ret 0, v', world_A, [])
          ∧ new_ver_dirs v' world_A = (Ret ["1"], v', world_A, [])
          ∧ window 10 [] = []
          ∧ new_version v' world_A
            = (Ret (os_path_join (abspath world_A "/bu/versions") "1"), v', world_A, []).
Proof.
  destruct next_id_is_the_increment_of_the_latest as [H1 H2]. split.
  - apply (H1 (ledger_of world_D) world_D 1 ["7"] ledger_D world_D []).
    vm_compute; reflexivity.
  - apply (H2 "/bu/versions" world_A 10); vm_compute; reflexivity.
Defined.

(** C10 as stated fails for a manifest that disagrees with the disk. With
    the versions 1 and 2 on disk and the manifest [monday], whose last
    entry [int()] rejects, [sanify] never parses that entry: it reports the
    mismatch and returns the code 2, and raises nothing. *)
Lemma mismatch_is_reported_before_the_parse :
  last ["monday"] = Some "monday" ∧
  py_int "monday" = None ∧
  sanify 3 ["monday"] (ledger_of world_C) world_C
  = (Ret 2, ledger_of world_C, world_C,
     [Message "Found <1> on disk, but not in config file";
      Message "Found <2> on disk, but not in config file";
      Message "Found <monday> in config file, but not on disk";
      Message "mismatched physical vs. logical versions ..."]).
Proof. repeat split; vm_compute; reflexivity. Qed.

(** C10, amended. On a ledger whose physical view matches a non-empty
    manifest, [sanify] gets as far as [int(logical_versions[-1])]: when
    [int()] rejects the latest entry it raises [ValueError] instead of
    returning an error code. The retention window has been stored by then;
    the ledger is not marked sane and nothing was printed or changed on
    disk. *)
Theorem unparsable_latest_entry_raises
    (v : C_versions) (w : World) (num_versions : Z) (manifest : list string)
    (latest : string) :
  pview v = true →
  (∀ x, x ∈ dirlist v ↔ x ∈ manifest) →
  last manifest = Some latest →
  py_int latest = None →
  sanify num_versions manifest v w
  = (Raise ValueError, set_keepers (window num_versions manifest) v, w, [])
  ∧ sane (set_keepers (window num_versions manifest) v) = sane v.
Proof.
  intros Hp Hc Hl Hi. split; [|done]. by rewrite sanify_consistent, Hl, Hi.
Qed.

Lemma unparsable_latest_entry_raises_witness :
  sanify 3 ["monday"] (ledger_of world_E) world_E
  = (Raise ValueError, set_keepers (window 3 ["monday"]) (ledger_of world_E), world_E, [])
  ∧ sane (set_keepers (window 3 ["monday"]) (ledger_of world_E)) = sane (ledger_of world_E).
Proof.
  apply (unparsable_latest_entry_raises (ledger_of world_E) world_E 3 ["monday"] "monday");
    reflexivity.
Defined.

Lemma rm_rf_twice a b k p :
  (p ∈ dirs (rm_rf b (rm_rf a k)) ↔ p ∈ dirs k ∧ under a p = false ∧ under b p = false) ∧
  (p ∈ files (rm_rf b (rm_rf a k)) ↔ p ∈ files k ∧ under a p = false ∧ under b p = false).
Proof. unfold rm_rf. simpl. rewrite !list_elem_of_filter. tauto. Qed.

(** C3. Scenario B: with versions 1 to 4 on disk (in whatever order the
    directory is listed), the manifest [1, 2, 3, 4] and three versions to
    keep, [sanify] succeeds with the retention window [3, 4], the next
    identifier 5 and the retained identifiers [3, 4, 5]; the [prune] that
    follows returns 0 and hands the shell exactly two commands, [rm -rf]
    on the quoted paths of the directories 1 and 2 of the versions folder.
    With a shell that carries these two commands out, the disk afterwards
    is the disk before without these two directories and what was below
    them: nothing else is removed and nothing is added. *)
Theorem scenario_B_keeps_3_4_5_and_removes_1_2
    (env : Env) (tgt_path : string) (w : World) :
  starts_with_slash (cwd w) = true →
  pview (cversions.init tgt_path w) = true →
  dirlist (cversions.init tgt_path w) ≡ₚ ["1"; "2"; "3"; "4"] →
  let v := cversions.init tgt_path w in
  let d1 := os_path_join (abspath w tgt_path) "1" in
  let d2 := os_path_join (abspath w tgt_path) "2" in
  ∃ v1,
    sanify 3 ["1"; "2"; "3"; "4"] v w = (Ret 0, v1, w, []) ∧
    window 3 ["1"; "2"; "3"; "4"] = ["3"; "4"] ∧
    new_ver_dirs v1 w = (Ret ["3"; "4"; "5"], v1, w, []) ∧
    new_version v1 w = (Ret (os_path_join (abspath w tgt_path) "5"), v1, w, []) ∧
    ∃ w2 tr,
      prune env v1 w = (Ret 0, set_pruned v1, w2, tr) ∧
      commands tr ≡ₚ ["rm -rf " +:+ dquote +:+ d1 +:+ dquote;
                      "rm -rf " +:+ dquote +:+ d2 +:+ dquote] ∧
      (removes env d1 → removes env d2 →
       ∀ p,
         (p ∈ dirs (disk w2) ↔ p ∈ dirs (disk w) ∧ under d1 p = false ∧ under d2 p = false) ∧
         (p ∈ files (disk w2) ↔ p ∈ files (disk w) ∧ under d1 p = false ∧ under d2 p = false)).
Proof.
  intros Hw Hp Hperm v d1 d2.
  pose proof (init_fresh tgt_path w) as (Hs & Hpr & Hv). fold v in Hs, Hpr, Hv, Hp, Hperm.
  assert (Hd : os_path_isdir w (os_path_join (verdir v) "5") = false).
  { destruct (os_path_isdir w _) eqn:Hd; [|done].
    apply isdir_in_dirlist in Hd; try done. fold v in Hd. rewrite Hperm in Hd.
    repeat (apply elem_of_cons in Hd as [Hd|Hd]; [done|]). by apply elem_of_nil in Hd. }
  rewrite sanify_consistent; [|done|by intros x; rewrite Hperm].
  change (last ["1"; "2"; "3"; "4"]) with (Some "4"). cbv beta iota.
  change (py_int "4") with (Some 4). cbv beta iota.
  change (py_str (4 + 1)) with "5".
  change (window 3 ["1"; "2"; "3"; "4"]) with ["3"; "4"].
  unfold settle. rewrite Hd. simpl.
  eexists. split; [done|]. split; [done|].
  split; [by apply new_ver_dirs_sane|].
  split; [rewrite <- Hv; by apply new_version_sane|].
  rewrite prune_eq. simpl. rewrite Hpr. simpl.
  assert (Hold : filter (λ x, x ∉ ["3"; "4"; "5"]) (dirlist v) ≡ₚ ["1"; "2"]).
  { change ["1"; "2"] with (filter (λ x, x ∉ ["3"; "4"; "5"]) ["1"; "2"; "3"; "4"]).
    by apply filter_Permutation. }
  eexists _, _. split; [done|].
  symmetry in Hold. apply Permutation_length_2_inv in Hold.
  unfold d1, d2. rewrite <- Hv.
  destruct Hold as [-> | ->]; simpl.
  - split; [done|]. intros H1 H2 p. unfold rm_command. simpl.
    rewrite H2. unfold with_disk at 1. simpl. rewrite H1. apply rm_rf_twice.
  - split; [apply Permutation_swap|]. intros H1 H2 p. unfold rm_command. simpl.
    rewrite H1. unfold with_disk at 1. simpl. rewrite H2.
    pose proof (rm_rf_twice (os_path_join (verdir v) "2") (os_path_join (verdir v) "1")
                  (disk w) p) as H. tauto.
Qed.

Lemma scenario_B_keeps_3_4_5_and_removes_1_2_witness :
  let env := env_shell [] [] in
  ∃ v1,
    sanify 3 ["1"; "2"; "3"; "4"] (ledger_of world_B) world_B = (Ret 0, v1, world_B, []) ∧
    window 3 ["1"; "2"; "3"; "4"] = ["3"; "4"] ∧
    new_ver_dirs v1 world_B = (Ret ["3"; "4"; "5"], v1, world_B, []) ∧
    new_version v1 world_B = (Ret "/bu/versions/5", v1, world_B, []) ∧
    ∃ w2 tr,
      prune env v1 world_B = (Ret 0, set_pruned v1, w2, tr) ∧
      commands tr ≡ₚ ["rm -rf " +:+ dquote +:+ "/bu/versions/1" +:+ dquote;
                      "rm -rf " +:+ dquote +:+ "/bu/versions/2" +:+ dquote] ∧
      ∀ p,
        (p ∈ dirs (disk w2) ↔
           p ∈ dirs (disk world_B) ∧ under "/bu/versions/1" p = false
           ∧ under "/bu/versions/2" p = false) ∧
        (p ∈ files (disk w2) ↔
           p ∈ files (disk world_B) ∧ under "/bu/versions/1" p = false
           ∧ under "/bu/versions/2" p = false).
Proof.
  intros env.
  destruct (scenario_B_keeps_3_4_5_and_removes_1_2 env "/bu/versions" world_B)
    as (v1 & H1 & H2 & H3 & H4 & w2 & tr & H5 & H6 & H7).
  - reflexivity.
  - vm_compute; reflexivity.
  - change (dirlist (cversions.init "/bu/versions" world_B)) with ["1"; "2"; "3"; "4"].
    reflexivity.
  - exists v1. do 4 (split; [assumption|]). exists w2, tr.
    split; [assumption|]. split; [assumption|].
    apply H7; intros w; reflexivity.
Defined.

(** C7 as the design document states it fails: here the only deletion of
    the run fails with status 256, and [prune] still returns 0. *)
Lemma failed_deletion_is_not_reported :
  sane ledger_D = true ∧
  prune env_failing ledger_D world_D
  = (Ret 0, set_pruned ledger_D, world_D,
     [Message (rm_command ledger_D "7"); OsSystem (rm_command ledger_D "7") 256]).
Proof. split; vm_compute; reflexivity. Qed.

(** C7, amended. On a validated ledger that was not pruned yet, [prune]
    hands the shell the removal command of every version on disk that is
    not retained, in the order of the physical view and whatever the exit
    statuses of the earlier commands are; then it marks the ledger pruned
    and returns 0, whatever these exit statuses are. *)
Theorem prune_attempts_every_deletion_and_returns_0
    (env : Env) (num_versions : Z) (manifest : list string)
    (v0 v : C_versions) (w0 w1 w : World) (t1 : list event) :
  sanify num_versions manifest v0 w0 = (Ret 0, v, w1, t1) →
  pruned v0 = false →
  ∃ retained w' tr,
    new_ver_dirs v w = (Ret retained, v, w, []) ∧
    prune env v w = (Ret 0, set_pruned v, w', tr) ∧
    commands tr = rm_command v <$> filter (λ x, x ∉ retained) (dirlist v).
Proof.
  intros (Hp & Hc & -> & -> & nextId & -> & Hd & Hnext)%sanify_success Hpr.
  eexists _, _, _. split; [by apply new_ver_dirs_sane|].
  rewrite prune_eq. simpl. rewrite Hpr. simpl. split; [done|].
  by rewrite commands_run_commands.
Qed.

Lemma prune_attempts_every_deletion_and_returns_0_witness :
  ∃ retained w' tr,
    new_ver_dirs ledger_D world_D = (Ret retained, ledger_D, world_D, []) ∧
    prune env_failing ledger_D world_D = (Ret 0, set_pruned ledger_D, w', tr) ∧
    commands tr = rm_command ledger_D <$> filter (λ x, x ∉ retained) (dirlist ledger_D).
Proof.
  apply (prune_attempts_every_deletion_and_returns_0 env_failing 1 ["7"]
           (ledger_of world_D) ledger_D world_D world_D world_D []);
    vm_compute; reflexivity.
Defined.

Lemma run_os_open_excl {S} path (s : S) w :
  os_open_excl path s w =
  if exists_on (disk w) (abspath w path) || negb (has_parent (disk w) (abspath w path))
  then (Ret None, s, w, [OsOpen path None])
  else (Ret (Some (fresh_fd w)), s,
        mkWorld (mkDisk (dirs (disk w)) (files (disk w) ++ [abspath w path]))
                (cwd w) (fresh_fd w :: fds w) (now w),
        [OsOpen path (Some (fresh_fd w))]).
Proof. unfold os_open_excl. run. destruct (_ || _); by run. Qed.

Lemma run_time_sleep {S} env secs (s : S) w :
  time_sleep env secs s w =
  (Ret tt, s, mkWorld (others env (now w) (disk w)) (cwd w) (fds w) (Nat.succ (now w)),
   [Sleep secs]).
Proof. unfold time_sleep. by run. Qed.

Lemma exists_on_file d p : p ∈ files d → exists_on d p = true.
Proof.
  intros H. unfold exists_on. rewrite (bool_decide_eq_true_2 (p ∈ files d)) by done.
  apply orb_true_r.
Qed.

(** While the marker stays there, every iteration fails, and the loop runs
    until [attempt] reaches [maxtries]. *)
Lemma wait_loop_held env s maxtries fuel attempt w :
  abspath w (sem_name s) ∈ files (disk w) →
  (∀ t d, abspath w (sem_name s) ∈ files d → abspath w (sem_name s) ∈ files (others env t d)) →
  (Z.to_nat (maxtries - attempt) ≤ fuel)%nat →
  ∃ w',
    wait_loop env fuel maxtries attempt 0 s w
    = (Ret (Z.max attempt maxtries, 0), s, w',
       mjoin (replicate (Z.to_nat (maxtries - attempt)) (failed_try s)))
    ∧ now w' = (now w + Z.to_nat (maxtries - attempt))%nat.
Proof.
  intros Hin Hkeep. revert attempt w Hin Hkeep.
  induction fuel as [|fuel IH]; intros attempt w Hin Hkeep Hfuel.
  - assert (maxtries ≤ attempt) by lia.
    exists w. simpl. destruct (Z.ltb_spec attempt maxtries); [lia|].
    replace (Z.to_nat (maxtries - attempt)) with 0%nat by lia. simpl.
    rewrite Z.max_l by lia. split; [done|lia].
  - simpl. destruct (Z.ltb_spec attempt maxtries) as [Hlt|Hge]; simpl.
    + run. rewrite bind_run, run_os_open_excl, exists_on_file by done. simpl.
      rewrite bind_run, run_time_sleep. simpl.
      set (w1 := mkWorld _ _ _ _).
      destruct (IH (attempt + 1) w1) as (w' & Hrun & Hnow);
        [exact (Hkeep _ _ Hin) | exact Hkeep | lia |].
      exists w'. rewrite Hrun. simpl.
      replace (Z.to_nat (maxtries - attempt))
        with (Datatypes.S (Z.to_nat (maxtries - (attempt + 1)))) by lia.
      simpl. rewrite (Z.max_r attempt maxtries) by lia.
      rewrite (Z.max_r (attempt + 1) maxtries) by lia.
      split; [done|]. rewrite Hnow. simpl. lia.
    + exists w. replace (Z.to_nat (maxtries - attempt)) with 0%nat by lia. simpl.
      rewrite Z.max_l by lia. split; [done|lia].
Qed.

Lemma attempts_failed_tries s n :
  attempts (mjoin (replicate n (failed_try s))) = n.
Proof.
  unfold attempts. induction n as [|n IH]; [done|].
  change (mjoin (replicate (Datatypes.S n) (failed_try s)))
    with (OsOpen (sem_name s) None :: Sleep 1 :: mjoin (replicate n (failed_try s))).
  simpl. f_equal. exact IH.
Qed.

(** C8. On an existing directory whose marker file is there and is not
    removed by anyone, [wait(maxtries)] makes [maxtries - 1] attempts to
    create the marker (none for [maxtries] below 2), so at most [maxtries];
    every attempt fails and is followed by a sleep of one second; then
    [wait] returns [True], its failure value, with the semaphore object
    unchanged. With the default of 120 that is 119 attempts. *)
Theorem wait_times_out_while_the_marker_stays
    (env : Env) (s : C_semaphore) (w : World) (maxtries : Z) :
  os_path_isdir w (sem_path s) = true →
  abspath w (sem_name s) ∈ files (disk w) →
  (∀ t d, abspath w (sem_name s) ∈ files d → abspath w (sem_name s) ∈ files (others env t d)) →
  0 ≤ maxtries →
  ∃ w' tr,
    wait env maxtries s w = (Ret true, s, w', tr) ∧
    tr = mjoin (replicate (Z.to_nat (maxtries - 1)) (failed_try s)) ∧
    attempts tr = Z.to_nat (maxtries - 1) ∧
    Z.of_nat (attempts tr) ≤ maxtries ∧
    now w' = (now w + attempts tr)%nat.
Proof.
  intros Hdir Hin Hkeep Hmax.
  destruct (wait_loop_held env s maxtries (Z.to_nat (maxtries - 1)) 1 w Hin Hkeep)
    as (w' & Hrun & Hnow); [lia|].
  eexists w', _. split; [|split; [done|]].
  - unfold wait. run. rewrite Hdir. simpl. rewrite bind_run, Hrun. by run.
  - rewrite attempts_failed_tries. split; [done|]. split; [lia|done].
Qed.

Lemma wait_times_out_while_the_marker_stays_witness :
  ∃ w' tr,
    wait env_quiet 120 (csemaphore.init "/bu" "buver.lock" world_locked) world_locked
    = (Ret true, csemaphore.init "/bu" "buver.lock" world_locked, w', tr) ∧
    tr = mjoin (replicate 119 (failed_try (csemaphore.init "/bu" "buver.lock" world_locked))) ∧
    attempts tr = 119%nat ∧
    Z.of_nat (attempts tr) ≤ 120 ∧
    now w' = (now world_locked + attempts tr)%nat.
Proof.
  apply (wait_times_out_while_the_marker_stays env_quiet
           (csemaphore.init "/bu" "buver.lock" world_locked) world_locked 120).
  - reflexivity.
  - apply (bool_decide_unpack _). vm_compute. exact I.
  - intros t d H. exact H.
  - lia.
Defined.

Lemma run_os_close {S} descriptor (s : S) w :
  os_close descriptor s w =
  if bool_decide (descriptor ∈ fds w)
  then (Ret true, s, mkWorld (disk w) (cwd w) (filter (λ x, x ≠ descriptor) (fds w)) (now w),
        [OsClose descriptor true])
  else (Ret false, s, w, [OsClose descriptor false]).
Proof. unfold os_close. run. destruct (bool_decide _); by run. Qed.

Lemma run_os_remove {S} path (s : S) w :
  os_remove path s w =
  if bool_decide (abspath w path ∈ files (disk w))
  then (Ret true, s,
        with_disk (λ d, mkDisk (dirs d) (filter (λ x, x ≠ abspath w path) (files d))) w,
        [OsRemove path true])
  else (Ret false, s, w, [OsRemove path false]).
Proof. unfold os_remove. run. destruct (bool_decide _); by run. Qed.

(** When the loop ends with the marker created, the descriptor is stored
    and open, and the marker is on disk. *)
Lemma wait_loop_acquired env maxtries fuel attempt s w a g s1 w1 tr :
  wait_loop env fuel maxtries attempt 0 s w = (Ret (a, g), s1, w1, tr) →
  g ≠ 0 →
  ∃ descriptor,
    s1 = csemaphore.mk (sem_name s) (sem_path s) (sem_locked s) (Some descriptor) ∧
    descriptor ∈ fds w1 ∧
    abspath w1 (sem_name s) ∈ files (disk w1) ∧
    tr ≠ [] ∧ last tr = Some (OsOpen (sem_name s) (Some descriptor)).
Proof.
  revert attempt w tr. induction fuel as [|fuel IH]; intros attempt w tr; simpl.
  - destruct (attempt <? maxtries); run; by intros [= <- <- <- <- <-].
  - destruct (attempt <? maxtries); run; [|by intros [= <- <- <- <- <-]].
    rewrite bind_run, run_os_open_excl.
    destruct (_ || _); simpl.
    + rewrite bind_run, run_time_sleep. simpl.
      destruct (wait_loop env fuel maxtries (attempt + 1) 0 s _)
        as [[[[[a' g']|e] s'] w'] t'] eqn:Hloop; simpl; [|done].
      intros [= <- <- <- <- <-] Hg.
      destruct (IH _ _ _ Hloop Hg) as (d & -> & Hfd & Hfile & Hne & Hlast).
      exists d. repeat split; try done.
      rewrite !last_cons. by rewrite Hlast.
    + run.
      assert (Hexit : ∀ s' w', wait_loop env fuel maxtries attempt 1 s' w'
                               = (Ret (attempt, 1), s', w', [])).
      { intros s' w'. by destruct fuel. }
      rewrite Hexit. simpl. intros [= <- <- <- <- <-] _.
      eexists. split; [done|]. split; [apply elem_of_cons; by left|].
      split; [|done]. simpl. apply elem_of_app. right. by apply list_elem_of_singleton.
Qed.

Lemma wait_acquired env maxtries s w s1 w1 tr :
  wait env maxtries s w = (Ret false, s1, w1, tr) →
  ∃ descriptor,
    s1 = csemaphore.mk (sem_name s) (sem_path s) true (Some descriptor) ∧
    descriptor ∈ fds w1 ∧
    abspath w1 (sem_name s) ∈ files (disk w1) ∧
    last tr = Some (OsOpen (sem_name s) (Some descriptor)).
Proof.
  unfold wait. run. destruct (os_path_isdir w (sem_path s)); run; [|done].
  rewrite bind_run.
  destruct (wait_loop env _ maxtries 1 0 s w) as [[[[[a g]|e] s'] w'] t'] eqn:Hloop;
    simpl; [|done].
  destruct (Z.eqb_spec g 0) as [->|Hg]; run; [done|].
  intros [= <- <- <-].
  destruct (wait_loop_acquired _ _ _ _ _ _ _ _ _ _ _ Hloop Hg)
    as (d & -> & Hfd & Hfile & Hne & Hlast).
  by exists d.
Qed.

(** C9. [signal] on a semaphore that is not held returns [True] (it was
    not held), changes nothing, performs no system call and does not raise.
    After a [wait] that acquired the semaphore, [signal] closes the
    descriptor, removes the marker and returns [False]; afterwards
    [got_sem] is [False], the marker file is not on disk, and a second
    [signal] again returns [True] without any system call. *)
Theorem signal_releases_once_and_is_idempotent :
  (∀ (s : C_semaphore) (w : World),
     sem_locked s = false → signal s w = (Ret true, s, w, []))
  ∧ (∀ (env : Env) (maxtries : Z) (s s1 : C_semaphore) (w w1 : World) (t1 : list event),
     wait env maxtries s w = (Ret false, s1, w1, t1) →
     ∃ descriptor s2 w2,
       got_sem s1 w1 = (Ret true, s1, w1, []) ∧
       signal s1 w1
       = (Ret false, s2, w2, [OsClose descriptor true; OsRemove (sem_name s1) true]) ∧
       got_sem s2 w2 = (Ret false, s2, w2, []) ∧
       os_path_isfile w2 (sem_name s2) = false ∧
       signal s2 w2 = (Ret true, s2, w2, [])).
Proof.
  assert (Hidle : ∀ s w, sem_locked s = false → signal s w = (Ret true, s, w, [])).
  { intros s w Hs. unfold signal. run. rewrite Hs. by run. }
  split; [exact Hidle|].
  intros env maxtries s s1 w w1 t1 (d & -> & Hfd & Hfile & _)%wait_acquired.
  simpl in *. eexists d, _, _. split; [done|]. split.
  { unfold signal. run. rewrite bind_run, run_os_close.
    rewrite bool_decide_eq_true_2 by done. run.
    rewrite bind_run, run_os_remove. simpl.
    rewrite bool_decide_eq_true_2 by done. by run. }
  split; [done|]. split; [|by apply Hidle].
  unfold os_path_isfile. apply bool_decide_eq_false_2. simpl.
  intros [Hne _]%list_elem_of_filter. by apply Hne.
Qed.

Lemma signal_releases_once_and_is_idempotent_witness :
  signal (csemaphore.init "/bu" "buver.lock" world_A) world_A
  = (Ret true, csemaphore.init "/bu" "buver.lock" world_A, world_A, [])
  ∧ ∃ descriptor s2 w2,
      let s1 := csemaphore.mk "/bu/buver.lock" "/bu" true (Some 3) in
      let w1 := mkWorld (mkDisk (dirs (disk world_A)) ["/bu/buver.conf"; "/bu/buver.lock"])
                        "/" [3] 0 in
      got_sem s1 w1 = (Ret true, s1, w1, []) ∧
      signal s1 w1
      = (Ret false, s2, w2, [OsClose descriptor true; OsRemove (sem_name s1) true]) ∧
      got_sem s2 w2 = (Ret false, s2, w2, []) ∧
      os_path_isfile w2 (sem_name s2) = false ∧
      signal s2 w2 = (Ret true, s2, w2, []).
Proof.
  destruct signal_releases_once_and_is_idempotent as [H1 H2]. split.
  - apply H1. reflexivity.
  - apply (H2 env_quiet 120 (csemaphore.init "/bu" "buver.lock" world_A) _ world_A _
              [OsOpen "/bu/buver.lock" (Some 3)]).
    vm_compute. reflexivity.
Defined.

Section Avoids.
Context {S : Type} (E : event → bool).
Implicit Types (s : S) (w : World).

Lemma silent_nil : silent E [].
Proof. constructor. Qed.
Lemma silent_app t1 t2 : silent E t1 → silent E t2 → silent E (t1 ++ t2).
Proof. intros. by apply Forall_app. Qed.
Lemma silent_cons e t : E e = false → silent E t → silent E (e :: t).
Proof. intros. by constructor. Qed.

Lemma avoids_ret {A} (a : A) : avoids (S:=S) E (ret a).
Proof. intros s w. constructor. Qed.
Lemma avoids_raise {A} e : avoids (S:=S) (A:=A) E (raise e).
Proof. intros s w. constructor. Qed.
Lemma avoids_get_self : avoids (S:=S) E get_self.
Proof. intros s w. constructor. Qed.
Lemma avoids_set_self f : avoids (S:=S) E (set_self f).
Proof. intros s w. constructor. Qed.
Lemma avoids_get_world : avoids (S:=S) E get_world.
Proof. intros s w. constructor. Qed.
Lemma avoids_set_world f : avoids (S:=S) E (set_world f).
Proof. intros s w. constructor. Qed.
Lemma avoids_attr {A} (o : option A) : avoids (S:=S) E (attr o).
Proof. destruct o; [apply avoids_ret|apply avoids_raise]. Qed.
Lemma avoids_emit e : E e = false → avoids (S:=S) E (emit e).
Proof. intros He s w. by repeat constructor. Qed.
Lemma avoids_message x : E (Message x) = false → avoids (S:=S) E (message x).
Proof. apply avoids_emit. Qed.

Lemma avoids_bind {A B} (m : M S A) (f : A → M S B) :
  avoids E m → (∀ a, avoids E (f a)) → avoids E (m ≫= f).
Proof.
  intros Hm Hf s w. unfold trace_of. rewrite bind_run.
  specialize (Hm s w). unfold trace_of in Hm.
  destruct (m s w) as [[[[a|e] s1] w1] t1]; [|done].
  specialize (Hf a s1 w1). unfold trace_of in Hf.
  destruct (f a s1 w1) as [[[??]?] t2]. by apply silent_app.
Qed.

Lemma avoids_for_each {A B} (l : list A) (body : B → A → M S B) acc :
  (∀ acc x, avoids E (body acc x)) → avoids E (for_each l body acc).
Proof.
  intros Hb. revert acc. induction l as [|x l IH]; intros acc; simpl.
  - apply avoids_ret.
  - apply avoids_bind; [apply Hb|apply IH].
Qed.

Lemma avoids_zoom {T A} (get : S → T) (set : T → S → S) (m : M T A) :
  avoids E m → avoids E (zoom get set m).
Proof.
  intros Hm s w. specialize (Hm (get s) w). unfold zoom, trace_of in *.
  by destruct (m (get s) w) as [[[??]?]?].
Qed.

Lemma avoids_zoom_attr {T A} (get : S → option T) (set : T → S → S) (m : M T A) :
  avoids E m → avoids E (zoom_attr get set m).
Proof.
  intros Hm s w. unfold zoom_attr, trace_of. destruct (get s) as [t0|]; [|constructor].
  specialize (Hm t0 w). unfold trace_of in Hm. by destruct (m t0 w) as [[[??]?]?].
Qed.

Lemma avoids_os_system env cmd :
  (∀ rc, E (OsSystem cmd rc) = false) → avoids (S:=S) E (os_system env cmd).
Proof. intros He s w. rewrite run_os_system. by repeat constructor. Qed.
Lemma avoids_os_mkdir path :
  (∀ ok, E (OsMkdir path ok) = false) → avoids (S:=S) E (os_mkdir path).
Proof.
  intros He s w. unfold os_mkdir. run. destruct (_ || _); run; by repeat constructor.
Qed.
Lemma avoids_os_chdir path :
  (∀ ok, E (OsChdir path ok) = false) → avoids (S:=S) E (os_chdir path).
Proof.
  intros He s w. unfold os_chdir. run. destruct (os_path_isdir _ _); run;
    by repeat constructor.
Qed.
Lemma avoids_os_close descriptor :
  (∀ ok, E (OsClose descriptor ok) = false) → avoids (S:=S) E (os_close descriptor).
Proof.
  intros He s w. rewrite run_os_close. destruct (bool_decide _); by repeat constructor.
Qed.
Lemma avoids_os_remove path :
  (∀ ok, E (OsRemove path ok) = false) → avoids (S:=S) E (os_remove path).
Proof.
  intros He s w. rewrite run_os_remove. destruct (bool_decide _); by repeat constructor.
Qed.
Lemma avoids_time_sleep env secs :
  E (Sleep secs) = false → avoids (S:=S) E (time_sleep env secs).
Proof. intros He s w. rewrite run_time_sleep. by repeat constructor. Qed.
End Avoids.

(** Syntax-directed proof that a computation avoids a class of events. *)
Ltac avoids_step :=
  match goal with
  | |- avoids _ (_ ≫= _) => apply avoids_bind
  | |- avoids _ (ret _) => apply avoids_ret
  | |- avoids _ (raise _) => apply avoids_raise
  | |- avoids _ get_self => apply avoids_get_self
  | |- avoids _ get_world => apply avoids_get_world
  | |- avoids _ (set_self _) => apply avoids_set_self
  | |- avoids _ (set_world _) => apply avoids_set_world
  | |- avoids _ (attr _) => apply avoids_attr
  | |- avoids _ (emit _) => apply avoids_emit; try reflexivity
  | |- avoids _ (message _) => apply avoids_message; try reflexivity
  | |- avoids _ (for_each _ _ _) => apply avoids_for_each
  | |- avoids _ (zoom _ _ _) => apply avoids_zoom
  | |- avoids _ (zoom_attr _ _ _) => apply avoids_zoom_attr
  | |- avoids _ (os_system _ _) => apply avoids_os_system; try (intros; reflexivity)
  | |- avoids _ (os_mkdir _) => apply avoids_os_mkdir; try (intros; reflexivity)
  | |- avoids _ (os_chdir _) => apply avoids_os_chdir; try (intros; reflexivity)
  | |- avoids _ (os_close _) => apply avoids_os_close; try (intros; reflexivity)
  | |- avoids _ (os_remove _) => apply avoids_os_remove; try (intros; reflexivity)
  | |- avoids _ (time_sleep _ _) => apply avoids_time_sleep; try reflexivity
  | |- avoids _ (if ?b then _ else _) => destruct b
  | |- avoids _ (match ?x with _ => _ end) => destruct x
  | |- avoids _ (match ?x with _ => _ end _) => destruct x
  | |- ∀ _, _ => intros
  | |- avoids _ _ => progress cbv beta
  end.
Ltac avoids_tac := repeat avoids_step.

Lemma split_at_event (E : event → bool) h t pre x post :
  silent E t → E x = true → h ++ t = pre ++ x :: post →
  ∃ post1, h = pre ++ x :: post1 ∧ post = post1 ++ t.
Proof.
  intros Ht Hx Heq. apply app_eq_app in Heq as [k [[-> Hk]|[-> Hk]]].
  - destruct k as [|y k]; simpl in Hk.
    + subst t. apply Forall_cons in Ht as [Ht _]. congruence.
    + injection Hk as <- ->. by exists k.
  - subst t. apply Forall_app in Ht as [_ Ht]. apply Forall_cons in Ht as [Ht _].
    congruence.
Qed.

Lemma released_app h t : released h → silent is_acquire t → released (h ++ t).
Proof.
  intros Hh Ht pre p d post Heq.
  destruct (split_at_event is_acquire h t pre (OsOpen p (Some d)) post Ht eq_refl Heq) as (post1 & -> & ->).
  destruct (Hh _ _ _ _ eq_refl) as [ok Hok]. exists ok. apply elem_of_app. by left.
Qed.

Lemma pending_app name h t : pending name h → silent is_acquire t → pending name (h ++ t).
Proof.
  intros Hh Ht pre p d post Heq.
  destruct (split_at_event is_acquire h t pre (OsOpen p (Some d)) post Ht eq_refl Heq) as (post1 & -> & ->).
  destruct (Hh _ _ _ _ eq_refl) as [?|[ok Hok]]; [by left|].
  right. exists ok. apply elem_of_app. by left.
Qed.

Lemma released_pending name h : released h → pending name h.
Proof. intros Hh pre p d post Heq. right. by eapply Hh. Qed.

Lemma pending_released name h t ok :
  pending name h → silent is_acquire t → OsRemove name ok ∈ t → released (h ++ t).
Proof.
  intros Hh Ht Hin pre p d post Heq.
  destruct (split_at_event is_acquire h t pre (OsOpen p (Some d)) post Ht eq_refl Heq) as (post1 & -> & ->).
  destruct (Hh _ _ _ _ eq_refl) as [->|[ok' Hok]].
  - exists ok. apply elem_of_app. by right.
  - exists ok'. apply elem_of_app. by left.
Qed.

Lemma pending_acquire name h t d :
  pending name h → silent is_acquire t → pending name (h ++ t ++ [OsOpen name (Some d)]).
Proof.
  intros Hh Ht pre p d' post Heq. rewrite app_assoc in Heq.
  pose proof (pending_app name h t Hh Ht) as Hht.
  apply app_eq_app in Heq as [k [[Hk1 Hk2]|[-> Hk]]].
  - destruct k as [|y k]; simpl in Hk2.
    + injection Hk2 as -> _ _. by left.
    + injection Hk2 as <- ->. rewrite Hk1 in Hht.
      destruct (Hht _ _ _ _ eq_refl) as [?|[ok Hok]]; [by left|].
      right. exists ok. apply elem_of_app. by left.
  - destruct k as [|y k]; simpl in Hk.
    + injection Hk as -> _ _. by left.
    + injection Hk as _ Hk. by destruct k.
Qed.

Lemma wait_loop_cases env maxtries fuel attempt s w :
  ∃ a g s' w' t,
    wait_loop env fuel maxtries attempt 0 s w = (Ret (a, g), s', w', t) ∧
    ((g = 0 ∧ s' = s ∧ silent is_acquire t) ∨
     (g ≠ 0 ∧ ∃ d t0, t = t0 ++ [OsOpen (sem_name s) (Some d)] ∧ silent is_acquire t0 ∧
        s' = csemaphore.mk (sem_name s) (sem_path s) (sem_locked s) (Some d))).
Proof.
  revert attempt w. induction fuel as [|fuel IH]; intros attempt w; simpl.
  - destruct (attempt <? maxtries); run; eexists _, _, _, _, _;
      (split; [done|]); left; repeat split; constructor.
  - destruct (attempt <? maxtries); run.
    2:{ eexists _, _, _, _, _. split; [done|]. left. repeat split. constructor. }
    rewrite bind_run, run_os_open_excl. destruct (_ || _); simpl.
    + rewrite bind_run, run_time_sleep. simpl.
      destruct (IH (attempt + 1)
                  (mkWorld (others env (now w) (disk w)) (cwd w) (fds w) (Nat.succ (now w))))
        as (a & g & s' & w' & t & -> & Hcases).
      simpl. eexists _, _, _, _, _. split; [done|].
      destruct Hcases as [(-> & -> & Ht)|(Hg & d & t0 & -> & Ht0 & ->)].
      * left. repeat split. by repeat constructor.
      * right. split; [done|]. exists d, (OsOpen (sem_name s) None :: Sleep 1 :: t0).
        repeat split. by repeat constructor.
    + run.
      assert (Hexit : ∀ s' w', wait_loop env fuel maxtries attempt 1 s' w'
                               = (Ret (attempt, 1), s', w', [])).
      { intros s' w'. by destruct fuel. }
      rewrite Hexit. simpl. eexists _, _, _, _, _. split; [done|].
      right. split; [done|]. exists (fresh_fd w), []. repeat split. constructor.
Qed.

(** [wait] either leaves the semaphore object alone and creates nothing,
    or ends by creating the marker, which it records. It does not raise. *)
Lemma wait_cases env maxtries s w :
  ∃ r s' w' t,
    wait env maxtries s w = (Ret r, s', w', t) ∧
    ((r = true ∧ s' = s ∧ silent is_acquire t) ∨
     (r = false ∧ ∃ d t0, t = t0 ++ [OsOpen (sem_name s) (Some d)] ∧ silent is_acquire t0 ∧
        s' = csemaphore.mk (sem_name s) (sem_path s) true (Some d))).
Proof.
  unfold wait. run. destruct (os_path_isdir w (sem_path s)); run.
  2:{ eexists _, _, _, _. split; [done|]. left. repeat split. constructor. }
  rewrite bind_run.
  destruct (wait_loop_cases env maxtries (Z.to_nat (maxtries - 1)) 1 s w)
    as (a & g & s' & w' & t & -> & Hcases). simpl.
  destruct Hcases as [(-> & -> & Ht)|(Hg & d & t0 & -> & Ht0 & ->)]; simpl; run.
  - eexists _, _, _, _. split; [done|]. by left.
  - destruct (Z.eqb_spec g 0); [done|]. run.
    eexists _, _, _, _. split; [done|]. right. split; [done|]. by exists d, t0.
Qed.

(** [signal] on a held semaphore whose descriptor is known. *)
Lemma signal_held s w d :
  sem_locked s = true → fd s = Some d →
  ∃ w' t ok,
    signal s w = (Ret false, csemaphore.mk (sem_name s) (sem_path s) false (Some d), w', t) ∧
    silent is_acquire t ∧ OsRemove (sem_name s) ok ∈ t.
Proof.
  intros Hl Hfd. unfold signal. run. rewrite Hl, Hfd. run.
  rewrite bind_run, run_os_close.
  destruct (bool_decide (d ∈ fds w)); run; rewrite bind_run, run_os_remove;
    destruct (bool_decide (_ ∈ files _)); run; rewrite Hfd.
  all: eexists _, _, _; (split; [done|]).
  all: (split; [by repeat constructor|]).
  all: repeat first [by apply elem_of_cons; left | apply elem_of_cons; right].
Qed.

Lemma signal_idle s w : sem_locked s = false → signal s w = (Ret true, s, w, []).
Proof. intros Hs. unfold signal. run. rewrite Hs. by run. Qed.

Lemma phase_neutral b b' h t :
  phase b h → semaphore b' = semaphore b → silent is_acquire t → phase b' (h ++ t).
Proof.
  unfold phase. intros Hp -> Ht. destruct (sem_locked (semaphore b)).
  - destruct Hp. split; [by apply pending_app|done].
  - by apply released_app.
Qed.

Section Keeps.

Lemma keeps_neutral {A} (m : M C_buver A) :
  (∀ b w, semaphore (self_of (m b w)) = semaphore b) → avoids is_acquire m → keeps m.
Proof. intros Hs Hm b w h Hp. by apply (phase_neutral b). Qed.

Lemma keeps_bind {A B} (m : M C_buver A) (f : A → M C_buver B) :
  keeps m → (∀ a, keeps (f a)) → keeps (m ≫= f).
Proof.
  intros Hm Hf b w h Hp. unfold self_of, trace_of. rewrite bind_run.
  specialize (Hm b w h Hp). unfold self_of, trace_of in Hm.
  destruct (m b w) as [[[[a|e] b1] w1] t1]; [|done]. simpl in Hm.
  specialize (Hf a b1 w1 _ Hm). unfold self_of, trace_of in Hf.
  destruct (f a b1 w1) as [[[??]?] t2]. simpl in *. by rewrite app_assoc.
Qed.

Lemma keeps_ret {A} (a : A) : keeps (ret a).
Proof. apply keeps_neutral; [done|apply avoids_ret]. Qed.
Lemma keeps_raise {A} e : keeps (raise (A:=A) e).
Proof. apply keeps_neutral; [done|apply avoids_raise]. Qed.
Lemma keeps_get_self : keeps get_self.
Proof. apply keeps_neutral; [done|apply avoids_get_self]. Qed.
Lemma keeps_get_world : keeps get_world.
Proof. apply keeps_neutral; [done|apply avoids_get_world]. Qed.
Lemma keeps_attr {A} (o : option A) : keeps (attr o).
Proof. apply keeps_neutral; [by destruct o|apply avoids_attr]. Qed.
Lemma keeps_message x : keeps (message x).
Proof. apply keeps_neutral; [done|by apply avoids_message]. Qed.
Lemma keeps_set_config c : keeps (set_self (cbuver.set_config c)).
Proof. apply keeps_neutral; [done|apply avoids_set_self]. Qed.
Lemma keeps_set_versions v : keeps (set_self (cbuver.set_versions v)).
Proof. apply keeps_neutral; [done|apply avoids_set_self]. Qed.

Lemma keeps_on_config {A} (m : M C_buconfig A) : avoids is_acquire m → keeps (on_config m).
Proof.
  intros Hm. apply keeps_neutral; [|by apply avoids_zoom_attr].
  intros b w. unfold on_config, zoom_attr, self_of.
  destruct (cbuver.config b); [|done]. by destruct (m _ w) as [[[??]?]?].
Qed.

Lemma keeps_on_versions {A} (m : M C_versions A) : avoids is_acquire m → keeps (on_versions m).
Proof.
  intros Hm. apply keeps_neutral; [|by apply avoids_zoom_attr].
  intros b w. unfold on_versions, zoom_attr, self_of.
  destruct (versions b); [|done]. by destruct (m _ w) as [[[??]?]?].
Qed.

Lemma keeps_os_system env cmd : keeps (os_system env cmd).
Proof.
  apply keeps_neutral; [|by apply avoids_os_system].
  intros b w. by rewrite run_os_system.
Qed.
Lemma keeps_os_chdir path : keeps (os_chdir path).
Proof.
  apply keeps_neutral; [|by apply avoids_os_chdir].
  intros b w. unfold os_chdir. run. destruct (os_path_isdir w path); by run.
Qed.
Lemma keeps_mkdir dir : keeps (cbuver.mkdir dir).
Proof.
  apply keeps_neutral.
  - intros b w. unfold cbuver.mkdir, os_mkdir. run. destruct (_ || _); by run.
  - unfold cbuver.mkdir. avoids_tac.
Qed.

Lemma keeps_wait env maxtries : keeps (on_semaphore (wait env maxtries)).
Proof.
  intros b w h Hp. unfold on_semaphore, zoom, self_of, trace_of.
  destruct (wait_cases env maxtries (semaphore b) w) as (r & s' & w' & t & -> & Hcases).
  simpl. destruct Hcases as [(-> & -> & Ht)|(-> & d & t0 & -> & Ht0 & ->)].
  - by apply (phase_neutral b).
  - unfold phase in *. simpl. split; [|done]. apply pending_acquire; [|done].
    destruct (sem_locked (semaphore b)); [by destruct Hp|by apply released_pending].
Qed.

Lemma keeps_signal : keeps (on_semaphore signal).
Proof.
  intros b w h Hp. unfold on_semaphore, zoom, self_of, trace_of.
  destruct (sem_locked (semaphore b)) eqn:Hl.
  - unfold phase in Hp. rewrite Hl in Hp. destruct Hp as [Hpend [d Hd]].
    destruct (signal_held (semaphore b) w d Hl Hd) as (w' & t & ok & -> & Ht & Hin).
    simpl. unfold phase. simpl. by eapply pending_released.
  - rewrite signal_idle by done. simpl. apply (phase_neutral b); [done|done|constructor].
Qed.

End Keeps.

(** The methods of the configuration and of the ledger create no marker. *)
Ltac quiet :=
  repeat (progress unfold load, dump, cbuconfig.name, opt_command, opt_mailto, opt_type, opt_nice,
            opt_src_dir, opt_num_versions, opt_ver_dirs, _get_attr, set_ver_dirs, save, create,
            receiver, str_arg, sanify, prune, new_version, new_ver_dirs, keepers_append;
          avoids_tac).

Ltac keeps_step :=
  match goal with
  | |- keeps (_ ≫= _) => apply keeps_bind
  | |- keeps (ret _) => apply keeps_ret
  | |- keeps (raise _) => apply keeps_raise
  | |- keeps get_self => apply keeps_get_self
  | |- keeps get_world => apply keeps_get_world
  | |- keeps (attr _) => apply keeps_attr
  | |- keeps (message _) => apply keeps_message
  | |- keeps (set_self (cbuver.set_config _)) => apply keeps_set_config
  | |- keeps (set_self (cbuver.set_versions _)) => apply keeps_set_versions
  | |- keeps (on_config _) => apply keeps_on_config; quiet
  | |- keeps (on_versions _) => apply keeps_on_versions; quiet
  | |- keeps (on_semaphore (wait _ _)) => apply keeps_wait
  | |- keeps (on_semaphore signal) => apply keeps_signal
  | |- keeps (cbuver.mkdir _) => apply keeps_mkdir
  | |- keeps (os_chdir _) => apply keeps_os_chdir
  | |- keeps (os_system _ _) => apply keeps_os_system
  | |- keeps (if ?b then _ else _) => destruct b
  | |- keeps (match ?x with _ => _ end) => destruct x
  | |- ∀ _, _ => intros
  end.
Ltac keeps_tac := repeat keeps_step.

Lemma keeps_backup_version env : keeps (backup_version env).
Proof. unfold backup_version. keeps_tac. Qed.

Lemma keeps_backup env : keeps (backup env).
Proof. unfold backup, int_of. keeps_tac; apply keeps_backup_version. Qed.

Lemma keeps_mailer env : keeps (mailer env).
Proof. unfold mailer. keeps_tac. Qed.

Lemma keeps_check_dir dir : keeps (check_dir dir).
Proof.
  apply keeps_neutral.
  - intros b w. unfold check_dir. run. destruct (os_path_isdir w dir); run; [|done].
    generalize (0, 0). induction (os_listdir w dir) as [|f l IH]; intros [dc fc]; [done|].
    simpl. rewrite bind_run.
    destruct (os_path_isdir w (os_path_join dir f)); [destruct (bool_decide _)|];
      run; apply IH.
  - unfold check_dir. avoids_tac.
Qed.

Lemma keeps_initialize env : keeps (initialize env).
Proof. unfold initialize. keeps_tac; apply keeps_check_dir. Qed.

Lemma keeps_execute env : keeps (execute env).
Proof.
  unfold execute. keeps_tac;
    first [apply keeps_initialize | apply keeps_backup | apply keeps_mailer].
Qed.

Lemma keeps_tgt_clean : keeps tgt_clean.
Proof. unfold tgt_clean. keeps_tac. Qed.

(** After [tgt_clean] the semaphore is not held. *)
Lemma tgt_clean_unlocks b w h :
  phase b h → sem_locked (semaphore (self_of (tgt_clean b w))) = false.
Proof.
  intros Hp. unfold tgt_clean, self_of. run. rewrite bind_run.
  unfold on_semaphore, zoom. destruct (sem_locked (semaphore b)) eqn:Hl.
  - unfold phase in Hp. rewrite Hl in Hp. destruct Hp as [_ [d Hd]].
    destruct (signal_held (semaphore b) w d Hl Hd) as (w' & t & ok & -> & _). by run.
  - rewrite signal_idle by done. by run.
Qed.

(** C6. In every run of the program, whatever the mode, the environment
    and the way [execute] ends (a return code or an uncaught exception):
    every creation of a marker file in the trace is followed, later in the
    trace, by an attempt to remove that marker, and the semaphore is not
    held when the process ends. So once the lock was acquired a release is
    attempted before the end of the run, wherever the run fails. *)
Theorem lock_release_is_attempted_on_every_path
    (env : Env) (mode : Z) (tgt_loc : string) (w : World)
    (r : outcome (option Z)) (b : C_buver) (w' : World) (tr : list event) :
  buver_entry env mode tgt_loc w = (r, b, w', tr) →
  sem_locked (semaphore b) = false ∧
  ∀ pre p d post,
    tr = pre ++ OsOpen p (Some d) :: post → ∃ ok, OsRemove p ok ∈ post.
Proof.
  unfold buver_entry, finally. intros Hrun.
  set (b0 := cbuver.init mode tgt_loc w) in *.
  assert (H0 : phase b0 []) by (intros pre p d post Heq; by destruct pre).
  pose proof (keeps_execute env b0 w [] H0) as H1. unfold self_of, trace_of in H1.
  destruct (execute env b0 w) as [[[r1 b1] w1] t1]. simpl in H1.
  pose proof (keeps_tgt_clean b1 w1 t1 H1) as H2.
  pose proof (tgt_clean_unlocks b1 w1 t1 H1) as H3. unfold self_of, trace_of in H2, H3.
  destruct (tgt_clean b1 w1) as [[[r2 b2] w2] t2]. simpl in *.
  injection Hrun as <- <- <- <-. split; [done|].
  unfold phase in H2. by rewrite H3 in H2.
Qed.

Lemma avoids_wait_loop E env fuel maxtries attempt got_it :
  (∀ p r, E (OsOpen p r) = false) → E (Sleep 1) = false →
  avoids E (wait_loop env fuel maxtries attempt got_it).
Proof.
  intros Ho Hs. revert attempt got_it.
  induction fuel as [|fuel IH]; intros attempt got_it; simpl.
  - destruct (_ && _); apply avoids_ret.
  - destruct (_ && _); [|apply avoids_ret]. unfold os_open_excl.
    avoids_tac; first [apply Ho | apply Hs | apply IH].
Qed.

Lemma avoids_wait E env maxtries :
  (∀ p r, E (OsOpen p r) = false) → E (Sleep 1) = false → avoids E (wait env maxtries).
Proof. intros Ho Hs. unfold wait. avoids_tac. by apply avoids_wait_loop. Qed.

Lemma avoids_signal E :
  (∀ d ok, E (OsClose d ok) = false) → (∀ p ok, E (OsRemove p ok) = false) →
  (∀ x, E (Print x) = false) → avoids E signal.
Proof. intros Hc Hr Hp. unfold signal. avoids_tac; auto. Qed.

Section Pure.
Context {S : Type}.

Lemma pure_ret {A} (a : A) : pure (S:=S) (ret a).
Proof. intros s w. by eexists. Qed.
Lemma pure_raise {A} e : pure (S:=S) (A:=A) (raise e).
Proof. intros s w. by eexists. Qed.
Lemma pure_get_self : pure (S:=S) get_self.
Proof. intros s w. by eexists. Qed.
Lemma pure_get_world : pure (S:=S) get_world.
Proof. intros s w. by eexists. Qed.
Lemma pure_attr {A} (o : option A) : pure (S:=S) (attr o).
Proof. destruct o; [apply pure_ret|apply pure_raise]. Qed.
Lemma pure_bind {A B} (m : M S A) (f : A → M S B) :
  pure m → (∀ a, pure (f a)) → pure (m ≫= f).
Proof.
  intros Hm Hf s w. rewrite bind_run. destruct (Hm s w) as [[a|e] ->]; [|by eexists].
  destruct (Hf a s w) as [r ->]. by eexists.
Qed.

(** A read-only computation in front of another one. *)
Lemma bind_pure {A B} (m : M S A) (f : A → M S B) s w :
  pure m →
  ∃ r, m s w = (r, s, w, []) ∧
       (m ≫= f) s w = match r with Ret a => f a s w | Raise e => (Raise e, s, w, []) end.
Proof.
  intros Hm. destruct (Hm s w) as [r Hr]. exists r. split; [done|].
  rewrite bind_run, Hr. destruct r; [apply prepend_nil|done].
Qed.
End Pure.

Lemma set_config_id b c : cbuver.config b = Some c → cbuver.set_config c b = b.
Proof. destruct b. simpl. by intros ->. Qed.
Lemma set_versions_id b v : versions b = Some v → cbuver.set_versions v b = b.
Proof. destruct b. simpl. by intros ->. Qed.

Lemma pure_on_config {A} (m : M C_buconfig A) : pure m → pure (on_config m).
Proof.
  intros Hm b w. unfold on_config, zoom_attr. destruct (cbuver.config b) as [c|] eqn:Hc.
  - destruct (Hm c w) as [r ->]. exists r. by rewrite set_config_id.
  - by eexists.
Qed.
Lemma pure_on_versions {A} (m : M C_versions A) : pure m → pure (on_versions m).
Proof.
  intros Hm b w. unfold on_versions, zoom_attr. destruct (versions b) as [v|] eqn:Hv.
  - destruct (Hm v w) as [r ->]. exists r. by rewrite set_versions_id.
  - by eexists.
Qed.

Ltac pure_step :=
  match goal with
  | |- pure (_ ≫= _) => apply pure_bind
  | |- pure (ret _) => apply pure_ret
  | |- pure (raise _) => apply pure_raise
  | |- pure get_self => apply pure_get_self
  | |- pure get_world => apply pure_get_world
  | |- pure (attr _) => apply pure_attr
  | |- pure (on_config _) => apply pure_on_config
  | |- pure (on_versions _) => apply pure_on_versions
  | |- pure (if ?b then _ else _) => destruct b
  | |- pure (match ?x with _ => _ end) => destruct x
  | |- ∀ _, _ => intros
  end.
Ltac pure_tac :=
  repeat (repeat pure_step;
          try progress unfold cbuconfig.name, opt_command, opt_mailto, opt_type, opt_nice, opt_src_dir,
            opt_num_versions, opt_ver_dirs, _get_attr, receiver, str_arg, new_version,
            new_ver_dirs, int_of).

(** Steps over a read-only computation at the head of the goal. *)
Ltac pure_head :=
  match goal with
  | |- context [ (?m ≫= ?f) ?s ?w ] =>
      let Hp := fresh in
      let r := fresh "r" in
      assert (Hp : pure m) by pure_tac;
      destruct (bind_pure m f s w Hp) as (r & _ & ->); clear Hp;
      destruct r as [?|?]
  end.

Lemma run_os_chdir {S} path (s : S) w :
  os_chdir path s w =
  if os_path_isdir w path
  then (Ret tt, s, mkWorld (disk w) (abspath w path) (fds w) (now w), [OsChdir path true])
  else (Raise OSError, s, w, [OsChdir path false]).
Proof. unfold os_chdir. run. destruct (os_path_isdir w path); by run. Qed.

(** [backup_version] changes no attribute of the object and creates no
    directory; when it raises, no shell command was run. *)
Lemma backup_version_cases env b w :
  ∃ r w' t,
    backup_version env b w = (r, b, w', t) ∧ silent is_mkdir t ∧
    (silent is_system t ∨ ∃ rc, r = Ret rc).
Proof.
  unfold backup_version.
  pure_head; [|eexists _, _, _; split; [done|]; split; [constructor|left; constructor]].
  pure_head; [|eexists _, _, _; split; [done|]; split; [constructor|left; constructor]].
  rewrite bind_run, run_os_chdir. destruct (os_path_isdir w _); simpl.
  2:{ eexists _, _, _. split; [done|]. split; [|left]; by repeat constructor. }
  set (w1 := mkWorld _ _ _ _).
  pure_head; [|eexists _, _, _; split; [done|]; split; [|left]; by repeat constructor].
  pure_head; [|eexists _, _, _; split; [done|]; split; [|left]; by repeat constructor].
  pure_head; [|eexists _, _, _; split; [done|]; split; [|left]; by repeat constructor].
  destruct (bool_decide _).
  - pure_head; [|eexists _, _, _; split; [done|]; split; [|left]; by repeat constructor].
    run. eexists _, _, _. split; [done|]. split; [|left]; by repeat constructor.
  - destruct (strip _) as [|c rest].
    + run. eexists _, _, _. split; [done|]. split; [|left]; by repeat constructor.
    + destruct (Ascii.eqb c "#"); run.
      * eexists _, _, _. split; [done|]. split; [|left]; by repeat constructor.
      * rewrite run_os_system. simpl.
        eexists _, _, _. split; [done|]. split; [by repeat constructor|right; by eexists].
Qed.

Lemma dict_get_set k v d : dict_get k (dict_set k v d) = Some v.
Proof.
  induction d as [|[k' v'] d IH]; simpl.
  - by rewrite bool_decide_eq_true_2.
  - destruct (decide (k' = k)) as [->|Hne].
    + rewrite bool_decide_eq_true_2 by done. simpl. by rewrite bool_decide_eq_true_2.
    + rewrite bool_decide_eq_false_2 by done. simpl. by rewrite bool_decide_eq_false_2.
Qed.

Lemma split_unique (E : event → bool) pre x post pre' x' post' :
  silent E pre → silent E post → E x' = true →
  pre ++ x :: post = pre' ++ x' :: post' →
  pre' = pre ∧ x' = x ∧ post' = post.
Proof.
  intros Hpre Hpost Hx' Heq. apply app_eq_app in Heq as [k [[-> Hk]|[-> Hk]]].
  - destruct k as [|y k]; simpl in Hk.
    + injection Hk as -> ->. by rewrite app_nil_r.
    + injection Hk as <- _. apply Forall_app in Hpre as [_ Hpre].
      apply Forall_cons in Hpre as [Hpre _]. congruence.
  - destruct k as [|y k]; simpl in Hk.
    + injection Hk as -> ->. by rewrite app_nil_r.
    + injection Hk as _ ->. apply Forall_app in Hpost as [_ Hpost].
      apply Forall_cons in Hpost as [Hpost _]. congruence.
Qed.

Section Reads.
Context {S : Type}.
Lemma reads_pure {A} (m : M S A) : pure m → reads m.
Proof. intros Hm s w. destruct (Hm s w) as [r ->]. by eexists _, _. Qed.
Lemma reads_emit e : reads (S:=S) (emit e).
Proof. intros s w. by eexists _, _. Qed.
Lemma reads_bind {A B} (m : M S A) (f : A → M S B) :
  reads m → (∀ a, reads (f a)) → reads (m ≫= f).
Proof.
  intros Hm Hf s w. rewrite bind_run. destruct (Hm s w) as ([a|e] & t1 & ->);
    [|by eexists _, _].
  destruct (Hf a s w) as (r & t2 & ->). by eexists _, _.
Qed.
Lemma reads_for_each {A B} (l : list A) (body : B → A → M S B) acc :
  (∀ acc x, reads (body acc x)) → reads (for_each l body acc).
Proof.
  intros Hb. revert acc. induction l as [|x l IH]; intros acc; simpl.
  - apply reads_pure, pure_ret.
  - apply reads_bind; [apply Hb|apply IH].
Qed.
End Reads.

(** [dump] only prints. *)
Lemma reads_dump env : reads (dump env).
Proof.
  unfold dump, _get_attr, message.
  repeat first
    [ apply reads_bind | apply reads_for_each | apply reads_emit
    | apply reads_pure; pure_tac; fail | progress intros
    | match goal with |- reads (if ?b then _ else _) => destruct b end
    | match goal with |- reads (match ?x with _ => _ end) => destruct x end ].
Qed.

Lemma on_config_run {A} (m : M C_buconfig A) b w c r c' w' t :
  cbuver.config b = Some c → m c w = (r, c', w', t) →
  on_config m b w = (r, cbuver.set_config c' b, w', t).
Proof. intros Hc Hm. unfold on_config, zoom_attr. by rewrite Hc, Hm. Qed.
Lemma on_versions_run {A} (m : M C_versions A) b w v r v' w' t :
  versions b = Some v → m v w = (r, v', w', t) →
  on_versions m b w = (r, cbuver.set_versions v' b, w', t).
Proof. intros Hv Hm. unfold on_versions, zoom_attr. by rewrite Hv, Hm. Qed.

Ltac silence :=
  repeat (apply silent_app || apply silent_cons || apply silent_nil || assumption
          || reflexivity).
Ltac lists :=
  repeat first [rewrite <- app_assoc | progress (cbn [app])]; reflexivity.
Ltac quiet_exit :=
  run; eexists _, _, _, _; (split; [reflexivity|]); left; silence.

Lemma run_load env c w :
  load env c w =
  ((conf_load env (conf_name c) w).1.1,
   cbuconfig.mk (cbuconfig.tgt_loc c) (conf_name c) (conf_load env (conf_name c) w).1.2
     (conf_load env (conf_name c) w).2,
   w, [ConfLoad (conf_name c)]).
Proof.
  unfold load. run. destruct (conf_load env (conf_name c) w) as [[[rc|e] d] lv]; by run.
Qed.

Lemma run_save env create c w :
  ∃ rc w' ok,
    save env create c w
    = (Ret rc, c, w',
       [Message ((if create =? 0 then "Writing" else "Creating") +:+ " config <"
                 +:+ conf_name c +:+ "> ...");
        ConfSave (conf_name c) (cbuconfig.config c) ok]).
Proof.
  unfold save. run. destruct (conf_writable env (conf_name c) w); run.
  - destruct (bool_decide _); run; by eexists _, _, _.
  - by eexists _, _, _.
Qed.

(** How a backup run looks from outside: either it never created a
    directory, or it created exactly one; in that case either no shell
    command was run afterwards, or the manifest was updated and its writing
    attempted. *)
Lemma backup_shape env b w :
  ∃ r b' w' tr,
    backup env b w = (r, b', w', tr) ∧
    (silent is_mkdir tr ∨
     ∃ pre d post,
       tr = pre ++ OsMkdir d true :: post ∧ silent is_mkdir pre ∧ silent is_mkdir post ∧
       ((silent is_system post ∧ ∃ e, r = Raise e) ∨ records_new_version b' d post)).
Proof.
  unfold backup.
  (* the semaphore *)
  rewrite bind_run. unfold on_semaphore at 1, zoom.
  destruct (wait_cases env 120 (semaphore b) w) as (r0 & s' & w1 & t0 & Hw & _).
  pose proof (avoids_wait is_mkdir env 120 (λ _ _, eq_refl) eq_refl (semaphore b) w) as Ht0.
  unfold trace_of in Ht0. rewrite Hw in *. simpl in Ht0 |- *. clear Hw.
  destruct r0; [quiet_exit|]. run.
  (* the configuration *)
  set (b1 := cbuver.set_config _ _).
  rewrite bind_run, (on_config_run _ b1 w1 _ _ _ _ _ eq_refl (run_load _ _ _)).
  simpl conf_name. set (name := os_path_join (cbuver.tgt_loc b) "buver.conf").
  destruct (conf_load env name w1) as [[r1 dict] lv]. simpl.
  destruct r1 as [load_rc|e]; simpl; [|quiet_exit].
  set (c1 := cbuconfig.mk _ _ _ _). set (b2 := cbuver.set_config c1 b1).
  destruct (load_rc =? 0); simpl.
  2:{ pure_head; [|quiet_exit]. run. rewrite bind_run. unfold on_semaphore, zoom.
      pose proof (avoids_signal is_mkdir (λ _ _, eq_refl) (λ _ _, eq_refl) (λ _, eq_refl)
                    (semaphore b2) w1) as Hsig. unfold trace_of in Hsig.
      destruct (signal (semaphore b2) w1) as [[[[?|?] ?] ?] tsig]; simpl in *; quiet_exit. }
  destruct (reads_dump env c1 w1) as (rd & td & Hd).
  assert (Htd : silent is_mkdir td).
  { assert (Ha : avoids is_mkdir (dump env)) by quiet.
    specialize (Ha c1 w1). unfold trace_of in Ha. by rewrite Hd in Ha. }
  rewrite bind_run, (on_config_run _ b2 w1 _ _ _ _ _ eq_refl Hd).
  destruct rd as [[]|e]; [|quiet_exit]. run.
  (* the ledger *)
  set (v0 := cversions.init (tgt_versions b) w1).
  set (b3 := cbuver.set_versions v0 _).
  pure_head; [|quiet_exit]. pure_head; [|quiet_exit]. run.
  destruct lv as [logical|]; run; [|quiet_exit].
  destruct (sanify a0 logical v0 w1) as [[[rs v1] w2] ts] eqn:Hs.
  assert (Hts : silent is_mkdir ts).
  { assert (Ha : avoids is_mkdir (sanify a0 logical)) by quiet.
    specialize (Ha v0 w1). unfold trace_of in Ha. by rewrite Hs in Ha. }
  rewrite bind_run, (on_versions_run _ b3 w1 _ _ _ _ _ eq_refl Hs).
  destruct rs as [insane|e]; [|quiet_exit]. simpl.
  destruct (Z.eqb_spec insane 0) as [->|Hne]; simpl; [|quiet_exit].
  apply sanify_success in Hs as (Hp & Hc & -> & -> & nextId & -> & Hnd & Hnext).
  pose proof (init_fresh (tgt_versions b) w1) as (_ & Hpr & _). fold v0 in Hpr.
  set (v1 := cversions.mk _ _ _ _ _ _ _).
  set (b4 := cbuver.set_versions v1 b3).
  destruct (prune env v1 w1) as [[[rp v2] w2] tp] eqn:Hprune.
  assert (Htp : silent is_mkdir tp).
  { assert (Ha : avoids is_mkdir (prune env)) by quiet.
    specialize (Ha v1 w1). unfold trace_of in Ha. by rewrite Hprune in Ha. }
  rewrite bind_run, (on_versions_run _ b4 w1 _ _ _ _ _ eq_refl Hprune).
  rewrite prune_eq in Hprune. simpl in Hprune. rewrite Hpr in Hprune.
  injection Hprune as <- <- _ _. simpl.
  set (v2 := set_pruned v1). set (b5 := cbuver.set_versions v2 b4).
  set (d := os_path_join (verdir v0) nextId).
  rewrite bind_run,
    (on_versions_run _ b5 w2 _ _ _ _ _ eq_refl (new_version_sane v2 w2 d eq_refl eq_refl)).
  simpl. set (b6 := cbuver.set_versions v2 b5).
  unfold cbuver.mkdir at 1, os_mkdir. run.
  destruct (_ || _); run; [quiet_exit|].
  set (w3 := with_disk _ w2).
  destruct (backup_version_cases env b6 w3) as (rb & w4 & tb & Hb & Htb & Hsys).
  rewrite bind_run, Hb. simpl.
  destruct rb as [failed|e].
  2:{ run. eexists _, _, _, _. split; [reflexivity|]. right.
      exists (t0 ++ ConfLoad name :: td ++ tp), d, tb.
      split; [lists|]. split; [silence|]. split; [done|].
      left. split; [by destruct Hsys as [?|[? ?]]|by eexists]. }
  set (kept := window a0 logical) in *.
  assert (Hfailed : ∃ tf, ∀ B (k : unit → M C_buver B) s w,
            ((if negb (failed =? 0)
              then message "failed during backup_version ... exiting ..." else ret tt)
             ≫= k) s w = prepend tf (k tt s w) ∧ silent is_mkdir tf).
  { exists (if negb (failed =? 0)
            then [Message "failed during backup_version ... exiting ..."] else []).
    intros B k s w0. destruct (negb (failed =? 0)); run; (split; [done|silence]). }
  destruct Hfailed as [tf Hfailed]. rewrite (proj1 (Hfailed _ _ _ _)).
  pose proof (proj2 (Hfailed _ (λ _, ret tt) b6 w4)) as Htf. clear Hfailed.
  rewrite bind_run,
    (on_versions_run _ b6 w4 _ _ _ _ _ eq_refl
       (new_ver_dirs_sane v2 w4 (kept ++ [nextId]) eq_refl eq_refl)).
  simpl. set (b7 := cbuver.set_versions v2 b6).
  unfold set_ver_dirs at 1.
  rewrite bind_run, (on_config_run _ b7 w4 c1 _ _ _ _ eq_refl (run_set_self _ _ _)).
  simpl. set (c2 := cbuconfig.set_config _ c1). set (b8 := cbuver.set_config c2 b7).
  destruct (run_save env 0 c2 w4) as (rc & w5 & ok & Hsave).
  rewrite bind_run, (on_config_run _ b8 w4 c2 _ _ _ _ eq_refl Hsave).
  simpl. set (b9 := cbuver.set_config c2 b8).
  assert (Hrec : ∀ b' post,
            cbuver.config b' = Some c2 → versions b' = Some v2 →
            ConfSave (conf_name c2) (cbuconfig.config c2) ok ∈ post →
            records_new_version b' d post).
  { intros b' post Hc2 Hv2 Hin. exists c2, v2, kept, nextId, ok.
    repeat split; try done. apply dict_get_set. }
  destruct (negb (rc =? 0)); run.
  - eexists _, _, _, _. split; [reflexivity|]. right.
    eexists (t0 ++ ConfLoad name :: td ++ tp), d, _.
    split; [lists|]. split; [silence|]. split; [silence|].
    right. apply Hrec; [done|done|]. rewrite !elem_of_app, !elem_of_cons. tauto.
  - rewrite bind_run. unfold on_semaphore, zoom.
    pose proof (avoids_signal is_mkdir (λ _ _, eq_refl) (λ _ _, eq_refl) (λ _, eq_refl)
                  (semaphore b9) w5) as Hsig. unfold trace_of in Hsig.
    destruct (signal (semaphore b9) w5) as [[[[[]|?] ?] ?] tsig]; simpl in *; run.
    all: eexists _, _, _, _; (split; [reflexivity|]); right.
    all: eexists (t0 ++ ConfLoad name :: td ++ tp), d, _.
    all: (split; [lists|]); (split; [silence|]); (split; [silence|]).
    all: right; apply Hrec; [done|done|]; rewrite !elem_of_app, !elem_of_cons; tauto.
Qed.

(** X27. In a backup run that created the new version directory, the
    manifest is updated unless [backup] ends with an exception before the
    archive command is run. When the archive command was run, whatever its
    exit status (so also when it failed), and also when [backup] returns
    without having run it (no command string, or a command that is a
    comment): the manifest of the configuration object is set to the
    retained identifiers, whose last one names the directory that was
    created, and after that the run attempts to write that configuration
    to buver.conf. *)
Theorem archive_failure_does_not_block_the_manifest
    (env : Env) (b : C_buver) (w : World)
    (r : outcome (option Z)) (b' : C_buver) (w' : World) (tr : list event)
    (pre : list event) (d : string) (post : list event) :
  backup env b w = (r, b', w', tr) →
  tr = pre ++ OsMkdir d true :: post →
  (∃ cmd rc, OsSystem cmd rc ∈ post) ∨ (∃ code, r = Ret code) →
  ∃ c v kept nextId ok,
    cbuver.config b' = Some c ∧ versions b' = Some v ∧
    new_ver_dirs v w' = (Ret (kept ++ [nextId]), v, w', []) ∧
    d = os_path_join (verdir v) nextId ∧
    dict_get "ver_dirs" (cbuconfig.config c) = Some (CList (kept ++ [nextId])) ∧
    ConfSave (conf_name c) (cbuconfig.config c) ok ∈ post.
Proof.
  intros Hrun Htr Hcmd.
  destruct (backup_shape env b w) as (r0 & b0 & w0 & tr0 & Hrun0 & Hshape).
  rewrite Hrun in Hrun0. injection Hrun0 as <- <- <- <-.
  destruct Hshape as [Hsilent|(pre0 & d0 & post0 & Htr0 & Hpre & Hpost & Hcases)].
  - exfalso. rewrite Htr in Hsilent. apply Forall_app in Hsilent as [_ Hsilent].
    apply Forall_cons in Hsilent as [Hsilent _]. discriminate.
  - rewrite Htr0 in Htr.
    destruct (split_unique is_mkdir pre0 _ post0 pre (OsMkdir d true) post Hpre Hpost eq_refl Htr)
      as (-> & [= ->] & ->).
    destruct Hcases as [[Hsys [e He]]|(c & v & kept & nextId & ok & Hc & Hv & Hs & Hk & Hd & Hg & Hin)].
    + exfalso. destruct Hcmd as [(cmd & rc & Hcmd)|[code Hcode]].
      * unfold silent in Hsys. rewrite Forall_forall in Hsys.
        by specialize (Hsys _ Hcmd).
      * congruence.
    + exists c, v, kept, nextId, ok. repeat split; try done.
      by apply new_ver_dirs_sane.
Qed.

Lemma archive_failure_does_not_block_the_manifest_witness :
  let x := backup (env_run 256 ["1"; "2"]) (cbuver.init 1 "/bu" world_run) world_run in
  ∃ c v kept nextId ok,
    cbuver.config (self_of x) = Some c ∧ versions (self_of x) = Some v ∧
    new_ver_dirs v x.1.2 = (Ret (kept ++ [nextId]), v, x.1.2, []) ∧
    "/bu/versions/3" = os_path_join (verdir v) nextId ∧
    dict_get "ver_dirs" (cbuconfig.config c) = Some (CList (kept ++ [nextId])) ∧
    ConfSave (conf_name c) (cbuconfig.config c) ok ∈ drop 13 (trace_of x).
Proof.
  intros x.
  apply (archive_failure_does_not_block_the_manifest (env_run 256 ["1"; "2"])
           (cbuver.init 1 "/bu" world_run) world_run x.1.1.1 x.1.1.2 x.1.2 x.2
           (take 12 x.2) "/bu/versions/3" (drop 13 x.2)).
  - vm_compute. reflexivity.
  - vm_compute. reflexivity.
  - left. exists "tar cvf /bu/versions/3/backup.tar *", 256.
    apply (list_elem_of_lookup_2 _ 2). vm_compute. reflexivity.
Defined.

(** C5 fails when the archive step ends before its command is run. The
    configuration [conf_nested] passes [load]: its source directory exists
    and is not a prefix of the target. The run keeps two versions, so
    [prune] removes version 1, which is the source directory; the version
    directory 3 is created; [os.chdir] to the source directory then raises
    [OSError], the branch of [backup_version] that was to return 9999 is
    not taken, and the run ends there: [set_ver_dirs] and [save] are not
    reached. buver.conf keeps the manifest [1, 2] while the disk holds the
    versions 2 and 3, and the validation of the next run returns 2. *)
Lemma chdir_failure_loses_the_manifest_update :
  let env := env_shell conf_nested ["1"; "2"] in
  let x := buver_entry env 1 "/bu" world_C in
  conffile.load_from interp_nested env (Some (conffile.written_lines env conf_nested))
    (cbuconfig.init "/bu") world_C
  = (Ret (conffile.Code 0), cbuconfig.mk "/bu" "/bu/buver.conf" conf_nested (Some ["1"; "2"]),
     world_C, []) ∧
  x.1.1.1 = Raise OSError ∧
  disk x.1.2
  = mkDisk ["/bu"; "/bu/logs"; "/bu/versions"; "/bu/versions/2"; "/bu/versions/3"]
           ["/bu/buver.conf"] ∧
  take 2 (drop 15 (trace_of x))
  = [OsMkdir "/bu/versions/3" true; OsChdir "/bu/versions/1" false] ∧
  silent is_save (trace_of x) ∧
  (∃ c, cbuver.config (self_of x) = Some c ∧
        dict_get "ver_dirs" (cbuconfig.config c) = Some (CStr "['1', '2']")) ∧
  (sanify 2 ["1"; "2"] (ledger_of x.1.2) x.1.2).1.1.1 = Ret 2.
Proof.
  intros env x. split; [vm_compute; reflexivity|].
  split; [vm_compute; reflexivity|].
  split; [vm_compute; reflexivity|].
  split; [vm_compute; reflexivity|].
  split; [vm_compute; repeat constructor|].
  split; [eexists; split; vm_compute; reflexivity|].
  vm_compute; reflexivity.
Qed.

Lemma lock_release_is_attempted_on_every_path_witness :
  let x := buver_entry (env_run 256 ["1"; "3"]) 1 "/bu" world_run in
  x.1.1.1 = Ret (Some 3) ∧
  sem_locked (semaphore (self_of x)) = false ∧
  ∃ ok, OsRemove "/bu/buver.lock" ok ∈ drop 2 (trace_of x).
Proof.
  intros x. split; [vm_compute; reflexivity|].
  destruct (lock_release_is_attempted_on_every_path (env_run 256 ["1"; "3"]) 1 "/bu"
              world_run x.1.1.1 x.1.1.2 x.1.2 x.2) as [H1 H2].
  - vm_compute. reflexivity.
  - split; [exact H1|].
    apply (H2 (take 1 x.2) "/bu/buver.lock" 3 (drop 2 x.2)). vm_compute. reflexivity.
Defined.

(** * Further properties of the code *)

(** ** More on the ledger of versions *)

Lemma dirlist_isdir tgt_path w x :
  x ∈ dirlist (cversions.init tgt_path w) →
  os_path_isdir w (os_path_join (verdir (cversions.init tgt_path w)) x) = true.
Proof.
  rewrite init_eq. simpl. destruct (os_path_isdir w (abspath w tgt_path)); simpl.
  - by intros [[? _] _]%list_elem_of_filter.
  - by intros ?%elem_of_nil.
Qed.

Lemma window_short n manifest :
  Z.of_nat (length manifest) ≤ n - 1 → window n manifest = manifest.
Proof.
  intros Hn. unfold window. destruct (Z.ltb_spec 0 (n - 1)).
  - rewrite py_slice_from_neg by done.
    replace (length manifest - Z.to_nat (n - 1))%nat with 0%nat by lia. done.
  - destruct manifest; [done|]. simpl in Hn. lia.
Qed.

Lemma filter_all {A} (P : A → Prop) `{∀ x, Decision (P x)} (l : list A) :
  Forall P l → filter P l = l.
Proof.
  induction 1 as [|x l Hx _ IH]; [done|].
  rewrite filter_cons. destruct (decide (P x)); [by rewrite IH|done].
Qed.

Lemma window_none n manifest : n ≤ 1 → window n manifest = [].
Proof. intros Hn. unfold window. by destruct (Z.ltb_spec 0 (n - 1)); [lia|]. Qed.

(** X1. The physical view. When the versions folder exists, the ledger built
    on it has a physical view, and its [dirlist] holds exactly the names of
    the directories directly under that folder: a name is listed if and
    only if it is a single path component other than [.] and [..] whose
    path under the folder is a directory of the disk. Regular files are
    never listed. *)
Theorem physical_view_lists_the_subdirectories (tgt_path : string) (w : World) (x : string) :
  starts_with_slash (cwd w) = true →
  os_path_isdir w (abspath w tgt_path) = true →
  pview (cversions.init tgt_path w) = true ∧
  (x ∈ dirlist (cversions.init tgt_path w) ↔
   is_name x = true ∧ x ≠ "." ∧ x ≠ ".." ∧
   os_path_join (abspath w tgt_path) x ∈ dirs (disk w)).
Proof.
  intros Hcwd Hdir. rewrite init_eq. simpl. rewrite Hdir. simpl. split; [done|].
  assert (Habs : starts_with_slash (abspath w tgt_path) = true) by by apply abspath_absolute.
  set (d := abspath w tgt_path) in *.
  assert (Hj : ∀ f, abspath w (os_path_join d f) = os_path_join d f).
  { intros f. apply abspath_of_absolute. by apply join_absolute. }
  rewrite list_elem_of_filter. unfold os_path_isdir at 1. rewrite Hj.
  rewrite bool_decide_eq_true. unfold os_listdir. rewrite list_elem_of_omap.
  rewrite (abspath_of_absolute w d Habs). split.
  - intros [[Hin Hne] (p & _ & [-> Hn]%child_name_Some)]. repeat split; try done.
    all: intros ->; apply Hne; auto.
  - intros (Hn & H1 & H2 & Hin). split; [split; [done|by intros [?|?]]|].
    exists (os_path_join d x). split; [apply elem_of_app; by left|by apply child_name_join].
Qed.

Lemma physical_view_lists_the_subdirectories_witness :
  pview (ledger_of world_B) = true ∧
  ("3" ∈ dirlist (ledger_of world_B) ↔
   is_name "3" = true ∧ "3" ≠ "." ∧ "3" ≠ ".." ∧
   os_path_join (abspath world_B "/bu/versions") "3" ∈ dirs (disk world_B)).
Proof.
  apply (physical_view_lists_the_subdirectories "/bu/versions" world_B "3"); reflexivity.
Defined.

(** X2. A ledger built on a versions folder that does not exist is not
    ready: it has no physical view and an empty [dirlist]; [sanify] returns
    1 after its message, [prune] returns 1, [new_ver_dirs] returns the
    empty list and [new_version] the placeholder path [INVALID_STATE];
    none of them changes the ledger or the disk. *)
Theorem missing_versions_folder_is_refused
    (env : Env) (tgt_path : string) (w : World) (num_versions : Z) (manifest : list string) :
  os_path_isdir w (abspath w tgt_path) = false →
  let v := cversions.init tgt_path w in
  pview v = false ∧ dirlist v = [] ∧
  sanify num_versions manifest v w
  = (Ret 1, v, w, [Message ("No physical view for <" +:+ abspath w tgt_path +:+ "> was found.")]) ∧
  prune env v w
  = (Ret 1, v, w, [Message "The prune() method was invoked in an invalid state."]) ∧
  new_ver_dirs v w = (Ret [], v, w, []) ∧
  new_version v w = (Ret (os_path_join (abspath w tgt_path) "INVALID_STATE"), v, w, []).
Proof.
  intros Hdir v. unfold v. rewrite init_eq. simpl. rewrite Hdir.
  split; [done|]. split; [done|]. split; [by rewrite sanify_eq|].
  split; [by rewrite prune_eq|]. done.
Qed.

Lemma missing_versions_folder_is_refused_witness :
  let v := cversions.init "/nowhere" world_A in
  pview v = false ∧ dirlist v = [] ∧
  sanify 3 ["1"] v world_A
  = (Ret 1, v, world_A, [Message "No physical view for </nowhere> was found."]) ∧
  prune env_quiet v world_A
  = (Ret 1, v, world_A, [Message "The prune() method was invoked in an invalid state."]) ∧
  new_ver_dirs v world_A = (Ret [], v, world_A, []) ∧
  new_version v world_A = (Ret "/nowhere/INVALID_STATE", v, world_A, []).
Proof.
  apply (missing_versions_folder_is_refused env_quiet "/nowhere" world_A 3 ["1"]).
  reflexivity.
Defined.

(** X3. The internal error of [sanify] can be reached. When the physical
    view matches the manifest but the successor of the latest manifest
    entry is itself listed (the manifest is not in increasing order), the
    next version directory exists already: [sanify] returns 3 after its
    message, the ledger is not marked sane, so [new_ver_dirs] returns the
    empty list and [prune] refuses with 1. *)
Theorem listed_successor_is_an_internal_error
    (env : Env) (tgt_path : string) (w : World) (num_versions : Z) (manifest : list string)
    (latest : string) (k : Z) :
  let v := cversions.init tgt_path w in
  pview v = true →
  (∀ x, x ∈ dirlist v ↔ x ∈ manifest) →
  last manifest = Some latest →
  py_int latest = Some k →
  py_str (k + 1) ∈ manifest →
  ∃ v',
    sanify num_versions manifest v w
    = (Ret 3, v', w,
       [Message ("Internal error: did not expect <"
                 +:+ os_path_join (verdir v) (py_str (k + 1)) +:+ "> to exist ...")]) ∧
    sane v' = false ∧
    new_ver_dirs v' w = (Ret [], v', w, []) ∧
    prune env v' w
    = (Ret 1, v', w, [Message "The prune() method was invoked in an invalid state."]).
Proof.
  intros v Hp Hc Hl Hk Hin.
  pose proof (init_fresh tgt_path w) as (Hs & _ & _). fold v in Hs.
  assert (Hd : os_path_isdir w (os_path_join (verdir v) (py_str (k + 1))) = true).
  { apply dirlist_isdir. by apply Hc. }
  rewrite sanify_consistent, Hl, Hk by done. unfold settle. rewrite Hd.
  eexists. split; [done|]. split; [done|]. split.
  - unfold new_ver_dirs. run. simpl. rewrite Hs. by run.
  - rewrite prune_eq. simpl. by rewrite Hs.
Qed.

Lemma listed_successor_is_an_internal_error_witness :
  ∃ v',
    sanify 3 ["2"; "1"] (ledger_of world_C) world_C
    = (Ret 3, v', world_C,
       [Message ("Internal error: did not expect <"
                 +:+ os_path_join (verdir (ledger_of world_C)) (py_str (1 + 1))
                 +:+ "> to exist ...")]) ∧
    sane v' = false ∧
    new_ver_dirs v' world_C = (Ret [], v', world_C, []) ∧
    prune env_quiet v' world_C
    = (Ret 1, v', world_C, [Message "The prune() method was invoked in an invalid state."]).
Proof.
  apply (listed_successor_is_an_internal_error env_quiet "/bu/versions" world_C 3
           ["2"; "1"] "1" 1).
  - reflexivity.
  - intros x. change (dirlist (cversions.init "/bu/versions" world_C)) with ["1"; "2"].
    rewrite !elem_of_cons, !elem_of_nil. tauto.
  - reflexivity.
  - reflexivity.
  - apply (bool_decide_unpack _). vm_compute. exact I.
Defined.

Lemma settle_only_reports ks newest v w :
  let x := settle ks newest v w in
  x.1.2 = w ∧ Forall (λ e, ∃ s, e = Message s) (trace_of x) ∧
  verdir (self_of x) = verdir v ∧ pview (self_of x) = pview v ∧
  dirlist (self_of x) = dirlist v ∧ pruned (self_of x) = pruned v ∧
  (sane (self_of x) = true ↔ sane v = true ∨ x.1.1.1 = Ret 0).
Proof.
  unfold settle. destruct (os_path_isdir w _); simpl.
  - split; [done|]. split; [repeat constructor; by eexists|].
    do 4 (split; [done|]). unfold self_of; simpl; split; [by left|by intros [?|?]].
  - do 6 (split; [done|]). split; [by right|done].
Qed.

(** X4. Whatever its arguments, [sanify] never touches the world: the disk
    and the process state are unchanged, every event of its trace is a
    message, and the folder, the physical view and the pruned flag of the
    ledger are as before. The ledger is sane afterwards exactly when it was
    sane before or [sanify] returned 0. *)
Theorem sanify_only_reports (num_versions : Z) (manifest : list string)
    (v : C_versions) (w : World) :
  let x := sanify num_versions manifest v w in
  x.1.2 = w ∧ Forall (λ e, ∃ s, e = Message s) (trace_of x) ∧
  verdir (self_of x) = verdir v ∧ pview (self_of x) = pview v ∧
  dirlist (self_of x) = dirlist v ∧ pruned (self_of x) = pruned v ∧
  (sane (self_of x) = true ↔ sane v = true ∨ x.1.1.1 = Ret 0).
Proof.
  assert (Hbad : ∀ us ms,
    let x : outcome Z * C_versions * World * list event :=
      (Ret 2, v, w, (Message ∘ on_disk_unlisted <$> us) ++ (Message ∘ listed_missing <$> ms)
                    ++ [Message "mismatched physical vs. logical versions ..."]) in
    x.1.2 = w ∧ Forall (λ e, ∃ s, e = Message s) (trace_of x) ∧
    verdir (self_of x) = verdir v ∧ pview (self_of x) = pview v ∧
    dirlist (self_of x) = dirlist v ∧ pruned (self_of x) = pruned v ∧
    (sane (self_of x) = true ↔ sane v = true ∨ x.1.1.1 = Ret 0)).
  { intros us ms. simpl. split; [done|]. split.
    2: { do 4 (split; [done|]). unfold self_of; simpl; split; [by left|by intros [?|?]]. }
    unfold trace_of. simpl. rewrite !Forall_app. repeat split.
    - apply Forall_fmap, Forall_true. intros ?. by eexists.
    - apply Forall_fmap, Forall_true. intros ?. by eexists.
    - repeat constructor. by eexists. }
  rewrite sanify_eq. destruct (pview v) eqn:Hp; simpl.
  2: { split; [done|]. split; [repeat constructor; by eexists|].
       do 4 (split; [done|]). unfold self_of; simpl; split; [by left|by intros [?|?]]. }
  destruct (filter _ (dirlist v)) as [|u us] eqn:Hu.
  2: { apply (Hbad (u :: us)). }
  destruct (filter _ manifest) as [|m ms] eqn:Hm.
  2: { apply (Hbad [] (m :: ms)). }
  destruct (last manifest) as [latest|].
  - destruct (py_int latest).
    + pose proof (settle_only_reports (window num_versions manifest ++ [py_str (z + 1)])
                    (py_str (z + 1)) v w) as H. simpl in H. by rewrite Hp in H.
    + simpl. do 6 (split; [done|]). unfold self_of; simpl; split; [by left|by intros [?|?]].
  - pose proof (settle_only_reports (window num_versions manifest ++ ["1"]) "1" v w) as H.
    simpl in H. by rewrite Hp in H.
Qed.

(** X5. When the manifest has fewer entries than the number of versions to
    keep, the [prune] that follows a successful [sanify] removes nothing:
    it issues no command, leaves the world as it is and returns 0. *)
Theorem short_manifest_is_not_pruned
    (env : Env) (num_versions : Z) (manifest : list string)
    (v0 v : C_versions) (w0 w1 w : World) (t1 : list event) :
  sanify num_versions manifest v0 w0 = (Ret 0, v, w1, t1) →
  pruned v0 = false →
  Z.of_nat (length manifest) ≤ num_versions - 1 →
  prune env v w = (Ret 0, set_pruned v, w, []).
Proof.
  intros (Hp & Hc & -> & -> & nextId & -> & Hd & Hnext)%sanify_success Hpr Hlen.
  rewrite prune_eq. simpl. rewrite Hpr. simpl. rewrite window_short by done.
  replace (filter (λ x, x ∉ manifest ++ [nextId]) (dirlist v0)) with (@nil string); [done|].
  symmetry. apply filter_nil_Forall, Forall_forall. intros x Hx Hn. apply Hn.
  apply elem_of_app. left. by apply Hc.
Qed.

Lemma short_manifest_is_not_pruned_witness :
  prune env_failing (sanify 3 ["7"] (ledger_of world_D) world_D).1.1.2 world_D
  = (Ret 0, set_pruned (sanify 3 ["7"] (ledger_of world_D) world_D).1.1.2, world_D, []).
Proof.
  apply (short_manifest_is_not_pruned env_failing 3 ["7"] (ledger_of world_D) _
           world_D world_D world_D []).
  - vm_compute. reflexivity.
  - reflexivity.
  - simpl. lia.
Defined.

(** X6. With a number of versions to keep of 1 or less (also 0 or a
    negative number), a successful [sanify] retains the next identifier
    only, and the [prune] that follows hands the shell, for every version
    of the physical view and in order, the command [rm -rf] followed by the
    path of the version directory between double quotes. *)
Theorem keeping_one_version_prunes_every_old_one
    (env : Env) (tgt_path : string) (w : World) (num_versions : Z) (manifest : list string)
    (v : C_versions) (w1 : World) (t1 : list event) :
  num_versions ≤ 1 →
  sanify num_versions manifest (cversions.init tgt_path w) w = (Ret 0, v, w1, t1) →
  ∃ nextId w2 tr,
    new_ver_dirs v w = (Ret [nextId], v, w, []) ∧
    prune env v w = (Ret 0, set_pruned v, w2, tr) ∧
    commands tr
    = (λ x, "rm -rf " +:+ dquote +:+ os_path_join (abspath w tgt_path) x +:+ dquote)
      <$> dirlist v ∧
    (∀ x, x ∈ dirlist v ↔ x ∈ manifest).
Proof.
  intros Hn Hrun.
  pose proof Hrun as (Hp & Hc & -> & -> & nextId & -> & Hd & Hnext)%sanify_success.
  pose proof (init_fresh tgt_path w) as (_ & Hpr & Hv).
  rewrite window_none by done. simpl.
  exists nextId. eexists _, _. split; [by apply new_ver_dirs_sane|].
  rewrite prune_eq. simpl. rewrite Hpr. simpl. split; [done|].
  split; [|done]. rewrite commands_run_commands.
  rewrite (filter_all (λ x, x ∉ [nextId])).
  - unfold rm_command. simpl. by rewrite Hv.
  - apply Forall_forall. intros x Hx [->|[]%elem_of_nil]%elem_of_cons.
    apply dirlist_isdir in Hx. congruence.
Qed.

Lemma keeping_one_version_prunes_every_old_one_witness :
  ∃ nextId w2 tr,
    new_ver_dirs ledger_D world_D = (Ret [nextId], ledger_D, world_D, []) ∧
    prune env_failing ledger_D world_D = (Ret 0, set_pruned ledger_D, w2, tr) ∧
    commands tr = ["rm -rf " +:+ dquote +:+ "/bu/versions/7" +:+ dquote] ∧
    (∀ x, x ∈ dirlist ledger_D ↔ x ∈ ["7"]).
Proof.
  apply (keeping_one_version_prunes_every_old_one env_failing "/bu/versions" world_D 1
           ["7"] ledger_D world_D []); [lia | vm_compute; reflexivity].
Defined.

(** X7. A ledger is pruned once: after a [prune] that returned 0, any
    further [prune] on the resulting ledger returns 2 after its message,
    issues no command and changes nothing. *)
Theorem second_prune_is_refused
    (env : Env) (v v1 : C_versions) (w w1 : World) (t1 : list event) :
  prune env v w = (Ret 0, v1, w1, t1) →
  ∀ env' w2,
    prune env' v1 w2
    = (Ret 2, v1, w2, [Message "The prune() method was invoked multiple times..."]).
Proof.
  rewrite prune_eq. intros Hrun env' w2.
  destruct (sane v) eqn:Hs; simpl in Hrun; [|done].
  destruct (pruned v) eqn:Hp; simpl in Hrun; [done|].
  assert (v1 = set_pruned v) as ->.
  { destruct (keepers v); [congruence|]. destruct (dirlist v); congruence. }
  rewrite prune_eq. simpl. by rewrite Hs.
Qed.

Lemma second_prune_is_refused_witness :
  prune env_quiet (set_pruned ledger_D) world_A
  = (Ret 2, set_pruned ledger_D, world_A,
     [Message "The prune() method was invoked multiple times..."]).
Proof.
  apply (second_prune_is_refused env_failing ledger_D (set_pruned ledger_D) world_D world_D
           [Message (rm_command ledger_D "7"); OsSystem (rm_command ledger_D "7") 256]).
  vm_compute. reflexivity.
Defined.

(** ** More on the lock *)

Lemma fresh_fd_fresh w : fresh_fd w ∉ fds w.
Proof.
  unfold fresh_fd. intros Hin.
  assert (H : ∀ l x, x ∈ l → x ≤ foldr Z.max 2 l).
  { induction l as [|y l IH]; intros x; [by intros ?%elem_of_nil|].
    intros [->|Hx]%elem_of_cons; simpl; [lia|]. specialize (IH x Hx). lia. }
  specialize (H _ _ Hin). lia.
Qed.

Lemma abspath_cwd w w' p : cwd w' = cwd w → abspath w' p = abspath w p.
Proof. unfold abspath. by intros ->. Qed.

(** The world once the marker [p] was created under the descriptor [d]. *)
Lemma wait_free env s w maxtries :
  os_path_isdir w (sem_path s) = true →
  2 ≤ maxtries →
  exists_on (disk w) (abspath w (sem_name s)) = false →
  has_parent (disk w) (abspath w (sem_name s)) = true →
  wait env maxtries s w
  = (Ret false, csemaphore.mk (sem_name s) (sem_path s) true (Some (fresh_fd w)),
     mkWorld (mkDisk (dirs (disk w)) (files (disk w) ++ [abspath w (sem_name s)]))
             (cwd w) (fresh_fd w :: fds w) (now w),
     [OsOpen (sem_name s) (Some (fresh_fd w))]).
Proof.
  intros Hdir Hmax Hfree Hpar. unfold wait. run. rewrite Hdir. simpl.
  rewrite bind_run.
  destruct (Z.to_nat (maxtries - 1)) as [|fuel] eqn:Hfuel; [lia|].
  simpl. destruct (Z.ltb_spec 1 maxtries); [|lia]. run.
  rewrite bind_run, run_os_open_excl, Hfree, Hpar. simpl. run.
  destruct fuel; simpl; by run.
Qed.

(** X8. [wait] gives up at once, without a single attempt to create the
    marker, when the directory of the lock does not exist, and also when
    [maxtries] is 1 or less, even if the lock is free: it returns [True]
    and leaves the object and the world as they are. *)
Theorem wait_gives_up_without_trying (env : Env) (s : C_semaphore) (w : World) (maxtries : Z) :
  os_path_isdir w (sem_path s) = false ∨ maxtries ≤ 1 →
  wait env maxtries s w = (Ret true, s, w, []).
Proof.
  intros H. unfold wait. run. destruct (os_path_isdir w (sem_path s)); simpl; [|done].
  destruct H as [|H]; [done|]. rewrite bind_run.
  replace (Z.to_nat (maxtries - 1)) with 0%nat by lia. simpl.
  destruct (Z.ltb_spec 1 maxtries); [lia|]. by run.
Qed.

Lemma wait_gives_up_without_trying_witness :
  wait env_quiet 1 (csemaphore.init "/bu" "buver.lock" world_A) world_A
  = (Ret true, csemaphore.init "/bu" "buver.lock" world_A, world_A, []).
Proof.
  apply (wait_gives_up_without_trying env_quiet (csemaphore.init "/bu" "buver.lock" world_A)
           world_A 1).
  right. lia.
Defined.

(** X9. A free lock is acquired at the first attempt and released again.
    When the directory exists and the marker does not, [wait] (with
    [maxtries] of at least 2) creates the marker without sleeping and
    returns [False] with the semaphore held; the [signal] that follows
    closes the descriptor, removes the marker and restores the world
    exactly as it was, so that any instance on the same marker can then
    acquire the lock. *)
Theorem free_lock_is_acquired_and_released
    (env : Env) (s : C_semaphore) (w : World) (maxtries : Z) :
  os_path_isdir w (sem_path s) = true →
  2 ≤ maxtries →
  exists_on (disk w) (abspath w (sem_name s)) = false →
  has_parent (disk w) (abspath w (sem_name s)) = true →
  ∃ d s1 w1 s2,
    wait env maxtries s w = (Ret false, s1, w1, [OsOpen (sem_name s) (Some d)]) ∧
    sem_locked s1 = true ∧ os_path_isfile w1 (sem_name s) = true ∧
    signal s1 w1 = (Ret false, s2, w, [OsClose d true; OsRemove (sem_name s) true]) ∧
    sem_locked s2 = false ∧
    ∀ s', sem_name s' = sem_name s → sem_path s' = sem_path s →
      ∃ s1' w1' t', wait env maxtries s' w = (Ret false, s1', w1', t').
Proof.
  intros Hdir Hmax Hfree Hpar.
  eexists _, _, _, _. split; [by apply wait_free|]. split; [done|].
  assert (Hnew : abspath w (sem_name s) ∉ files (disk w)).
  { intros Hin. by rewrite exists_on_file in Hfree. }
  split; [|split; [|split]].
  - unfold os_path_isfile, abspath. simpl. apply bool_decide_eq_true_2.
    apply elem_of_app. right. by apply list_elem_of_singleton.
  - unfold signal. run. rewrite bind_run, run_os_close. simpl.
    rewrite bool_decide_eq_true_2 by (by left). run.
    rewrite bind_run, run_os_remove.
    unfold abspath at 1 2. simpl. fold (abspath w (sem_name s)).
    rewrite bool_decide_eq_true_2 by (apply elem_of_app; right; by apply list_elem_of_singleton).
    run. unfold with_disk. simpl.
    rewrite (abspath_cwd w) by done.
    rewrite filter_cons_False by (intros H; by apply H).
    rewrite (filter_all (λ x, x ≠ fresh_fd w))
      by (apply Forall_forall; intros x Hx ->; by apply (fresh_fd_fresh w)).
    rewrite filter_app, filter_all by (apply Forall_forall; by intros x Hx ->).
    rewrite filter_cons_False by (intros H; by apply H). rewrite filter_nil, app_nil_r.
    by destruct w as [[??]???].
  - done.
  - intros s' Hn Hp. eexists _, _, _. apply wait_free; by rewrite ?Hn, ?Hp.
Qed.

Lemma free_lock_is_acquired_and_released_witness :
  let s := csemaphore.init "/bu" "buver.lock" world_A in
  ∃ d s1 w1 s2,
    wait env_quiet 120 s world_A = (Ret false, s1, w1, [OsOpen (sem_name s) (Some d)]) ∧
    sem_locked s1 = true ∧ os_path_isfile w1 (sem_name s) = true ∧
    signal s1 w1 = (Ret false, s2, world_A, [OsClose d true; OsRemove (sem_name s) true]) ∧
    sem_locked s2 = false ∧
    ∀ s', sem_name s' = sem_name s → sem_path s' = sem_path s →
      ∃ s1' w1' t', wait env_quiet 120 s' world_A = (Ret false, s1', w1', t').
Proof.
  intros s.
  apply (free_lock_is_acquired_and_released env_quiet s world_A 120);
    [reflexivity | lia | reflexivity | reflexivity].
Defined.

Lemma failed_tries_silent s n : silent is_acquire (mjoin (replicate n (failed_try s))).
Proof.
  unfold silent. induction n as [|n IH]; [by constructor|].
  simpl. do 2 (constructor; [done|]). exact IH.
Qed.

(** X10. Mutual exclusion. Once an instance has acquired the lock, a
    [wait] of a second instance on the same marker never creates it: as
    long as nobody removes the marker, every attempt fails and [wait]
    returns [True] with the second instance unchanged. *)
Theorem held_lock_excludes_a_second_instance
    (env : Env) (s s' : C_semaphore) (w : World) (maxtries maxtries' : Z) :
  os_path_isdir w (sem_path s) = true →
  2 ≤ maxtries →
  exists_on (disk w) (abspath w (sem_name s)) = false →
  has_parent (disk w) (abspath w (sem_name s)) = true →
  sem_name s' = sem_name s →
  sem_path s' = sem_path s →
  (∀ t d, abspath w (sem_name s) ∈ files d → abspath w (sem_name s) ∈ files (others env t d)) →
  ∃ s1 w1 t1 w2 t2,
    wait env maxtries s w = (Ret false, s1, w1, t1) ∧
    wait env maxtries' s' w1 = (Ret true, s', w2, t2) ∧
    silent is_acquire t2 ∧
    t2 = mjoin (replicate (Z.to_nat (maxtries' - 1)) (failed_try s')).
Proof.
  intros Hdir Hmax Hfree Hpar Hn Hp Hkeep.
  eexists _, _, _. rewrite wait_free by done.
  set (w1 := mkWorld _ _ _ _).
  assert (Hin : abspath w1 (sem_name s') ∈ files (disk w1)).
  { rewrite Hn, (abspath_cwd w) by done. simpl.
    apply elem_of_app. right. by apply list_elem_of_singleton. }
  assert (Hkeep' : ∀ t d, abspath w1 (sem_name s') ∈ files d
                          → abspath w1 (sem_name s') ∈ files (others env t d)).
  { intros t d. rewrite Hn, (abspath_cwd w) by done. apply Hkeep. }
  destruct (wait_loop_held env s' maxtries' (Z.to_nat (maxtries' - 1)) 1 w1 Hin Hkeep')
    as (w2 & Hrun & _); [lia|].
  exists w2. eexists. split; [done|].
  assert (Hwait : wait env maxtries' s' w1
                  = (Ret true, s', w2, mjoin (replicate (Z.to_nat (maxtries' - 1)) (failed_try s')))).
  { unfold wait. run. rewrite Hp. change (os_path_isdir w1 (sem_path s)) with
      (os_path_isdir w (sem_path s)). rewrite Hdir. simpl. rewrite bind_run, Hrun. by run. }
  split; [exact Hwait|]. split; [|done].
  apply failed_tries_silent.
Qed.

Lemma held_lock_excludes_a_second_instance_witness :
  let s := csemaphore.init "/bu" "buver.lock" world_A in
  ∃ s1 w1 t1 w2 t2,
    wait env_quiet 120 s world_A = (Ret false, s1, w1, t1) ∧
    wait env_quiet 3 s w1 = (Ret true, s, w2, t2) ∧
    silent is_acquire t2 ∧
    t2 = mjoin (replicate (Z.to_nat (3 - 1)) (failed_try s)).
Proof.
  intros s.
  apply (held_lock_excludes_a_second_instance env_quiet s s world_A 120 3);
    [reflexivity | lia | reflexivity | reflexivity | reflexivity | reflexivity |].
  intros t d H. exact H.
Defined.

(** X11. [signal] on a held semaphore absorbs the failures of the system
    calls: whether or not the descriptor can be closed and the marker
    removed, it does not raise, prints one line for each call that failed,
    returns [False] and leaves the semaphore not held. A call that
    succeeded has had its effect: the descriptor is no longer open, the
    marker is no longer on disk. The directories of the disk are as
    before. *)
Theorem signal_absorbs_failures (s : C_semaphore) (w : World) (d : Z) :
  sem_locked s = true →
  fd s = Some d →
  ∃ closed removed w',
    signal s w
    = (Ret false, csemaphore.mk (sem_name s) (sem_path s) false (Some d), w',
       OsClose d closed
       :: ((if closed then [] else [Print "Internal failure during semaphore release - close"])
           ++ (OsRemove (sem_name s) removed
               :: (if removed then []
                   else [Print "Internal failure during semaphore release - remove"]))))
    ∧ (closed = true → d ∉ fds w')
    ∧ (removed = true → os_path_isfile w' (sem_name s) = false)
    ∧ dirs (disk w') = dirs (disk w).
Proof.
  intros Hl Hd.
  exists (bool_decide (d ∈ fds w)), (bool_decide (abspath w (sem_name s) ∈ files (disk w))).
  set (closed := bool_decide (d ∈ fds w)).
  set (removed := bool_decide (abspath w (sem_name s) ∈ files (disk w))).
  destruct s as [name path locked descriptor]. simpl in Hl, Hd, closed, removed. subst.
  unfold signal. run.
  rewrite bind_run, run_os_close. fold closed.
  assert (Hfds : ∀ l : list Z, d ∉ filter (λ x, x ≠ d) l).
  { intros l [Hne _]%list_elem_of_filter. by apply Hne. }
  assert (Hfiles : ∀ (p : string) (l : list string), p ∉ filter (λ x, x ≠ p) l).
  { intros p l [Hne _]%list_elem_of_filter. by apply Hne. }
  destruct closed eqn:Hc; run; rewrite bind_run, run_os_remove.
  - rewrite (abspath_cwd w) by done. simpl. fold removed.
    destruct removed eqn:Hr; run; eexists; (split; [reflexivity|]).
    + split; [intros _; apply Hfds|]. split; [|done]. intros _.
      unfold os_path_isfile. rewrite (abspath_cwd w) by done.
      apply bool_decide_eq_false_2. apply Hfiles.
    + split; [intros _; apply Hfds|]. split; [|done]. done.
  - fold removed.
    destruct removed eqn:Hr; run; eexists; (split; [reflexivity|]).
    + split; [done|]. split; [|done]. intros _.
      unfold os_path_isfile. rewrite (abspath_cwd w) by done.
      apply bool_decide_eq_false_2. apply Hfiles.
    + split; [done|]. split; [|done]. done.
Qed.

Lemma signal_absorbs_failures_witness :
  let s := csemaphore.mk "/bu/buver.lock" "/bu" true (Some 3) in
  ∃ closed removed w',
    signal s world_locked
    = (Ret false, csemaphore.mk "/bu/buver.lock" "/bu" false (Some 3), w',
       OsClose 3 closed
       :: ((if closed then [] else [Print "Internal failure during semaphore release - close"])
           ++ (OsRemove "/bu/buver.lock" removed
               :: (if removed then []
                   else [Print "Internal failure during semaphore release - remove"]))))
    ∧ (closed = true → 3 ∉ fds w')
    ∧ (removed = true → os_path_isfile w' "/bu/buver.lock" = false)
    ∧ dirs (disk w') = dirs (disk world_locked).
Proof.
  intros s.
  apply (signal_absorbs_failures s world_locked 3); reflexivity.
Defined.

(** ** More on the workflow *)

Lemma check_dir_loop (b : C_buver) (w : World) (dir : string) (l : list string) (dc fc : Z) :
  for_each l (λ '(dircount, filecount) f,
      if os_path_isdir w (os_path_join dir f) then
        if bool_decide (f = "." ∨ f = "..") then ret (dircount, filecount)
        else ret (dircount + 1, filecount)
      else ret (dircount, filecount + 1)) (dc, fc) b w
  = (Ret (dc + Z.of_nat (length (filter (λ f, os_path_isdir w (os_path_join dir f) = true
                                               ∧ ¬ (f = "." ∨ f = "..")) l)),
          fc + Z.of_nat (length (filter (λ f, os_path_isdir w (os_path_join dir f) = false) l))),
     b, w, []).
Proof.
  revert dc fc. induction l as [|f l IH]; intros dc fc.
  - simpl. rewrite !Z.add_0_r. done.
  - cbn [for_each]. rewrite bind_run. rewrite !filter_cons.
    destruct (os_path_isdir w (os_path_join dir f)) eqn:Hd.
    + rewrite (decide_False (P := true = false)) by done.
      destruct (bool_decide_reflect (f = "." ∨ f = "..")) as [Hdot|Hdot].
      * rewrite decide_False by (by intros [_ ?]). rewrite run_ret, prepend_nil. apply IH.
      * rewrite decide_True by done. rewrite run_ret, prepend_nil, IH. simpl length.
        by rewrite Nat2Z.inj_succ, <- Z.add_1_l, Z.add_assoc.
    + rewrite decide_False by (by intros [? _]). rewrite decide_True by done.
      rewrite run_ret, prepend_nil, IH. simpl length.
      by rewrite Nat2Z.inj_succ, <- Z.add_1_l, Z.add_assoc.
Qed.

Lemma check_dir_eq (dir : string) (b : C_buver) (w : World) :
  if os_path_isdir w dir then
    ∃ dc fc,
      check_dir dir b w = (Ret (dc, fc), b, w, []) ∧
      dc = Z.of_nat (length (filter (λ f, os_path_isdir w (os_path_join dir f) = true
                                          ∧ ¬ (f = "." ∨ f = "..")) (os_listdir w dir))) ∧
      fc = Z.of_nat (length (filter (λ f, os_path_isdir w (os_path_join dir f) = false)
                                    (os_listdir w dir))) ∧
      (os_listdir w dir = [] → dc = 0 ∧ fc = 0) ∧
      (dc = 0 ∧ fc = 0 → ∀ f, f ∈ os_listdir w dir → f = "." ∨ f = "..")
  else check_dir dir b w = (Ret (-1, -1), b, w, []).
Proof.
  unfold check_dir. run. destruct (os_path_isdir w dir); simpl; [|done].
  rewrite check_dir_loop. eexists _, _. split; [done|]. split; [done|]. split; [done|].
  split.
  - by intros ->.
  - intros [Hdc Hfc] f Hf.
    assert (H1 : filter (λ f, os_path_isdir w (os_path_join dir f) = true
                              ∧ ¬ (f = "." ∨ f = "..")) (os_listdir w dir) = []).
    { apply length_zero_iff_nil. lia. }
    assert (H2 : filter (λ f, os_path_isdir w (os_path_join dir f) = false)
                        (os_listdir w dir) = []).
    { apply length_zero_iff_nil. lia. }
    apply filter_nil_Forall in H1, H2. rewrite Forall_forall in H1, H2.
    specialize (H1 f Hf). specialize (H2 f Hf).
    destruct (decide (f = "." ∨ f = "..")) as [|Hn]; [done|].
    exfalso. apply H1. split; [|done]. by destruct (os_path_isdir w (os_path_join dir f)).
Qed.

(** X12. [check_dir] returns (-1, -1) for a path that is not a directory.
    Otherwise it returns the number of entries that are directories, [.]
    and [..] apart, and the number of the other entries; both are 0
    exactly when the directory has no entry besides [.] and [..]. It never
    changes anything. *)
Theorem check_dir_counts_the_entries (dir : string) (b : C_buver) (w : World) :
  if os_path_isdir w dir then
    ∃ dc fc,
      check_dir dir b w = (Ret (dc, fc), b, w, []) ∧
      dc = Z.of_nat (length (filter (λ f, os_path_isdir w (os_path_join dir f) = true
                                          ∧ ¬ (f = "." ∨ f = "..")) (os_listdir w dir))) ∧
      fc = Z.of_nat (length (filter (λ f, os_path_isdir w (os_path_join dir f) = false)
                                    (os_listdir w dir))) ∧
      (dc = 0 ∧ fc = 0 ↔ ∀ f, f ∈ os_listdir w dir →
                           os_path_isdir w (os_path_join dir f) = true ∧ (f = "." ∨ f = ".."))
  else check_dir dir b w = (Ret (-1, -1), b, w, []).
Proof.
  pose proof (check_dir_eq dir b w) as H. destruct (os_path_isdir w dir); [|done].
  destruct H as (dc & fc & Hrun & Hdc & Hfc & _ & _).
  exists dc, fc. do 3 (split; [done|]). rewrite Hdc, Hfc.
  rewrite <- !Nat2Z.inj_0, !Nat2Z.inj_iff, !length_zero_iff_nil, !filter_nil_Forall.
  rewrite !Forall_forall. split.
  - intros [H1 H2] f Hf. specialize (H1 f Hf). specialize (H2 f Hf).
    destruct (os_path_isdir w (os_path_join dir f)); [|done]. split; [done|].
    destruct (decide (f = "." ∨ f = "..")); [done|]. exfalso. by apply H1.
  - intros H. split; intros f Hf; destruct (H f Hf) as [Hd Hn].
    + by intros [_ ?].
    + by rewrite Hd.
Qed.

Lemma same_but_logs_refl logs w : same_but_logs logs w w.
Proof. by split. Qed.

(** X13. [initialize] never touches a directory in use: when the target
    directory exists and has an entry, it returns 2 after one message and
    nothing else: it does not try to take the lock, creates no directory
    and writes no configuration. The directories of the disk, and its
    files outside the logs directory, are as before. [execute] in mode 0
    returns that 2, after its own message. *)
Theorem initialize_refuses_a_directory_in_use
    (env : Env) (b : C_buver) (w : World) (f : string) :
  cbuver.mode b = 0 →
  os_path_isdir w (cbuver.tgt_loc b) = true →
  f ∈ os_listdir w (cbuver.tgt_loc b) →
  ¬ (f = "." ∨ f = "..") →
  (∃ w',
     initialize env b w
     = (Ret 2, b, w',
        [Message ("Directory " +:+ cbuver.tgt_loc b
                  +:+ " is not empty ... cannot initialize directory")]) ∧
     same_but_logs (tgt_logs b) w w') ∧
  (∃ w',
     execute env b w
     = (Ret (Some 2), b, w',
        [Message ("Running " +:+ mode_str b +:+ " job on directory " +:+ cbuver.tgt_loc b);
         Message ("Directory " +:+ cbuver.tgt_loc b
                  +:+ " is not empty ... cannot initialize directory")]) ∧
     same_but_logs (tgt_logs b) w w').
Proof.
  intros Hmode Hdir Hf Hdot.
  assert (Hinit : initialize env b w
            = (Ret 2, b, w,
               [Message ("Directory " +:+ cbuver.tgt_loc b
                         +:+ " is not empty ... cannot initialize directory")])).
  { unfold initialize. run. rewrite bind_run.
    pose proof (check_dir_eq (cbuver.tgt_loc b) b w) as H. rewrite Hdir in H.
    destruct H as (dc & fc & -> & Hdc & Hfc & _ & Hz). simpl.
    assert (Hpos : 0 ≤ dc ∧ 0 ≤ fc) by lia.
    destruct (Z.eqb_spec dc (-1)); [lia|].
    destruct (decide (dc = 0 ∧ fc = 0)) as [Hzero|Hnz].
    { exfalso. by apply Hdot, (Hz Hzero). }
    replace ((0 <? dc) || (0 <? fc)) with true
      by (symmetry; apply orb_true_iff; rewrite !Z.ltb_lt; lia).
    by run. }
  split; exists w; (split; [|apply same_but_logs_refl]); [done|].
  unfold execute. run. rewrite Hmode. simpl. rewrite bind_run, Hinit. by run.
Qed.

Lemma initialize_refuses_a_directory_in_use_witness :
  let b := cbuver.init 0 "/bu" world_A in
  (∃ w',
     initialize env_quiet b world_A
     = (Ret 2, b, w',
        [Message "Directory /bu is not empty ... cannot initialize directory"]) ∧
     same_but_logs "/bu/logs" world_A w') ∧
  (∃ w',
     execute env_quiet b world_A
     = (Ret (Some 2), b, w',
        [Message "Running initialize job on directory /bu";
         Message "Directory /bu is not empty ... cannot initialize directory"]) ∧
     same_but_logs "/bu/logs" world_A w').
Proof.
  intros b.
  apply (initialize_refuses_a_directory_in_use env_quiet b world_A "logs").
  - reflexivity.
  - reflexivity.
  - apply (bool_decide_unpack _). vm_compute. exact I.
  - intros [H|H]; discriminate H.
Defined.

(** X14. In backup mode [execute] requires buver.conf: when the file is
    not in the target directory it returns 1 after its two messages and
    nothing else: it does not try to take the lock, runs no command and
    creates nothing. The directories of the disk, and its files outside
    the logs directory, are as before. *)
Theorem backup_needs_an_initialised_target (env : Env) (b : C_buver) (w : World) :
  cbuver.mode b ≠ 0 →
  os_path_isfile w (os_path_join (cbuver.tgt_loc b) "buver.conf") = false →
  ∃ w',
    execute env b w
    = (Ret (Some 1), b, w',
       [Message ("Running " +:+ mode_str b +:+ " job on directory " +:+ cbuver.tgt_loc b);
        Message ("Missing the buver.conf in the tgt_loc <" +:+ cbuver.tgt_loc b +:+ ">")]) ∧
    same_but_logs (tgt_logs b) w w'.
Proof.
  intros Hmode Hconf. exists w. split; [|apply same_but_logs_refl].
  unfold execute. run.
  destruct (Z.eqb_spec (cbuver.mode b) 0); [done|]. run. rewrite Hconf. by run.
Qed.

Lemma backup_needs_an_initialised_target_witness :
  let w := world_of ["/bu"; "/bu/logs"] [] in
  let b := cbuver.init 1 "/bu" w in
  ∃ w',
    execute env_quiet b w
    = (Ret (Some 1), b, w',
       [Message "Running backup job on directory /bu";
        Message "Missing the buver.conf in the tgt_loc </bu>"]) ∧
    same_but_logs "/bu/logs" w w'.
Proof.
  intros w b. apply (backup_needs_an_initialised_target env_quiet b w); [|reflexivity].
  intros H; discriminate H.
Defined.

(** X15. When the configuration cannot be loaded, [backup] returns 1 (the
    lock could not be taken) or 2 (the load failed), but [execute] does not
    return that code: [mailer] then reads [self.versions], which was never
    assigned, and [execute] ends with an uncaught [AttributeError]. *)
Theorem failed_load_ends_in_an_attribute_error (env : Env) (b : C_buver) (w : World) :
  cbuver.mode b ≠ 0 →
  os_path_isfile w (os_path_join (cbuver.tgt_loc b) "buver.conf") = true →
  versions b = None →
  (∀ w', ∃ rc d lv,
     conf_load env (os_path_join (cbuver.tgt_loc b) "buver.conf") w' = (Ret rc, d, lv)
     ∧ rc ≠ 0) →
  ∃ rc b1 w1 t1 b' w' t,
    backup env b w = (Ret (Some rc), b1, w1, t1) ∧ (rc = 1 ∨ rc = 2) ∧
    execute env b w = (Raise AttributeError, b', w', t).
Proof.
  intros Hmode Hconf Hv Hload.
  assert (Hmail : ∀ b0 w0, versions b0 = None →
            mailer env b0 w0 = (Raise AttributeError, b0, w0, [])).
  { intros b0 w0 Hb0. unfold mailer. rewrite bind_run.
    unfold on_versions, zoom_attr. by rewrite Hb0. }
  assert (Hexec : ∀ rc b1 w1 t1,
            backup env b w = (Ret (Some rc), b1, w1, t1) → versions b1 = None →
            execute env b w
            = (Raise AttributeError, b1, w1,
               Message ("Running " +:+ mode_str b +:+ " job on directory " +:+ cbuver.tgt_loc b)
               :: t1)).
  { intros rc b1 w1 t1 Hb Hb1. unfold execute. run.
    destruct (Z.eqb_spec (cbuver.mode b) 0); [done|]. run. rewrite Hconf. simpl.
    rewrite bind_run, Hb. simpl. rewrite bind_run, Hmail by done. simpl.
    rewrite !prepend_pair. by rewrite app_nil_r. }
  assert (Hbackup : ∃ rc b1 w1 t1,
            backup env b w = (Ret (Some rc), b1, w1, t1) ∧ (rc = 1 ∨ rc = 2) ∧
            versions b1 = None).
  { unfold backup. rewrite bind_run. unfold on_semaphore at 1, zoom.
    destruct (wait_cases env 120 (semaphore b) w) as (r0 & s' & w1 & t0 & -> & Hcases).
    simpl. destruct Hcases as [(-> & -> & _)|(-> & fd & t00 & -> & _ & ->)]; run.
    { eexists _, _, _, _. split; [done|]. split; [by left|done]. }
    set (b1 := cbuver.set_config _ _).
    rewrite bind_run, (on_config_run _ b1 w1 _ _ _ _ _ eq_refl (run_load _ _ _)).
    simpl conf_name.
    destruct (Hload w1) as (rc & d & lv & -> & Hrc). simpl.
    destruct (Z.eqb_spec rc 0); [done|]. simpl.
    set (b2 := cbuver.set_config _ b1).
    rewrite bind_run, (on_config_run _ b2 w1 _ _ _ _ _ eq_refl eq_refl). simpl. run.
    rewrite bind_run. unfold on_semaphore, zoom.
    destruct (signal_held (semaphore (cbuver.set_config
                (cbuconfig.mk (cbuver.tgt_loc b) (os_path_join (cbuver.tgt_loc b) "buver.conf")
                   d lv) b2)) w1 fd eq_refl eq_refl) as (w2 & ts & ok & Hsig & _).
    simpl in Hsig. simpl. rewrite Hsig. run.
    eexists _, _, _, _. split; [done|]. split; [by right|done]. }
  destruct Hbackup as (rc & b1 & w1 & t1 & Hb & Hrc & Hb1).
  exists rc, b1, w1, t1. eexists _, _, _. split; [done|]. split; [done|].
  by apply (Hexec rc).
Qed.

Lemma silent_weaken (E E' : event → bool) tr :
  (∀ e, E' e = true → E e = true) → silent E tr → silent E' tr.
Proof.
  intros HE Htr. unfold silent in *. eapply Forall_impl; [exact Htr|]. intros e He. simpl in *.
  destruct (E' e) eqn:He'; [|done]. apply HE in He'. congruence.
Qed.

Lemma backup_outcomes env b w :
  ∃ r b' w' tr, backup env b w = (r, b', w', tr) ∧ backup_post b r b' tr.
Proof.
  unfold backup.
  rewrite bind_run. unfold on_semaphore at 1, zoom.
  destruct (wait_cases env 120 (semaphore b) w) as (r0 & s' & w1 & t0 & Hw & Hcases).
  pose proof (avoids_wait is_change env 120 (λ _ _, eq_refl) eq_refl (semaphore b) w) as Ht0.
  unfold trace_of in Ht0. rewrite Hw in *. simpl in Ht0 |- *. clear Hw.
  destruct Hcases as [(-> & -> & Hacq)|(-> & fd & t00 & -> & _ & ->)]; run.
  2: apply Forall_app in Ht0 as [Ht00 _]; fold (silent is_change t00) in Ht00.
  { eexists _, _, _, _. split; [reflexivity|]. left. split; [done|]. split; [done|].
    split; silence. }
  set (s1 := csemaphore.mk _ _ _ _).
  set (b1 := cbuver.set_config _ _).
  rewrite bind_run, (on_config_run _ b1 w1 _ _ _ _ _ eq_refl (run_load _ _ _)).
  simpl conf_name. set (name := os_path_join (cbuver.tgt_loc b) "buver.conf").
  destruct (conf_load env name w1) as [[r1 dict] lv]. simpl.
  destruct r1 as [load_rc|e]; simpl; [|by eexists _, _, _, _].
  set (c1 := cbuconfig.mk _ _ _ _). set (b2 := cbuver.set_config c1 b1).
  destruct (load_rc =? 0); simpl.
  2:{ rewrite bind_run, (on_config_run _ b2 w1 _ _ _ _ _ eq_refl eq_refl). simpl. run.
      rewrite bind_run. unfold on_semaphore, zoom.
      pose proof (avoids_signal is_change (λ _ _, eq_refl) (λ _ _, eq_refl) (λ _, eq_refl)
                    s1 w1) as Hsig. unfold trace_of in Hsig.
      destruct (signal_held s1 w1 fd eq_refl eq_refl) as (w2 & ts & ok & Hs & _).
      simpl. rewrite Hs in *. simpl in *. run.
      eexists _, _, _, _. split; [reflexivity|]. right; left.
      split; [done|]. split; [done|]. silence. }
  destruct (reads_dump env c1 w1) as (rd & td & Hd).
  assert (Htd : silent is_change td).
  { assert (Ha : avoids is_change (dump env)) by quiet.
    specialize (Ha c1 w1). unfold trace_of in Ha. by rewrite Hd in Ha. }
  rewrite bind_run, (on_config_run _ b2 w1 _ _ _ _ _ eq_refl Hd).
  destruct rd as [[]|e]; [|by eexists _, _, _, _]. run.
  set (v0 := cversions.init (tgt_versions b) w1).
  set (b3 := cbuver.set_versions v0 _).
  pure_head; [|by eexists _, _, _, _]. pure_head; [|by eexists _, _, _, _]. run.
  destruct lv as [logical|]; run; [|by eexists _, _, _, _].
  destruct (sanify a0 logical v0 w1) as [[[rs v1] w2] ts] eqn:Hs.
  assert (Hts : silent is_change ts).
  { assert (Ha : avoids is_change (sanify a0 logical)) by quiet.
    specialize (Ha v0 w1). unfold trace_of in Ha. by rewrite Hs in Ha. }
  rewrite bind_run, (on_versions_run _ b3 w1 _ _ _ _ _ eq_refl Hs).
  destruct rs as [insane|e]; [|by eexists _, _, _, _]. simpl.
  destruct (Z.eqb_spec insane 0) as [->|Hne]; simpl.
  2:{ run. eexists _, _, _, _. split; [reflexivity|]. right; right; left.
      split; [done|]. split; [done|]. silence. }
  apply sanify_success in Hs as (Hp & Hc & -> & -> & nextId & -> & Hnd & Hnext).
  pose proof (init_fresh (tgt_versions b) w1) as (_ & Hpr & _). fold v0 in Hpr.
  set (v1 := cversions.mk _ _ _ _ _ _ _).
  set (b4 := cbuver.set_versions v1 b3).
  destruct (prune env v1 w1) as [[[rp v2] w2] tp] eqn:Hprune.
  assert (Htp : silent is_mkdir tp ∧ silent is_save tp).
  { split.
    - assert (Ha : avoids is_mkdir (prune env)) by quiet.
      specialize (Ha v1 w1). unfold trace_of in Ha. by rewrite Hprune in Ha.
    - assert (Ha : avoids is_save (prune env)) by quiet.
      specialize (Ha v1 w1). unfold trace_of in Ha. by rewrite Hprune in Ha. }
  destruct Htp as [Htp1 Htp2].
  rewrite bind_run, (on_versions_run _ b4 w1 _ _ _ _ _ eq_refl Hprune).
  rewrite prune_eq in Hprune. simpl in Hprune. rewrite Hpr in Hprune.
  injection Hprune as <- <- _ _. simpl.
  set (v2 := set_pruned v1). set (b5 := cbuver.set_versions v2 b4).
  set (d := os_path_join (verdir v0) nextId).
  rewrite bind_run,
    (on_versions_run _ b5 w2 _ _ _ _ _ eq_refl (new_version_sane v2 w2 d eq_refl eq_refl)).
  simpl. set (b6 := cbuver.set_versions v2 b5).
  unfold cbuver.mkdir at 1, os_mkdir. run.
  destruct (_ || _); run.
  { eexists _, _, _, _. split; [reflexivity|]. do 3 right; left.
    split; [done|]. split; [done|].
    split; silence; (eapply silent_weaken; [|eassumption]); by intros []. }
  set (w3 := with_disk _ w2).
  destruct (backup_version_cases env b6 w3) as (rb & w4 & tb & Hb & _ & _).
  rewrite bind_run, Hb. simpl.
  destruct rb as [failed|e]; [|by eexists _, _, _, _].
  set (kept := window a0 logical) in *.
  assert (Hfailed : ∃ tf, ∀ B (k : unit → M C_buver B) s w,
            ((if negb (failed =? 0)
              then message "failed during backup_version ... exiting ..." else ret tt)
             ≫= k) s w = prepend tf (k tt s w)).
  { exists (if negb (failed =? 0)
            then [Message "failed during backup_version ... exiting ..."] else []).
    intros B k s w0. destruct (negb (failed =? 0)); by run. }
  destruct Hfailed as [tf Hfailed]. rewrite Hfailed. clear Hfailed.
  rewrite bind_run,
    (on_versions_run _ b6 w4 _ _ _ _ _ eq_refl
       (new_ver_dirs_sane v2 w4 (kept ++ [nextId]) eq_refl eq_refl)).
  simpl. set (b7 := cbuver.set_versions v2 b6).
  unfold set_ver_dirs at 1.
  rewrite bind_run, (on_config_run _ b7 w4 c1 _ _ _ _ eq_refl (run_set_self _ _ _)).
  simpl. set (c2 := cbuconfig.set_config _ c1). set (b8 := cbuver.set_config c2 b7).
  destruct (run_save env 0 c2 w4) as (rc & w5 & ok & Hsave).
  rewrite bind_run, (on_config_run _ b8 w4 c2 _ _ _ _ eq_refl Hsave).
  simpl. set (b9 := cbuver.set_config c2 b8).
  destruct (negb (rc =? 0)); run.
  - eexists _, _, _, _. split; [reflexivity|]. do 4 right. by split.
  - rewrite bind_run. unfold on_semaphore, zoom.
    destruct (signal_held s1 w5 fd eq_refl eq_refl) as (w6 & ts & ok' & Hs & _).
    simpl. rewrite Hs. simpl. run.
    by eexists _, _, _, _.
Qed.

Lemma failed_load_ends_in_an_attribute_error_witness :
  let b := cbuver.init 1 "/bu" world_A in
  ∃ rc b1 w1 t1 b' w' t,
    backup env_unreadable b world_A = (Ret (Some rc), b1, w1, t1) ∧ (rc = 1 ∨ rc = 2) ∧
    execute env_unreadable b world_A = (Raise AttributeError, b', w', t).
Proof.
  intros b. apply (failed_load_ends_in_an_attribute_error env_unreadable b world_A).
  - intros H; discriminate H.
  - reflexivity.
  - reflexivity.
  - intros w'. exists 2, [], None. split; [reflexivity|lia].
Defined.

(** X16. The return codes of [backup]: whenever it returns a code, the code
    is 1, 2, 3, 5 or 6. In particular it never returns 4: [prune] cannot
    fail on the ledger that [sanify] has just validated. *)
Theorem backup_returns_1_2_3_5_6_or_nothing (env : Env) (b : C_buver) (w : World) :
  match (backup env b w).1.1.1 with
  | Ret (Some rc) => rc = 1 ∨ rc = 2 ∨ rc = 3 ∨ rc = 5 ∨ rc = 6
  | Ret None | Raise _ => True
  end.
Proof.
  destruct (backup_outcomes env b w) as (r & b' & w' & tr & -> & Hpost). simpl.
  destruct r as [[rc|]|]; [|done..]. unfold backup_post in Hpost. tauto.
Qed.

(** X17. An early failure changes nothing. When [backup] returns 1 (no
    lock), 2 (no configuration) or 3 (validation failed), its trace holds
    no shell command, no creation of a directory and no write of
    buver.conf. *)
Theorem early_failure_changes_nothing
    (env : Env) (b : C_buver) (w : World) (rc : Z) (b' : C_buver) (w' : World)
    (tr : list event) :
  backup env b w = (Ret (Some rc), b', w', tr) →
  rc = 1 ∨ rc = 2 ∨ rc = 3 →
  ∀ e, e ∈ tr →
    match e with
    | OsSystem _ _ | OsMkdir _ _ | ConfSave _ _ _ => False
    | _ => True
    end.
Proof.
  intros Hrun Hrc e He.
  destruct (backup_outcomes env b w) as (r & b1 & w1 & tr1 & Hrun' & Hpost).
  rewrite Hrun in Hrun'. injection Hrun' as <- <- <- <-.
  assert (Hs : silent is_change tr).
  { unfold backup_post in Hpost.
    destruct Hpost as [(_ & _ & _ & ?)|[(_ & _ & ?)|[(_ & _ & ?)|[(? & _)|(? & _)]]]];
      [done..|lia|lia]. }
  unfold silent in Hs. rewrite Forall_forall in Hs. specialize (Hs e He). by destruct e.
Qed.

Lemma early_failure_changes_nothing_witness :
  let x := backup (env_run 0 ["1"; "3"]) (cbuver.init 1 "/bu" world_run) world_run in
  x.1.1.1 = Ret (Some 3) ∧
  ∀ e, e ∈ x.2 →
    match e with
    | OsSystem _ _ | OsMkdir _ _ | ConfSave _ _ _ => False
    | _ => True
    end.
Proof.
  intros x. split; [vm_compute; reflexivity|].
  apply (early_failure_changes_nothing (env_run 0 ["1"; "3"]) (cbuver.init 1 "/bu" world_run)
           world_run 3 x.1.1.2 x.1.2 x.2).
  - vm_compute. reflexivity.
  - right; right; reflexivity.
Defined.

(** X18. The lock when [backup] returns. After code 1 the semaphore is as
    before and no marker was created; after code 2 or a successful run
    ([None]) [backup] has released the lock itself; after the codes 3, 5
    and 6 the semaphore is still held when [backup] returns, and it is the
    exit handler that releases it. *)
Theorem lock_state_when_backup_returns
    (env : Env) (b : C_buver) (w : World) (r : option Z) (b' : C_buver) (w' : World)
    (tr : list event) :
  backup env b w = (Ret r, b', w', tr) →
  (r = Some 1 → semaphore b' = semaphore b ∧ silent is_acquire tr) ∧
  (r = Some 2 ∨ r = None → sem_locked (semaphore b') = false) ∧
  (r = Some 3 ∨ r = Some 5 ∨ r = Some 6 → sem_locked (semaphore b') = true).
Proof.
  intros Hrun.
  destruct (backup_outcomes env b w) as (r1 & b1 & w1 & tr1 & Hrun' & Hpost).
  rewrite Hrun in Hrun'. injection Hrun' as <- <- <- <-.
  unfold backup_post in Hpost. destruct r as [rc|].
  - destruct Hpost as [(-> & ? & ? & _)|[(-> & ? & _)|[(-> & ? & _)|[(-> & ? & _)|(-> & ?)]]]].
    all: split; [|split]; intros Hr; try done; exfalso.
    all: repeat (destruct Hr as [Hr|Hr]; try discriminate Hr). all: discriminate Hr.
  - split; [|split]; intros Hr; try done; exfalso.
    by repeat (destruct Hr as [Hr|Hr]; try discriminate Hr).
Qed.

Lemma lock_state_when_backup_returns_witness :
  let x := backup (env_run 0 ["1"; "3"]) (cbuver.init 1 "/bu" world_run) world_run in
  x.1.1.1 = Ret (Some 3) ∧ sem_locked (semaphore x.1.1.2) = true.
Proof.
  intros x. split; [vm_compute; reflexivity|].
  apply (lock_state_when_backup_returns (env_run 0 ["1"; "3"]) (cbuver.init 1 "/bu" world_run)
           world_run (Some 3) x.1.1.2 x.1.2 x.2).
  - vm_compute. reflexivity.
  - left; reflexivity.
Defined.

Lemma on_config_same {A} (m : M C_buconfig A) b w c r :
  cbuver.config b = Some c → (∀ w', m c w' = (r, c, w', [])) →
  on_config m b w = (r, b, w, []).
Proof.
  intros Hc Hm. rewrite (on_config_run m b w c r c w [] Hc (Hm w)).
  by rewrite set_config_id.
Qed.

Lemma on_versions_same {A} (m : M C_versions A) b w v r :
  versions b = Some v → (∀ w', m v w' = (r, v, w', [])) →
  on_versions m b w = (r, b, w, []).
Proof.
  intros Hv Hm. rewrite (on_versions_run m b w v r v w [] Hv (Hm w)).
  by rewrite set_versions_id.
Qed.

(** X19. When the source directory is not a directory, [backup_version]
    raises [OSError] from [os.chdir]: it does not return 9999, prints
    nothing and runs no command. The branch that tests the result of
    [os.chdir] is never taken. *)
Theorem missing_source_raises_instead_of_9999
    (env : Env) (b : C_buver) (w : World) (c : C_buconfig) (src : string) :
  cbuver.config b = Some c →
  dict_get "src_dir" (cbuconfig.config c) = Some (CStr src) →
  os_path_isdir w src = false →
  backup_version env b w = (Raise OSError, b, w, [OsChdir src false]).
Proof.
  intros Hc Hsrc Hdir. unfold backup_version.
  rewrite bind_run, (on_config_same _ b w c (Ret (CStr src)) Hc)
    by (intros w'; unfold opt_src_dir, _get_attr; run; by rewrite Hsrc).
  rewrite prepend_nil.
  rewrite bind_run, (on_config_same _ b w c (Ret src) Hc) by done.
  rewrite prepend_nil, bind_run, run_os_chdir, Hdir. done.
Qed.

Lemma missing_source_raises_instead_of_9999_witness :
  let b := cbuver.set_config (cbuconfig.mk "/bu" "/bu/buver.conf" conf_tar (Some ["1"; "2"]))
             (cbuver.init 1 "/bu" world_A) in
  backup_version env_quiet b world_A = (Raise OSError, b, world_A, [OsChdir "/src" false]).
Proof.
  intros b.
  apply (missing_source_raises_instead_of_9999 env_quiet b world_A
           (cbuconfig.mk "/bu" "/bu/buver.conf" conf_tar (Some ["1"; "2"])) "/src");
    reflexivity.
Defined.

(** X20. What [backup_version] does with the expanded command, once it
    has changed to the source directory: a command of blanks only raises
    [IndexError]; a command whose first non-blank character is [#] is
    echoed as a comment and not run, and the result is 0; any other
    command is announced, handed to the shell, and its exit status is the
    result. *)
Theorem comment_and_blank_commands
    (env : Env) (b : C_buver) (w : World) (c : C_buconfig) (v : C_versions)
    (src new_ver cmd : string) :
  cbuver.config b = Some c →
  versions b = Some v →
  dict_get "src_dir" (cbuconfig.config c) = Some (CStr src) →
  os_path_isdir w src = true →
  (∀ w', new_version v w' = (Ret new_ver, v, w', [])) →
  (∀ w', opt_command env new_ver (os_path_join new_ver "backup.tar")
           (os_path_join new_ver "backup.tar") c w' = (Ret cmd, c, w', [])) →
  cmd ≠ "" →
  let w1 := mkWorld (disk w) (abspath w src) (fds w) (now w) in
  match strip cmd with
  | EmptyString => backup_version env b w = (Raise IndexError, b, w1, [OsChdir src true])
  | String "#" _ =>
      backup_version env b w
      = (Ret 0, b, w1,
         [OsChdir src true;
          Message ("COMMENT <" +:+ String.substring 1 (String.length cmd - 1) cmd +:+ ">")])
  | String _ _ =>
      backup_version env b w
      = (Ret (shell env cmd w1).1, b, with_disk (λ _, (shell env cmd w1).2) w1,
         [OsChdir src true; Message ("EXECUTE <" +:+ cmd +:+ ">");
          OsSystem cmd (shell env cmd w1).1])
  end.
Proof.
  intros Hc Hv Hsrc Hdir Hnew Hcmd Hne w1.
  assert (Hrun : backup_version env b w
    = prepend [OsChdir src true]
        (match strip cmd with
         | EmptyString => (Raise IndexError, b, w1, [])
         | String a _ =>
             if Ascii.eqb a "#"
             then (Ret 0, b, w1,
                   [Message ("COMMENT <" +:+ String.substring 1 (String.length cmd - 1) cmd
                             +:+ ">")])
             else prepend [Message ("EXECUTE <" +:+ cmd +:+ ">")] (os_system env cmd b w1)
         end)).
  { unfold backup_version.
    rewrite bind_run, (on_config_same _ b w c (Ret (CStr src)) Hc)
      by (intros w'; unfold opt_src_dir, _get_attr; run; by rewrite Hsrc).
    rewrite prepend_nil.
    rewrite bind_run, (on_config_same _ b w c (Ret src) Hc) by done.
    rewrite prepend_nil, bind_run, run_os_chdir, Hdir. fold w1. f_equal.
    rewrite bind_run, (on_versions_same _ b w1 v (Ret new_ver) Hv) by done.
    rewrite prepend_nil.
    rewrite bind_run, (on_versions_same _ b w1 v (Ret new_ver) Hv) by done.
    rewrite prepend_nil.
    rewrite bind_run, (on_config_same _ b w1 c (Ret cmd) Hc) by done.
    rewrite prepend_nil. rewrite bool_decide_eq_false_2 by done.
    destruct (strip cmd) as [|a rest]; [done|].
    destruct (Ascii.eqb a "#"); [by run|]. by rewrite bind_message. }
  rewrite Hrun. destruct (strip cmd) as [|a rest]; [done|].
  destruct (Ascii.eqb_spec a "#") as [->|Hne'].
  - done.
  - rewrite run_os_system.
    destruct a as [[] [] [] [] [] [] [] []]; try done.
Qed.

Lemma comment_and_blank_commands_witness :
  let c := cbuconfig.mk "/bu" "/bu/buver.conf" conf_comment (Some ["1"; "2"]) in
  let v := (sanify 3 ["1"; "2"] (ledger_of world_run) world_run).1.1.2 in
  let b := cbuver.set_versions v (cbuver.set_config c (cbuver.init 1 "/bu" world_run)) in
  backup_version env_quiet b world_run
  = (Ret 0, b, mkWorld (disk world_run) "/src" [] 0,
     [OsChdir "/src" true; Message "COMMENT <NO_cp_cmd is set>"]).
Proof.
  intros c v b.
  apply (comment_and_blank_commands env_quiet b world_run c v "/src" "/bu/versions/3"
           "#NO_cp_cmd is set").
  - reflexivity.
  - reflexivity.
  - reflexivity.
  - reflexivity.
  - intros w'. reflexivity.
  - intros w'. reflexivity.
  - intros H; discriminate H.
Defined.

(** ** Initialising a target area *)

Lemma append_inv_head s a b : s +:+ a = s +:+ b → a = b.
Proof.
  induction s as [|c s IH]; [by rewrite !append_nil_l|].
  rewrite !append_cons. intros [= H]. by apply IH.
Qed.

Lemma join_inj d a b :
  starts_with_slash a = false → starts_with_slash b = false →
  os_path_join d a = os_path_join d b → a = b.
Proof. intros Ha Hb. rewrite (join_name d a), (join_name d b) by done. apply append_inv_head. Qed.

Lemma not_listed w d n :
  starts_with_slash d = true → os_listdir w d = [] → is_name n = true →
  exists_on (disk w) (os_path_join d n) = false.
Proof.
  intros Hd Hl Hn. unfold os_listdir in Hl. rewrite (abspath_of_absolute w d Hd) in Hl.
  assert (Hnot : os_path_join d n ∉ dirs (disk w) ++ files (disk w)).
  { intros Hin.
    assert (Hx : n ∈ omap (child_name d) (dirs (disk w) ++ files (disk w))).
    { apply list_elem_of_omap. exists (os_path_join d n). split; [done|by apply child_name_join]. }
    rewrite Hl in Hx. by apply elem_of_nil in Hx. }
  unfold exists_on. apply orb_false_iff.
  split; apply bool_decide_eq_false_2; intros Hin; apply Hnot, elem_of_app; auto.
Qed.

Lemma has_parent_join (k : Disk) d n :
  d ∈ dirs k → is_name n = true → has_parent k (os_path_join d n) = true.
Proof.
  intros Hd Hn. unfold has_parent. apply bool_decide_eq_true_2, Exists_exists.
  exists d. split; [done|]. rewrite child_name_join by done. by eexists.
Qed.

Lemma exists_on_snoc_dir ds fs p q :
  p ≠ q → exists_on (mkDisk (ds ++ [q]) fs) p = exists_on (mkDisk ds fs) p.
Proof.
  intros Hne. unfold exists_on. simpl. f_equal. apply bool_decide_ext.
  rewrite elem_of_app, list_elem_of_singleton. tauto.
Qed.

Lemma exists_on_snoc_file ds fs p q :
  p ≠ q → exists_on (mkDisk ds (fs ++ [q])) p = exists_on (mkDisk ds fs) p.
Proof.
  intros Hne. unfold exists_on. simpl. f_equal. apply bool_decide_ext.
  rewrite elem_of_app, list_elem_of_singleton. tauto.
Qed.

Lemma run_mkdir dir (b : C_buver) (w : World) :
  exists_on (disk w) (abspath w dir) = false →
  has_parent (disk w) (abspath w dir) = true →
  cbuver.mkdir dir b w
  = (Ret 0, b, with_disk (λ d, mkDisk (dirs d ++ [abspath w dir]) (files d)) w,
     [OsMkdir dir true]).
Proof. intros He Hp. unfold cbuver.mkdir, os_mkdir. run. rewrite He, Hp. simpl. by run. Qed.

Lemma run_signal_owner name path d (w : World) :
  d ∈ fds w → abspath w name ∈ files (disk w) →
  signal (csemaphore.mk name path true (Some d)) w
  = (Ret false, csemaphore.mk name path false (Some d),
     mkWorld (mkDisk (dirs (disk w)) (filter (λ x, x ≠ abspath w name) (files (disk w))))
             (cwd w) (filter (λ x, x ≠ d) (fds w)) (now w),
     [OsClose d true; OsRemove name true]).
Proof.
  intros Hd Hf. unfold signal. run. rewrite bind_run, run_os_close.
  rewrite bool_decide_eq_true_2 by done. run.
  rewrite bind_run, run_os_remove. rewrite (abspath_cwd w) by done. simpl.
  rewrite bool_decide_eq_true_2 by done. by run.
Qed.

Lemma run_save_fresh env create c w :
  conf_writable env (conf_name c) w = true →
  abspath w (conf_name c) ∉ files (disk w) →
  save env create c w
  = (Ret 0, c, with_disk (λ k, mkDisk (dirs k) (files k ++ [abspath w (conf_name c)])) w,
     [Message ((if create =? 0 then "Writing" else "Creating") +:+ " config <"
               +:+ conf_name c +:+ "> ...");
      ConfSave (conf_name c) (cbuconfig.config c) true]).
Proof.
  intros Hw Hnew. unfold save. run. rewrite Hw. simpl.
  rewrite bool_decide_eq_false_2 by done. by run.
Qed.

Lemma run_create_fresh env c w :
  conf_writable env (conf_name c) w = true →
  abspath w (conf_name c) ∉ files (disk w) →
  ∃ t d,
    create env c w
    = (Ret 0, cbuconfig.set_config d c,
       with_disk (λ k, mkDisk (dirs k) (files k ++ [abspath w (conf_name c)])) w, t) ∧
    commands t = [] ∧
    ConfSave (conf_name c) d true ∈ t ∧
    dict_get "src_dir" d = Some (CStr "") ∧
    dict_get "num_versions" d = Some (CStr "10") ∧
    dict_get "type" d = Some (CStr "tree") ∧
    dict_get "ver_dirs" d = Some (CStr "[]") ∧
    dict_get "nice" d = Some (CStr "10").
Proof.
  intros Hw Hnew. unfold create. run.
  destruct (bool_decide (os_name env = "nt")); simpl; run;
    [|destruct (bool_decide (os_name env = "posix")); simpl; run].
  all: rewrite run_save_fresh by done.
  all: eexists _, _; split; [reflexivity|]; split; [done|].
  all: split; [simpl; rewrite ?elem_of_cons; tauto|done].
Qed.

Lemma initialize_from_empty (env : Env) (tgt : string) (w : World) :
  starts_with_slash tgt = true →
  os_path_isdir w tgt = true →
  os_listdir w tgt = [] →
  (∀ w', conf_writable env (os_path_join tgt "buver.conf") w' = true) →
  ∃ b' tr,
    initialize env (cbuver.init 0 tgt w) w
    = (Ret 0, b',
       mkWorld (mkDisk (dirs (disk w) ++ [os_path_join tgt "logs"; os_path_join tgt "versions"])
                       (files (disk w) ++ [os_path_join tgt "buver.conf"]))
               (cwd w) (fds w) (now w), tr) ∧
    sem_locked (semaphore b') = false ∧
    commands tr = [] ∧
    ∃ c, cbuver.config b' = Some c ∧
         ConfSave (os_path_join tgt "buver.conf") (cbuconfig.config c) true ∈ tr ∧
         dict_get "src_dir" (cbuconfig.config c) = Some (CStr "") ∧
         dict_get "num_versions" (cbuconfig.config c) = Some (CStr "10") ∧
         dict_get "type" (cbuconfig.config c) = Some (CStr "tree") ∧
         dict_get "ver_dirs" (cbuconfig.config c) = Some (CStr "[]") ∧
         dict_get "nice" (cbuconfig.config c) = Some (CStr "10").
Proof.
  intros Habs Hdir Hempty Hwr.
  assert (Htgt : abspath w tgt = tgt) by by apply abspath_of_absolute.
  assert (Hin : tgt ∈ dirs (disk w)).
  { unfold os_path_isdir in Hdir. rewrite Htgt in Hdir. by apply bool_decide_eq_true_1 in Hdir. }
  assert (Hj : ∀ w' n, abspath w' (os_path_join tgt n) = os_path_join tgt n).
  { intros w' n. apply abspath_of_absolute. by apply join_absolute. }
  unfold cbuver.init, csemaphore.init. simpl. rewrite Htgt, (Hj w "buver.lock").
  set (lock := os_path_join tgt "buver.lock").
  set (logs := os_path_join tgt "logs").
  set (vers := os_path_join tgt "versions").
  set (conf := os_path_join tgt "buver.conf").
  set (s0 := csemaphore.mk lock tgt false None).
  set (b0 := cbuver.mk 0 "initialize" tgt logs vers s0 None None).
  unfold initialize. run. rewrite bind_run.
  pose proof (check_dir_eq tgt b0 w) as Hcd. rewrite Hdir in Hcd.
  destruct Hcd as (dc & fc & -> & _ & _ & Hz & _). destruct (Hz Hempty) as [-> ->]. simpl.
  run.
  assert (Hlock : ∀ w', abspath w' lock = lock) by (intros; apply Hj).
  assert (Hlogs : ∀ w', abspath w' logs = logs) by (intros; apply Hj).
  assert (Hvers : ∀ w', abspath w' vers = vers) by (intros; apply Hj).
  assert (Hconf : ∀ w', abspath w' conf = conf) by (intros; apply Hj).
  assert (Hfree : ∀ n, is_name n = true → exists_on (disk w) (os_path_join tgt n) = false).
  { intros n Hn. by apply not_listed. }
  assert (Hne : ∀ a b, is_name a = true → is_name b = true → a ≠ b →
                       os_path_join tgt a ≠ os_path_join tgt b).
  { intros a b Ha Hb Hab Heq. apply Hab. eapply join_inj; [| |exact Heq];
      by apply is_name_no_slash. }
  rewrite bind_run. unfold on_semaphore at 1, zoom. simpl (semaphore b0).
  rewrite (wait_free env s0 w 120); simpl sem_name; simpl sem_path; rewrite ?Hlock;
    [|done|lia|by apply Hfree|by apply has_parent_join].
  simpl. run.
  set (fd := fresh_fd w).
  set (s1 := csemaphore.mk lock tgt true (Some fd)).
  set (b1 := cbuver.set_semaphore s1 b0).
  set (w1 := mkWorld _ _ _ _).
  rewrite bind_run, (run_mkdir logs b1 w1).
  2:{ rewrite Hlogs. unfold w1. simpl. rewrite exists_on_snoc_file by by apply Hne.
      rewrite <- (Hfree "logs") by done. by destruct (disk w). }
  2:{ rewrite Hlogs. by apply has_parent_join. }
  simpl. run. rewrite bind_run. rewrite Hlogs.
  set (w2 := with_disk _ w1).
  rewrite (run_mkdir vers b1 w2).
  2:{ rewrite Hvers. unfold w2, w1. simpl.
      rewrite exists_on_snoc_dir by by apply Hne.
      rewrite exists_on_snoc_file by by apply Hne.
      rewrite <- (Hfree "versions") by done. by destruct (disk w). }
  2:{ rewrite Hvers. apply has_parent_join; [|done]. simpl. apply elem_of_app. by left. }
  simpl. run. rewrite Hvers.
  set (w3 := with_disk _ w2).
  set (c0 := cbuconfig.init tgt). set (b2 := cbuver.set_config c0 b1).
  assert (Hnofile : ∀ n, is_name n = true → os_path_join tgt n ∉ files (disk w)).
  { intros n Hn Hi. specialize (Hfree n Hn). by rewrite exists_on_file in Hfree. }
  destruct (run_create_fresh env c0 w3) as (tc & dict & Hcreate & Hcmd & Hsaved & Hdict).
  { apply Hwr. }
  { simpl conf_name. fold conf. rewrite Hconf. unfold w3, w2, w1. simpl.
    intros [Hi|Hi%list_elem_of_singleton]%elem_of_app.
    - by apply (Hnofile "buver.conf").
    - by apply (Hne "buver.conf" "buver.lock"). }
  simpl conf_name in Hcreate. fold conf in Hcreate. rewrite Hconf in Hcreate.
  rewrite bind_run, (on_config_run _ b2 w3 _ _ _ _ _ eq_refl Hcreate). simpl. run.
  rewrite bind_run. unfold on_semaphore, zoom. simpl semaphore.
  rewrite (run_signal_owner lock tgt fd).
  2:{ simpl. by left. }
  2:{ rewrite Hlock. simpl. apply elem_of_app. left. apply elem_of_app. right.
      by apply list_elem_of_singleton. }
  simpl. run. rewrite Hlock.
  eexists _, _. split; [|split; [|split]].
  - assert (Hfiles : filter (λ x, x ≠ lock) (files (disk w) ++ [lock; conf])
                      = files (disk w) ++ [conf]).
    { rewrite filter_app, filter_cons_False by (intros H; by apply H).
      rewrite filter_cons_True by (by apply (Hne "buver.conf" "buver.lock")).
      rewrite filter_nil, filter_all; [done|]. apply Forall_forall. intros x Hx ->.
      by apply (Hnofile "buver.lock"). }
    assert (Hfds : filter (λ x, x ≠ fd) (fd :: fds w) = fds w).
    { rewrite filter_cons_False by (intros H; by apply H).
      apply filter_all, Forall_forall. intros x Hx ->. by apply (fresh_fd_fresh w). }
    rewrite Hfiles, Hfds. reflexivity.
  - done.
  - unfold commands. simpl. rewrite omap_app. fold (commands tc). by rewrite Hcmd.
  - eexists. split; [reflexivity|]. split; [|exact Hdict].
    rewrite !elem_of_cons, elem_of_app. tauto.
Qed.

Lemma length_append s t :
  String.length (s +:+ t) = (String.length s + String.length t)%nat.
Proof.
  induction s as [|c s IH]; [by rewrite append_nil_l|].
  rewrite append_cons. simpl. by rewrite IH.
Qed.

Lemma child_name_self d : child_name d d = None.
Proof.
  unfold child_name. destruct (strip_prefix (os_path_join d "") d) as [n|] eqn:Hs; [|done].
  apply strip_prefix_Some in Hs.
  assert (Hlen : String.length d = (String.length (os_path_join d "") + String.length n)%nat).
  { rewrite Hs at 1. apply length_append. }
  assert (Hj : (String.length d ≤ String.length (os_path_join d ""))%nat).
  { unfold os_path_join. simpl. destruct (_ || _).
    - rewrite append_nil_r. lia.
    - rewrite length_append. lia. }
  destruct n; [done|]. simpl in Hlen. lia.
Qed.

Lemma mkdir_gives_an_empty_directory w p :
  os_listdir w p = [] →
  let w0 := with_disk (λ d, mkDisk (dirs d ++ [abspath w p]) (files d)) w in
  os_path_isdir w0 p = true ∧ os_listdir w0 p = [].
Proof.
  intros Hempty w0. split.
  - unfold os_path_isdir. rewrite (abspath_cwd w) by done. apply bool_decide_eq_true_2.
    simpl. apply elem_of_app. right. by apply list_elem_of_singleton.
  - unfold os_listdir in *. rewrite (abspath_cwd w) by done. simpl.
    rewrite <- app_assoc, omap_app in *. apply app_eq_nil in Hempty as [H1 H2].
    rewrite H1. simpl. by rewrite child_name_self.
Qed.

Lemma initialize_after_mkdir (env : Env) (b : C_buver) (w : World) :
  os_path_isdir w (cbuver.tgt_loc b) = false →
  exists_on (disk w) (abspath w (cbuver.tgt_loc b)) = false →
  has_parent (disk w) (abspath w (cbuver.tgt_loc b)) = true →
  os_listdir w (cbuver.tgt_loc b) = [] →
  let w0 := with_disk (λ d, mkDisk (dirs d ++ [abspath w (cbuver.tgt_loc b)]) (files d)) w in
  initialize env b w
  = prepend [Message ("The directory " +:+ cbuver.tgt_loc b
                      +:+ " does not exist ... creating ...");
             OsMkdir (cbuver.tgt_loc b) true]
      (initialize env b w0).
Proof.
  intros Hdir Hex Hpar Hempty w0.
  destruct (mkdir_gives_an_empty_directory w (cbuver.tgt_loc b) Hempty) as [Hdir0 Hempty0].
  fold w0 in Hdir0, Hempty0.
  unfold initialize at 2. rewrite bind_get_self, bind_run.
  pose proof (check_dir_eq (cbuver.tgt_loc b) b w0) as Hcd. rewrite Hdir0 in Hcd.
  destruct Hcd as (dc & fc & -> & _ & _ & Hz & _). destruct (Hz Hempty0) as [-> ->].
  rewrite prepend_nil. simpl.
  unfold initialize. rewrite bind_get_self, bind_run.
  pose proof (check_dir_eq (cbuver.tgt_loc b) b w) as Hcd. rewrite Hdir in Hcd.
  rewrite Hcd, prepend_nil. simpl. rewrite bind_bind, bind_message.
  rewrite bind_bind, bind_run, run_mkdir by done. fold w0. simpl.
  by rewrite !prepend_prepend.
Qed.

(** X21. [initialize] on an absolute target directory that is empty, or
    that does not exist while its parent does, and whose buver.conf can be
    written: it returns 0; the disk gains the target directory when it was
    missing, then [logs] and [versions] under it, and no other directory;
    outside the logs directory it gains the file buver.conf and no other
    file; the marker of the lock is gone and the semaphore is not held; no
    shell command was run; and the configuration written has an empty
    [src_dir], 10 versions, type tree, an empty manifest and nice 10. *)
Theorem initialize_prepares_the_target (env : Env) (tgt : string) (w : World) :
  starts_with_slash tgt = true →
  os_listdir w tgt = [] →
  os_path_isdir w tgt = true
  ∨ (exists_on (disk w) tgt = false ∧ has_parent (disk w) tgt = true) →
  (∀ w', conf_writable env (os_path_join tgt "buver.conf") w' = true) →
  ∃ b' w' tr,
    initialize env (cbuver.init 0 tgt w) w = (Ret 0, b', w', tr) ∧
    dirs (disk w')
    = dirs (disk w) ++ (if os_path_isdir w tgt then [] else [tgt])
      ++ [os_path_join tgt "logs"; os_path_join tgt "versions"] ∧
    (∀ p, child_name (os_path_join tgt "logs") p = None →
          (p ∈ files (disk w') ↔ p ∈ files (disk w) ∨ p = os_path_join tgt "buver.conf")) ∧
    (os_path_join tgt "buver.lock" ∉ files (disk w')) ∧
    sem_locked (semaphore b') = false ∧
    commands tr = [] ∧
    ∃ c, cbuver.config b' = Some c ∧
         ConfSave (os_path_join tgt "buver.conf") (cbuconfig.config c) true ∈ tr ∧
         dict_get "src_dir" (cbuconfig.config c) = Some (CStr "") ∧
         dict_get "num_versions" (cbuconfig.config c) = Some (CStr "10") ∧
         dict_get "type" (cbuconfig.config c) = Some (CStr "tree") ∧
         dict_get "ver_dirs" (cbuconfig.config c) = Some (CStr "[]") ∧
         dict_get "nice" (cbuconfig.config c) = Some (CStr "10").
Proof.
  intros Habs Hempty Hcase Hwr.
  assert (Hlock : os_path_join tgt "buver.lock"
                  ∉ files (disk w) ++ [os_path_join tgt "buver.conf"]).
  { intros [Hi|Hi%list_elem_of_singleton]%elem_of_app.
    - pose proof (not_listed w tgt "buver.lock" Habs Hempty eq_refl) as Hfree.
      by rewrite exists_on_file in Hfree.
    - by apply join_inj in Hi. }
  destruct (os_path_isdir w tgt) eqn:Hdir.
  { destruct (initialize_from_empty env tgt w Habs Hdir Hempty Hwr)
      as (b' & tr & Hrun & Hl & Hcmd & Hc).
    eexists _, _, _. split; [exact Hrun|]. simpl.
    split; [done|]. split; [|done].
    intros p _. rewrite elem_of_app, list_elem_of_singleton. tauto. }
  destruct Hcase as [|[Hex Hpar]]; [done|].
  assert (Htgt : abspath w tgt = tgt) by by apply abspath_of_absolute.
  set (w0 := with_disk (λ d, mkDisk (dirs d ++ [abspath w tgt]) (files d)) w).
  destruct (mkdir_gives_an_empty_directory w tgt Hempty) as [Hdir0 Hempty0]. fold w0 in Hdir0, Hempty0.
  assert (Hb : cbuver.tgt_loc (cbuver.init 0 tgt w) = tgt) by (simpl; by rewrite Htgt).
  rewrite initialize_after_mkdir by by rewrite Hb, ?Htgt.
  rewrite Hb. fold w0.
  assert (Hinit : cbuver.init 0 tgt w = cbuver.init 0 tgt w0).
  { unfold cbuver.init, csemaphore.init. by rewrite !(abspath_cwd w w0). }
  rewrite Hinit.
  destruct (initialize_from_empty env tgt w0 Habs Hdir0 Hempty0 Hwr)
    as (b' & tr & -> & Hl & Hcmd & c & Hc & Hsave & Hdict).
  rewrite prepend_pair. eexists _, _, _. split; [reflexivity|]. simpl.
  split; [by rewrite Htgt, <- !app_assoc|].
  split; [intros p _; rewrite elem_of_app, list_elem_of_singleton; tauto|].
  split; [done|]. split; [done|]. split.
  - unfold commands in *. simpl. exact Hcmd.
  - exists c. split; [done|]. split; [|done]. by do 2 apply list_elem_of_further.
Qed.

Lemma initialize_prepares_the_target_witness :
  let w := world_of ["/"] [] in
  ∃ b' w' tr,
    initialize env_quiet (cbuver.init 0 "/bu" w) w = (Ret 0, b', w', tr) ∧
    dirs (disk w') = ["/"; "/bu"; "/bu/logs"; "/bu/versions"] ∧
    (∀ p, child_name "/bu/logs" p = None →
          (p ∈ files (disk w') ↔ p ∈ files (disk w) ∨ p = "/bu/buver.conf")) ∧
    ("/bu/buver.lock" ∉ files (disk w')) ∧
    sem_locked (semaphore b') = false ∧
    commands tr = [] ∧
    ∃ c, cbuver.config b' = Some c ∧
         ConfSave "/bu/buver.conf" (cbuconfig.config c) true ∈ tr ∧
         dict_get "src_dir" (cbuconfig.config c) = Some (CStr "") ∧
         dict_get "num_versions" (cbuconfig.config c) = Some (CStr "10") ∧
         dict_get "type" (cbuconfig.config c) = Some (CStr "tree") ∧
         dict_get "ver_dirs" (cbuconfig.config c) = Some (CStr "[]") ∧
         dict_get "nice" (cbuconfig.config c) = Some (CStr "10").
Proof.
  intros w.
  apply (initialize_prepares_the_target env_quiet "/bu" w).
  - reflexivity.
  - reflexivity.
  - right. split; reflexivity.
  - intros w'. reflexivity.
Defined.

(** ** The command line *)

Lemma scan_eq args mode tgt_loc found_mode found_tgtloc :
  buver.scan args mode tgt_loc found_mode found_tgtloc =
  if existsb buver.is_help args then buver.Usage
  else
    let switches := filter (λ a, is_switch a = true) args in
    let targets := filter (λ a, is_switch a = false) args in
    buver.Parsed
      (match last switches with
       | Some a => if buver.is_init a then 0 else 1
       | None => mode
       end)
      (default tgt_loc (last targets))
      (found_mode || negb (bool_decide (switches = [])))
      (found_tgtloc || negb (bool_decide (targets = []))).
Proof.
  revert mode tgt_loc found_mode found_tgtloc.
  induction args as [|a args IH]; intros mode tgt_loc fm ft.
  { simpl. by rewrite !orb_false_r. }
  cbn [buver.scan existsb]. destruct (buver.is_help a); [done|]. cbn [orb].
  assert (Hlast : ∀ (x : string) l, last (x :: l) = Some (default x (last l))).
  { intros x l. rewrite last_cons. by destruct (last l). }
  destruct (buver.is_init a) eqn:Hi; [|destruct (buver.is_bu a) eqn:Hb].
  - assert (Hs : is_switch a = true) by (unfold is_switch; by rewrite Hi).
    rewrite (filter_cons_True (λ a, is_switch a = true)) by done.
    rewrite (filter_cons_False (λ a, is_switch a = false)) by (by rewrite Hs).
    rewrite IH. destruct (existsb buver.is_help args); [done|]. cbn zeta.
    rewrite Hlast, (bool_decide_eq_false_2 (a :: _ = [])) by done.
    rewrite orb_true_r. f_equal.
    destruct (last _) as [s|] eqn:Hl; [done|]. simpl. by rewrite Hi.
  - assert (Hs : is_switch a = true) by (unfold is_switch; by rewrite Hi, Hb).
    rewrite (filter_cons_True (λ a, is_switch a = true)) by done.
    rewrite (filter_cons_False (λ a, is_switch a = false)) by (by rewrite Hs).
    rewrite IH. destruct (existsb buver.is_help args); [done|]. cbn zeta.
    rewrite Hlast, (bool_decide_eq_false_2 (a :: _ = [])) by done.
    rewrite orb_true_r. f_equal.
    destruct (last _) as [s|] eqn:Hl; [done|]. simpl. by rewrite Hi.
  - assert (Hs : is_switch a = false) by (unfold is_switch; by rewrite Hi, Hb).
    rewrite (filter_cons_False (λ a, is_switch a = true)) by (by rewrite Hs).
    rewrite (filter_cons_True (λ a, is_switch a = false)) by done.
    rewrite IH. destruct (existsb buver.is_help args); [done|]. cbn zeta.
    rewrite Hlast, (bool_decide_eq_false_2 (a :: _ = [])) by done.
    rewrite orb_true_r. f_equal.
Qed.

(** X22. The command line. [parse_args] ends with [usage()] exactly when
    one of the arguments is a help option, wherever it stands. Otherwise
    the last mode switch decides the mode (backup when there is none), and
    the last argument that is not a mode switch is the target (the current
    directory when there is none): so an option that [parse_args] does not
    know is taken as the target. Options are read without regard to
    case. *)
Theorem last_switch_and_last_target_win (args : list string) :
  buver.parse_args args =
  if existsb buver.is_help args then buver.Usage
  else
    let switches := filter (λ a, is_switch a = true) args in
    let targets := filter (λ a, is_switch a = false) args in
    buver.Parsed
      (match last switches with
       | Some a => if buver.is_init a then 0 else 1
       | None => 1
       end)
      (default "." (last targets))
      (negb (bool_decide (switches = [])))
      (negb (bool_decide (targets = []))).
Proof. unfold buver.parse_args. by rewrite scan_eq. Qed.

(** ** The text of buver.conf *)

Import conffile.

Lemma rstrip_app_blank s b : rstrip b = EmptyString → rstrip (s +:+ b) = rstrip s.
Proof.
  intros Hb. induction s as [|c s IH].
  - by rewrite append_nil_l.
  - rewrite append_cons. simpl. by rewrite IH.
Qed.

Lemma rstrip_id s :
  match last_char s with Some c => is_space c = false | None => True end → rstrip s = s.
Proof.
  induction s as [|c s IH]; [done|]. simpl. destruct s as [|c' s'].
  - by intros ->.
  - intros H. by rewrite IH.
Qed.

Lemma last_char_app_cons s c r : last_char (s +:+ String c r) = last_char (String c r).
Proof.
  induction s as [|a s IH]; [by rewrite append_nil_l|].
  rewrite append_cons. cbn [last_char]. rewrite IH.
  destruct (s +:+ String c r) eqn:Hs; [|done].
  destruct s; discriminate Hs.
Qed.

Lemma split_once_app k v :
  has_char "=" k = false → split_once "=" (k +:+ String "=" v) = Some (k, v).
Proof.
  induction k as [|c k IH]; intros Hk.
  - by rewrite append_nil_l.
  - rewrite append_cons. simpl in *. apply orb_false_iff in Hk as [Hc Hk].
    by rewrite Hc, IH.
Qed.

(** What the loop of [load] makes of the line that [save] writes for an
    item. *)
Lemma read_written_line k v (s : loading) w :
  key_ok k = true → value_ok v = true →
  read_line (k +:+ "=" +:+ v +:+ newline) s w = put k v s w.
Proof.
  unfold key_ok, value_ok. intros Hk Hv.
  apply andb_true_iff in Hk as [Hk Hline]. apply andb_true_iff in Hk as [Hc Heq].
  apply andb_true_iff in Hv as [Hv _]. apply negb_true_iff in Heq.
  destruct k as [|c k]; [done|]. apply andb_true_iff in Hc as [Hsp Hhash].
  apply negb_true_iff in Hsp, Hhash.
  assert (Hstrip : strip (String c k +:+ "=" +:+ v +:+ newline) = String c k +:+ String "=" v).
  { unfold strip. rewrite append_cons. cbn [lstrip]. rewrite Hsp.
    rewrite <- append_cons.
    change ("=" +:+ v +:+ newline) with (String "=" (v +:+ newline)).
    replace (String c k +:+ String "=" (v +:+ newline))
      with ((String c k +:+ String "=" v) +:+ newline).
    2:{ rewrite append_assoc. by rewrite append_cons. }
    rewrite rstrip_app_blank by done. apply rstrip_id.
    rewrite last_char_app_cons. cbn [last_char].
    destruct v as [|a v]; [done|]. fold (last_char (String a v)).
    destruct (last_char (String a v)); [by apply negb_true_iff in Hv|done]. }
  unfold read_line. rewrite Hstrip.
  rewrite split_once_app by done. by rewrite Hhash.
Qed.

Lemma sset_fresh k v (d : strdict) : k ∉ d.*1 → sset k v d = d ++ [(k, v)].
Proof.
  induction d as [|[k' v'] d IH]; [done|]. simpl. intros Hk.
  apply not_elem_of_cons in Hk as [Hne Hk].
  rewrite bool_decide_eq_false_2 by done. by rewrite IH.
Qed.

Lemma read_written_lines (l : strdict) (seen : strdict) lv w :
  NoDup ((seen ++ l).*1) →
  Forall (λ kv, key_ok kv.1 = true ∧ value_ok kv.2 = true) l →
  read_lines ((λ kv, kv.1 +:+ "=" +:+ kv.2 +:+ newline) <$> l) (mkLoading seen lv) w
  = (Ret tt, mkLoading (seen ++ l) lv, w, []).
Proof.
  revert seen. induction l as [|[k v] l IH]; intros seen Hnd Hok.
  - simpl. by rewrite app_nil_r.
  - apply Forall_cons in Hok as [[Hk Hv] Hok]. unfold read_lines in *.
    cbn [fmap list_fmap for_each]. rewrite bind_run. simpl fst. simpl snd.
    rewrite read_written_line by done. unfold put at 1. rewrite run_set_self. simpl.
    rewrite sset_fresh.
    2:{ rewrite fmap_app in Hnd. apply NoDup_app in Hnd as (_ & Hnd & _).
        intros Hin. apply (Hnd k Hin). simpl. by left. }
    rewrite prepend_nil. rewrite (IH (seen ++ [(k, v)])); [|by rewrite <- app_assoc|done].
    by rewrite <- app_assoc.
Qed.

(** X23. What [save] writes, the loop of [load] reads back. For a
    dictionary whose keys are distinct, start with a character that is
    neither a blank nor [#] and have no [=], and whose values as written do
    not end with a blank (keys and values without line breaks), reading
    the written lines into an empty dictionary gives the same items, in
    the same order, each value as the text that was written for it; it
    raises nothing and prints nothing. *)
Theorem saved_items_are_read_back (env : Env) (d : pydict) (lv : option (list string))
    (w : World) :
  NoDup d.*1 →
  Forall (λ kv, key_ok kv.1 = true ∧ value_ok (fmt env kv.2) = true) d →
  read_lines (written_lines env d) (mkLoading [] lv) w
  = (Ret tt, mkLoading ((λ kv, (kv.1, fmt env kv.2)) <$> d) lv, w, []).
Proof.
  intros Hnd Hok.
  pose proof (read_written_lines ((λ kv, (kv.1, fmt env kv.2)) <$> d) [] lv w) as H.
  rewrite <- list_fmap_compose in H. simpl in H. unfold written_lines.
  rewrite <- H; [done| |].
  - rewrite <- list_fmap_compose. exact Hnd.
  - apply Forall_fmap. eapply Forall_impl; [exact Hok|]. by intros [k v].
Qed.

Lemma saved_items_are_read_back_witness :
  read_lines (written_lines env_quiet conf_tar) (mkLoading [] None) world_A
  = (Ret tt, mkLoading ((λ kv, (kv.1, fmt env_quiet kv.2)) <$> conf_tar) None, world_A, []).
Proof.
  apply (saved_items_are_read_back env_quiet conf_tar None world_A).
  - apply (bool_decide_unpack _). vm_compute. exact I.
  - repeat constructor.
Defined.

(** ** Validating buver.conf *)

Lemma sset_mid k v v' (a b : strdict) :
  k ∉ a.*1 → sset k v' (a ++ (k, v) :: b) = a ++ (k, v') :: b.
Proof.
  induction a as [|[k0 v0] a IH]; simpl; intros Hk.
  - by rewrite bool_decide_eq_true_2.
  - apply not_elem_of_cons in Hk as [Hne Hk].
    rewrite bool_decide_eq_false_2 by done. by rewrite IH.
Qed.

Lemma sset_keys k v (d : strdict) : k ∈ d.*1 → (sset k v d).*1 = d.*1.
Proof.
  induction d as [|[k0 v0] d IH]; simpl; [by intros ?%elem_of_nil|].
  intros Hk. destruct (bool_decide_reflect (k0 = k)) as [->|Hne]; [done|].
  simpl. f_equal. apply IH. by apply elem_of_cons in Hk as [?|?].
Qed.

Lemma sset_nodup k v (d : strdict) : NoDup d.*1 → NoDup (sset k v d).*1.
Proof.
  intros Hnd. destruct (decide (k ∈ d.*1)) as [Hin|Hout].
  - by rewrite sset_keys.
  - rewrite sset_fresh by done. rewrite fmap_app. simpl.
    apply NoDup_app. split; [done|]. split; [|apply NoDup_singleton].
    intros x Hx ->%list_elem_of_singleton. done.
Qed.

Lemma read_line_nodup line s w :
  NoDup (entries s).*1 →
  ∃ r s', read_line line s w = (r, s', w, []) ∧ NoDup (entries s').*1
          ∧ versions_read s' = versions_read s.
Proof.
  intros Hnd. unfold read_line.
  destruct (split_once "=" (strip line)) as [[[|c k] v]|]; try by eexists _, _.
  destruct (Ascii.eqb c "#"); [by eexists _, _|].
  unfold put. rewrite run_set_self. eexists _, _. split; [done|]. simpl.
  split; [by apply sset_nodup|done].
Qed.

Lemma read_lines_nodup lines s w :
  NoDup (entries s).*1 →
  ∃ r s', read_lines lines s w = (r, s', w, []) ∧ NoDup (entries s').*1
          ∧ versions_read s' = versions_read s.
Proof.
  revert s. unfold read_lines. induction lines as [|line lines IH]; intros s Hnd.
  - by eexists _, _.
  - cbn [for_each]. rewrite bind_run.
    destruct (read_line_nodup line s w Hnd) as (r & s1 & -> & Hnd1 & Hv1).
    destruct r as [[]|e]; [|by eexists _, _].
    destruct (IH s1 Hnd1) as (r2 & s2 & -> & Hnd2 & Hv2).
    rewrite prepend_nil. eexists _, _. split; [done|]. split; [done|congruence].
Qed.

Lemma item_rel_other I w k v v' :
  lower k ≠ "src_dir" → lower k ≠ "num_versions" → lower k ≠ "nice" →
  lower k ≠ "type" → lower k ∉ ["tree_cmd"; "tar_cmd"; "gzip_cmd"] →
  item_rel I w k v v'.
Proof. intros. by repeat split. Qed.

Ltac absurd_key Hx :=
  first
    [ done
    | congruence
    | match goal with H : lower _ = _ |- _ => rewrite H in Hx end;
      repeat (apply elem_of_cons in Hx as [Hx|Hx]; [discriminate Hx|]);
      by apply elem_of_nil in Hx ].
Ltac rel_tac :=
  unfold item_rel; repeat split; let Hx := fresh "Hx" in intros Hx; try absurd_key Hx.

Lemma range_check (lo hi : Z) v (s : loading) w :
  ∃ x t,
    (if bool_decide (v = "") then ret true
     else match py_int v with
          | Some n => ret ((n <? lo) || (hi <? n))
          | None => raise ValueError
          end) s w = (x, s, w, t)
    ∧ ∀ o, x = Ret o → t = [] ∧ (o = false → ∃ n, py_int v = Some n ∧ lo ≤ n ≤ hi).
Proof.
  destruct (bool_decide (v = "")); [eexists _, _; split; [done|]; by intros o [= <-]|].
  destruct (py_int v) as [n|]; [|by eexists _, _].
  eexists _, _. split; [done|]. intros o [= <-]. split; [done|].
  intros [H1 H2]%orb_false_iff. exists n. split; [done|lia].
Qed.

Lemma validate_item_step I k v (a b : strdict) lv w r s1 w1 t1 :
  k ∉ a.*1 →
  validate_item I (k, v) (mkLoading (a ++ (k, v) :: b) lv) w = (Ret r, s1, w1, t1) →
  ∃ v' lv1, s1 = mkLoading (a ++ (k, v') :: b) lv1 ∧ w1 = w ∧ item_rel I w k v v'.
Proof.
  intros Hk. unfold validate_item. cbn [fst snd].
  assert (Hput : ∀ x (s : loading) w0, entries s = a ++ (k, v) :: b →
            put k x s w0 = (Ret tt, mkLoading (a ++ (k, x) :: b) (versions_read s), w0, [])).
  { intros x s w0 Hs. unfold put. rewrite run_set_self. by rewrite Hs, sset_mid. }
  destruct (bool_decide_reflect (lower k = "src_dir")) as [Hsrc|Hsrc].
  { destruct v as [|c rest].
    - rewrite bool_decide_eq_true_2 by done. by run.
    - rewrite bool_decide_eq_false_2 by done. run. rewrite Hput by done.
      intros [= <- <- <- <-]. eexists _, _. split; [done|]. split; [done|].
      rel_tac. by eexists _, _. }
  destruct (bool_decide_reflect (lower k = "num_versions")) as [Hnum|Hnum].
  { rewrite bind_run.
    destruct (range_check 1 10 v (mkLoading (a ++ (k, v) :: b) lv) w) as (x & t & -> & Hx).
    destruct x as [o|e]; [|done].
    destruct (Hx o eq_refl) as [-> Ho]. rewrite prepend_nil. destruct o.
    - rewrite bind_message, Hput by done. rewrite prepend_pair.
      intros [= <- <- <- <-]. eexists _, _. split; [done|]. split; [done|].
      rel_tac. by exists 10.
    - intros [= <- <- <- <-]. exists v, lv. split; [done|]. split; [done|].
      rel_tac. by apply Ho. }
  destruct (bool_decide_reflect (lower k = "nice")) as [Hnice|Hnice].
  { rewrite bind_run.
    destruct (range_check 0 20 v (mkLoading (a ++ (k, v) :: b) lv) w) as (x & t & -> & Hx).
    destruct x as [o|e]; [|done].
    destruct (Hx o eq_refl) as [-> Ho]. rewrite prepend_nil. destruct o.
    - rewrite bind_message, Hput by done. rewrite prepend_pair.
      intros [= <- <- <- <-]. eexists _, _. split; [done|]. split; [done|].
      rel_tac. by exists 10.
    - intros [= <- <- <- <-]. exists v, lv. split; [done|]. split; [done|].
      rel_tac. by apply Ho. }
  destruct (bool_decide_reflect (lower k = "type")) as [Htype|Htype].
  { destruct (bool_decide (v = "") || bool_decide (v ∉ ["tree"; "tar"; "gzip"])) eqn:Hv.
    - rewrite bind_message, Hput by done. rewrite prepend_pair.
      intros [= <- <- <- <-]. eexists _, _. split; [done|]. split; [done|].
      rel_tac. by left.
    - intros [= <- <- <- <-]. exists v, lv. split; [done|]. split; [done|].
      rel_tac. apply orb_false_iff in Hv as [_ Hv].
      apply bool_decide_eq_false_1 in Hv. by apply dec_stable. }
  destruct (bool_decide_reflect (lower k ∈ ["mailto"])) as [Hmail|Hmail].
  { intros [= <- <- <- <-]. exists v, lv. split; [done|]. split; [done|].
    apply list_elem_of_singleton in Hmail. rel_tac. }
  destruct (bool_decide_reflect (lower k = "ver_dirs")) as [Hver|Hver].
  { rewrite bind_run.
    assert (Hfix : ∃ v' t,
      (if bool_decide (v = "")
          || negb (bool_decide (get 0 v = Some "["%char))
          || negb (bool_decide (last_char v = Some "]"%char))
       then message (k +:+ " key is not specified or not formatted properly. Setting to [] ...");;
            put k "[]"
       else ret tt) (mkLoading (a ++ (k, v) :: b) lv) w
      = (Ret tt, mkLoading (a ++ (k, v') :: b) lv, w, t)).
    { destruct (_ || _).
      - rewrite bind_message, Hput by done. rewrite prepend_pair. by eexists _, _.
      - by eexists _, _. }
    destruct Hfix as (v' & t & ->). run.
    destruct (sget "ver_dirs" (a ++ (k, v') :: b) ≫= eval_list I); run.
    - intros [= <- <- <- <-]. eexists _, _. split; [done|]. split; [done|]. rel_tac.
    - intros [= <- <- <- <-]. eexists _, _. split; [done|]. split; [done|]. rel_tac. }
  destruct (bool_decide_reflect (lower k ∈ ["tree_cmd"; "tar_cmd"; "gzip_cmd"])) as [Hcmd|Hcmd].
  { destruct (bool_decide_reflect (v = "")) as [->|Hv].
    - rewrite bind_message, Hput by done. rewrite prepend_pair.
      intros [= <- <- <- <-]. eexists _, _. split; [done|]. split; [done|]. rel_tac.
    - intros [= <- <- <- <-]. exists v, lv. split; [done|]. split; [done|]. rel_tac. }
  rewrite run_message.
  intros [= <- <- <- <-]. exists v, lv. split; [done|]. split; [done|]. rel_tac.
Qed.

Lemma validate_loop I l seen lv w r s' w' t :
  NoDup ((seen ++ l).*1) →
  for_each l (λ _ kv, validate_item I kv) tt (mkLoading (seen ++ l) lv) w = (Ret r, s', w', t) →
  ∃ l' lv',
    s' = mkLoading (seen ++ l') lv' ∧ w' = w ∧
    Forall2 (λ kv kv', kv'.1 = kv.1 ∧ item_rel I w kv.1 kv.2 kv'.2) l l'.
Proof.
  revert seen lv t. induction l as [|[k v] l IH]; intros seen lv t Hnd.
  - simpl. intros [= <- <- <- <-]. exists [], lv. by repeat split.
  - cbn [for_each]. rewrite bind_run.
    destruct (validate_item I (k, v) (mkLoading (seen ++ (k, v) :: l) lv) w)
      as [[[[[]|e] s1] w1] t1] eqn:Hitem; [|done].
    apply validate_item_step in Hitem as (v' & lv1 & -> & -> & Hrel).
    2:{ rewrite fmap_app in Hnd. apply NoDup_app in Hnd as (_ & Hnd & _).
        intros Hin. apply (Hnd k Hin). simpl. by left. }
    replace (seen ++ (k, v') :: l) with ((seen ++ [(k, v')]) ++ l) by by rewrite <- app_assoc.
    destruct (for_each l _ tt _ w) as [[[r2 s2] w2] t2] eqn:Hrest. simpl.
    intros [= -> <- <- <-].
    apply IH in Hrest as (l' & lv' & -> & -> & Hall).
    2:{ rewrite <- app_assoc. simpl. by rewrite !fmap_app in *. }
    exists ((k, v') :: l'), lv'. rewrite <- app_assoc. split; [done|]. split; [done|].
    by constructor.
Qed.

Lemma sget_Forall2 (R : string → string → string → Prop) (l l' : strdict) k v' :
  Forall2 (λ kv kv', kv'.1 = kv.1 ∧ R kv.1 kv.2 kv'.2) l l' →
  sget k l' = Some v' → ∃ v, sget k l = Some v ∧ R k v v'.
Proof.
  induction 1 as [|[k0 v0] [k1 v1] l l' [Hk HR] _ IH]; [done|]. simpl in *. subst k1.
  destruct (bool_decide_reflect (k0 = k)) as [->|Hne].
  - intros [= ->]. by exists v0.
  - exact IH.
Qed.

Lemma dict_get_strs k (d : strdict) :
  dict_get k ((λ kv, (kv.1, CStr kv.2)) <$> d) = CStr <$> sget k d.
Proof.
  induction d as [|[k0 v0] d IH]; [done|]. simpl. by destruct (bool_decide (k0 = k)).
Qed.

(** What [validate] returns once its loop is over. *)
Lemma validate_run I env tgt (s : loading) w r s' w' t :
  NoDup (entries s).*1 →
  validate I env tgt s w = (Ret r, s', w', t) →
  ∃ l' lv',
    s' = mkLoading l' lv' ∧ w' = w ∧
    Forall2 (λ kv kv', kv'.1 = kv.1 ∧ item_rel I w kv.1 kv.2 kv'.2) (entries s) l' ∧
    match sget "src_dir" l' with
    | None => r = KeyError "src_dir"
    | Some src =>
        let nt := bool_decide (os_name env = "nt") in
        let src_dir := if nt then lower src else src in
        let tgt_sub := String.substring 0 (String.length src) tgt in
        let tgt_sub := if nt then lower tgt_sub else tgt_sub in
        r = if bool_decide (src_dir = tgt_sub) then Code 1
            else if os_path_isdir w src_dir then Code 0 else Code 2
    end.
Proof.
  intros Hnd. unfold validate. rewrite bind_get_self, bind_run.
  destruct s as [l lv]. simpl in *.
  destruct (for_each l _ tt _ w) as [[[[[]|e] s1] w1] t1] eqn:Hloop; [|done].
  apply (validate_loop I l [] lv) in Hloop as (l' & lv' & -> & -> & Hall); [|done].
  simpl. rewrite bind_get_self. simpl.
  destruct (sget "src_dir" l') as [src|] eqn:Hsrc.
  - destruct (bool_decide _) eqn:Hb; run.
    + intros [= <- <- <- <-]. eexists _, _. do 3 (split; [done|]).
      rewrite Hsrc. cbn zeta. by rewrite Hb.
    + destruct (os_path_isdir w _) eqn:Hd; run; intros [= <- <- <- <-].
      all: eexists _, _; do 3 (split; [done|]).
      all: rewrite Hsrc; cbn zeta; by rewrite Hb, Hd.
  - run. intros [= <- <- <- <-]. eexists _, _. do 3 (split; [done|]). by rewrite Hsrc.
Qed.

(** X24. What [load] guarantees when it returns. Whenever [load] returns
    (any code, or the missing [src_dir]), the world is unchanged and, in
    the dictionary it leaves, [num_versions] (when present) reads as an
    integer from 1 to 10, [nice] as an integer from 0 to 20, and [type] is
    tree, tar or gzip. When the code is 0, [src_dir] is present and names
    a directory. So the number of versions that [backup] passes to
    [sanify] is within 1 to 10. *)
Theorem loaded_directives_are_in_range
    (I : Interp) (env : Env) (content : option (list string)) (c : C_buconfig) (w : World)
    (r : validated) (c' : C_buconfig) (w' : World) (t : list event) :
  load_from I env content c w = (Ret r, c', w', t) →
  w' = w ∧
  match dict_get "num_versions" (cbuconfig.config c') with
  | Some (CStr s) => ∃ n, py_int s = Some n ∧ 1 ≤ n ≤ 10
  | Some (CList _) => False
  | None => True
  end ∧
  match dict_get "nice" (cbuconfig.config c') with
  | Some (CStr s) => ∃ n, py_int s = Some n ∧ 0 ≤ n ≤ 20
  | Some (CList _) => False
  | None => True
  end ∧
  match dict_get "type" (cbuconfig.config c') with
  | Some (CStr s) => s ∈ ["tree"; "tar"; "gzip"]
  | Some (CList _) => False
  | None => True
  end ∧
  (r = Code 0 →
   ∃ src, dict_get "src_dir" (cbuconfig.config c') = Some (CStr src) ∧
          os_path_isdir w (if bool_decide (os_name env = "nt") then lower src else src) = true).
Proof.
  unfold load_from. run. destruct (os_path_isfile w (conf_name c)); simpl.
  2:{ intros [= <- <- <- <-]. by repeat split. }
  destruct content as [lines|]; simpl.
  2:{ intros [= <- <- <- <-]. by repeat split. }
  unfold zoom. rewrite bind_run. cbn [logical_versions cbuconfig.set_config].
  destruct (read_lines_nodup lines (mkLoading [] (logical_versions c)) w)
    as (r1 & s1 & -> & Hnd & _); [constructor|].
  destruct r1 as [[]|e]; [|done]. rewrite prepend_nil.
  destruct (validate I env (cbuconfig.tgt_loc c) s1 w) as [[[r2 s2] w2] t2] eqn:Hval.
  intros [= -> <- <- <-].
  apply validate_run in Hval as (l' & lv' & -> & -> & Hall & Hres); [|done].
  split; [done|]. simpl. rewrite !dict_get_strs.
  assert (Hrel : ∀ k v', sget k l' = Some v' → ∃ v, item_rel I w k v v').
  { intros k v' Hk.
    destruct (sget_Forall2 (item_rel I w) _ _ k v' Hall Hk) as (v & _ & Hv). by exists v. }
  split; [|split; [|split]].
  - destruct (sget "num_versions" l') as [s|] eqn:Hs; [|done]. simpl.
    destruct (Hrel _ _ Hs) as (v & _ & Hv & _). by apply Hv.
  - destruct (sget "nice" l') as [s|] eqn:Hs; [|done]. simpl.
    destruct (Hrel _ _ Hs) as (v & _ & _ & Hv & _). by apply Hv.
  - destruct (sget "type" l') as [s|] eqn:Hs; [|done]. simpl.
    destruct (Hrel _ _ Hs) as (v & _ & _ & _ & Hv & _). by apply Hv.
  - intros ->. destruct (sget "src_dir" l') as [src|]; [|done]. cbn zeta in Hres.
    exists src. split; [done|].
    destruct (bool_decide (_ = _)); [done|]. by destruct (os_path_isdir w _).
Qed.

Lemma loaded_directives_are_in_range_witness :
  let lines := ["src_dir=/src" +:+ newline; "num_versions=42" +:+ newline;
                "nice=7" +:+ newline; "type=zip" +:+ newline] in
  let x := load_from interp_plain env_quiet (Some lines) (cbuconfig.init "/bu") world_run in
  x.1.1.1 = Ret (Code 0) ∧
  x.1.2 = world_run ∧
  match dict_get "num_versions" (cbuconfig.config x.1.1.2) with
  | Some (CStr s) => ∃ n, py_int s = Some n ∧ 1 ≤ n ≤ 10
  | Some (CList _) => False
  | None => True
  end ∧
  match dict_get "nice" (cbuconfig.config x.1.1.2) with
  | Some (CStr s) => ∃ n, py_int s = Some n ∧ 0 ≤ n ≤ 20
  | Some (CList _) => False
  | None => True
  end ∧
  match dict_get "type" (cbuconfig.config x.1.1.2) with
  | Some (CStr s) => s ∈ ["tree"; "tar"; "gzip"]
  | Some (CList _) => False
  | None => True
  end ∧
  (Code 0 = Code 0 →
   ∃ src, dict_get "src_dir" (cbuconfig.config x.1.1.2) = Some (CStr src) ∧
          os_path_isdir world_run
            (if bool_decide (os_name env_quiet = "nt") then lower src else src) = true).
Proof.
  intros lines x. split; [vm_compute; reflexivity|].
  apply (loaded_directives_are_in_range interp_plain env_quiet (Some lines)
           (cbuconfig.init "/bu") world_run (Code 0) x.1.1.2 x.1.2 x.2).
  vm_compute. reflexivity.
Defined.

(** X25. The configuration that [create] writes cannot be loaded as it
    is: its [src_dir] is empty, and [load] on the written lines prints that
    the key is required and then raises [IndexError] (from [val[0]]),
    whatever the platform. A backup that is run right after the
    initialisation, before buver.conf is edited, ends with that
    exception. *)
Theorem fresh_configuration_cannot_be_loaded
    (I : Interp) (env : Env) (c0 : C_buconfig) (w0 : World)
    (r : outcome Z) (c1 : C_buconfig) (w1 : World) (t1 : list event)
    (c : C_buconfig) (w : World) :
  create env c0 w0 = (r, c1, w1, t1) →
  os_path_isfile w (conf_name c) = true →
  ∃ c',
    load_from I env (Some (written_lines env (cbuconfig.config c1))) c w
    = (Raise IndexError, c', w, [Message "src_dir key is required, but is not set"]).
Proof.
  intros Hcreate Hfile.
  assert (Hload : ∀ d : pydict,
    (∃ s', read_lines (written_lines env d) (mkLoading [] (logical_versions c)) w
           = (Ret tt, mkLoading (("src_dir", "") :: s') (logical_versions c), w, [])) →
    ∃ c', load_from I env (Some (written_lines env d)) c w
          = (Raise IndexError, c', w, [Message "src_dir key is required, but is not set"])).
  { intros d [s' Hread]. unfold load_from. run. rewrite Hfile. simpl. unfold zoom.
    rewrite bind_run. cbn [logical_versions cbuconfig.set_config]. rewrite Hread.
    rewrite prepend_nil. unfold validate. rewrite bind_get_self, bind_run.
    cbn [entries for_each]. rewrite bind_run. unfold validate_item at 1. cbn [fst snd].
    rewrite (bool_decide_eq_true_2 (lower "src_dir" = "src_dir")) by done.
    rewrite bool_decide_eq_true_2 by done. run. by eexists. }
  unfold create in Hcreate. revert Hcreate. run.
  destruct (bool_decide (os_name env = "nt")); simpl; run;
    [|destruct (bool_decide (os_name env = "posix")); simpl; run].
  all: match goal with |- context [save ?e 1 ?c ?w] =>
         destruct (run_save e 1 c w) as (rc & w' & ok & ->) end.
  all: rewrite ?prepend_pair; intros [= <- <- <- <-]; apply Hload.
  all: eexists; vm_compute; reflexivity.
Qed.

Lemma fresh_configuration_cannot_be_loaded_witness :
  let x := create env_quiet (cbuconfig.init "/bu") (world_of ["/bu"] []) in
  ∃ c',
    load_from interp_plain env_quiet (Some (written_lines env_quiet (cbuconfig.config x.1.1.2)))
      (cbuconfig.init "/bu") x.1.2
    = (Raise IndexError, c', x.1.2, [Message "src_dir key is required, but is not set"]).
Proof.
  intros x.
  apply (fresh_configuration_cannot_be_loaded interp_plain env_quiet (cbuconfig.init "/bu")
           (world_of ["/bu"] []) x.1.1.1 x.1.1.2 x.1.2 x.2 (cbuconfig.init "/bu") x.1.2).
  - vm_compute. reflexivity.
  - vm_compute. reflexivity.
Defined.

Lemma sget_Forall2_fwd (R : string → string → string → Prop) (l l' : strdict) k v :
  Forall2 (λ kv kv', kv'.1 = kv.1 ∧ R kv.1 kv.2 kv'.2) l l' →
  sget k l = Some v → ∃ v', sget k l' = Some v' ∧ R k v v'.
Proof.
  induction 1 as [|[k0 v0] [k1 v1] l l' [Hk HR] _ IH]; [done|]. simpl in *. subst k1.
  destruct (bool_decide_reflect (k0 = k)) as [->|Hne].
  - intros [= ->]. by exists v1.
  - exact IH.
Qed.

(** X26. The nesting test of [validate] compares texts, not paths. On a
    platform other than Windows, when the value of [src_dir] (absolute, in
    normal form, not starting with a tilde) is a prefix of the target
    location as a string, [validate] returns 1 whenever it returns, also
    when the target is not below the source directory, as for [/data] and
    [/database/bu]. *)
Theorem nesting_is_tested_on_prefixes
    (I : Interp) (env : Env) (tgt : string) (s : loading) (w : World)
    (r : validated) (s' : loading) (w' : World) (t : list event) (c : ascii) (rest : string) :
  NoDup (entries s).*1 →
  sget "src_dir" (entries s) = Some (String c rest) →
  c ≠ "~"%char →
  normpath I (abspath w (String c rest)) = String c rest →
  os_name env ≠ "nt" →
  String.substring 0 (String.length (String c rest)) tgt = String c rest →
  validate I env tgt s w = (Ret r, s', w', t) →
  r = Code 1 ∧ sget "src_dir" (entries s') = Some (String c rest).
Proof.
  intros Hnd Hsrc Hc Hnorm Hos Hpre Hval.
  apply validate_run in Hval as (l' & lv' & -> & -> & Hall & Hres); [|done].
  destruct (sget_Forall2_fwd (item_rel I w) _ _ _ _ Hall Hsrc) as (v' & Hv' & Hrel & _).
  destruct (Hrel eq_refl) as (c1 & r1 & [= <- <-] & ->).
  rewrite (proj2 (Ascii.eqb_neq c "~")) in Hv' by done. rewrite Hnorm in Hv'.
  rewrite Hv' in Hres. cbn zeta in Hres.
  rewrite (bool_decide_eq_false_2 (os_name env = "nt")) in Hres by done.
  rewrite Hpre, bool_decide_eq_true_2 in Hres by done. by split.
Qed.

Lemma nesting_is_tested_on_prefixes_witness :
  let s := mkLoading [("src_dir", "/data")] None in
  let w := world_of ["/data"; "/database"; "/database/bu"] [] in
  ∃ r s' w' t,
    validate interp_plain env_quiet "/database/bu" s w = (Ret r, s', w', t) ∧
    r = Code 1 ∧ sget "src_dir" (entries s') = Some "/data".
Proof.
  intros s w. eexists _, _, _, _. split; [vm_compute; reflexivity|].
  apply (nesting_is_tested_on_prefixes interp_plain env_quiet "/database/bu" s w
           (Code 1) s w [Message "src_dir and tgt_loc cannot be the nested"] "/" "data").
  - apply (bool_decide_unpack _). vm_compute. exact I.
  - reflexivity.
  - intros H; discriminate H.
  - reflexivity.
  - intros H; discriminate H.
  - reflexivity.
  - vm_compute. reflexivity.
Defined.
